(** * gox: the SQL-template compiler, its run-time builder and its driver

    A shallow embedding of the template parser ([findSQLBlocks],
    [tokenizeSQLContent], [generateGoCodeForSQL] and the helpers they call),
    of the run-time [QueryBuilder] and of the driver's [processGoxFile],
    followed by the properties established for them.

    Go strings are byte sequences indexed from 0: they are modelled by
    [string] (a list of [ascii], one per byte), indices by [nat], and the
    sentinel [-1] of the search functions by [None]. *)

From Stdlib Require Import String Ascii List Arith Bool Lia.
From Stdlib Require Import Numbers.DecimalString.
Import ListNotations.

#[local] Set Warnings "-register-all".

Local Open Scope string_scope.
Local Open Scope bool_scope.
Local Open Scope nat_scope.
Local Open Scope list_scope.

(* ===================================================================== *)
(** * Go's [strings] package, on byte strings *)
(* ===================================================================== *)

Module Strs.

(** [s[i]]; every use in the sources is guarded by a bound check. *)
Definition byteAt (s : string) (i : nat) : ascii :=
  match String.get i s with
  | Some c => c
  | None => Ascii.zero
  end.

(** [s[a:b]] *)
Definition slice (s : string) (a b : nat) : string := substring a (b - a) s.

(** [s[a:]] *)
Definition sliceFrom (s : string) (a : nat) : string :=
  substring a (String.length s - a) s.

Definition isByte (c d : ascii) : bool := Ascii.eqb c d.

(** The white space of [unicode.IsSpace] that takes one byte: tab, line
    feed, vertical tab, form feed, carriage return and space. *)
Definition isSpace (c : ascii) : bool :=
  let n := nat_of_ascii c in
  ((9 <=? n) && (n <=? 13)) || (n =? 32).

(** The white space of [unicode.IsSpace] beyond ASCII, in UTF-8.  U+0085 and
    U+00A0 take two bytes: C2 85 and C2 A0. *)
Definition isSpace2 (c d : ascii) : bool :=
  let c := nat_of_ascii c in
  let d := nat_of_ascii d in
  (c =? 194) && ((d =? 133) || (d =? 160)).

(** U+1680 (E1 9A 80), U+2000 to U+200A (E2 80 80 to E2 80 8A), U+2028,
    U+2029 and U+202F (E2 80 A8, E2 80 A9, E2 80 AF), U+205F (E2 81 9F) and
    U+3000 (E3 80 80) take three. *)
Definition isSpace3 (c d e : ascii) : bool :=
  let c := nat_of_ascii c in
  let d := nat_of_ascii d in
  let e := nat_of_ascii e in
  ((c =? 225) && (d =? 154) && (e =? 128))
  || ((c =? 226) && (d =? 128)
      && (((128 <=? e) && (e <=? 138)) || (e =? 168) || (e =? 169) || (e =? 175)))
  || ((c =? 226) && (d =? 129) && (e =? 159))
  || ((c =? 227) && (d =? 128) && (e =? 128)).

(** A text that is one white-space rune of two or three bytes. *)
Definition isSpaceRune (s : string) : bool :=
  match s with
  | String c (String d EmptyString) => isSpace2 c d
  | String c (String d (String e EmptyString)) => isSpace3 c d e
  | _ => false
  end.

(** [strings.TrimLeftFunc s unicode.IsSpace]: the runes are read from the
    left and cut as long as they are white space.  A byte sequence that is
    not the encoding of a rune is read as U+FFFD, which is no white space. *)
Fixpoint trimLeft (s : string) : string :=
  match s with
  | EmptyString => EmptyString
  | String c r =>
      if isSpace c then trimLeft r
      else
        match r with
        | EmptyString => s
        | String d r2 =>
            if isSpace2 c d then trimLeft r2
            else
              match r2 with
              | EmptyString => s
              | String e r3 => if isSpace3 c d e then trimLeft r3 else s
              end
        end
  end.

(** [strings.TrimRightFunc s unicode.IsSpace]: the runes are read from the
    right and cut as long as they are white space.  Told from the left: of
    [c] followed by [r] there is left [c] followed by what is left of [r],
    unless these bytes are one white-space rune; when nothing is left of
    [r], the byte [c] itself is cut if it is white space. *)
Fixpoint trimRight (s : string) : string :=
  match s with
  | EmptyString => EmptyString
  | String c r =>
      match trimRight r with
      | EmptyString => if isSpace c then EmptyString else String c EmptyString
      | r' => if isSpaceRune (String c r') then EmptyString else String c r'
      end
  end.

(** [strings.TrimSpace]: the white-space runes of the UTF-8 text are cut at
    both ends. *)
Definition TrimSpace (s : string) : string := trimRight (trimLeft s).

(** [strings.HasPrefix s p] *)
Definition HasPrefix (s p : string) : bool := String.prefix p s.

(** [strings.Index]: the first position where [sub] occurs. *)
Fixpoint Index (s sub : string) : option nat :=
  if String.prefix sub s then Some 0
  else match s with
       | EmptyString => None
       | String _ r => option_map S (Index r sub)
       end.

(** [strings.Contains] *)
Definition Contains (s sub : string) : bool :=
  match Index s sub with Some _ => true | None => false end.

(** [strings.Split s "\n"], on a one-byte separator. *)
Fixpoint SplitByte (sep : ascii) (s : string) : list string :=
  match s with
  | EmptyString => [EmptyString]
  | String c r =>
      if isByte c sep then EmptyString :: SplitByte sep r
      else match SplitByte sep r with
           | [] => [String c EmptyString]
           | l :: ls => String c l :: ls
           end
  end.

(** [strings.Join] *)
Definition Join (parts : list string) (sep : string) : string :=
  String.concat sep parts.

(** [strings.TrimSuffix] *)
Definition TrimSuffix (s suffix : string) : string :=
  let n := String.length s in
  let m := String.length suffix in
  if (m <=? n) && String.eqb (substring (n - m) m s) suffix
  then substring 0 (n - m) s
  else s.

(** [strings.HasSuffix] *)
Definition HasSuffix (s suffix : string) : bool :=
  let n := String.length s in
  let m := String.length suffix in
  (m <=? n) && String.eqb (substring (n - m) m s) suffix.

(** [%d] of a non-negative [int] *)
Definition itoa (n : nat) : string := NilEmpty.string_of_uint (Nat.to_uint n).

Definition LF : ascii := ascii_of_nat 10.
Definition CR : ascii := ascii_of_nat 13.
Definition TAB : ascii := ascii_of_nat 9.
Definition DQUOTE : ascii := ascii_of_nat 34.
Definition nl : string := String LF EmptyString.
Definition tab : string := String TAB EmptyString.

(** [strings.Trim s cutset]: the bytes of [cutset] are cut from both ends. *)
Fixpoint inCutset (c : ascii) (cutset : string) : bool :=
  match cutset with
  | EmptyString => false
  | String d r => isByte c d || inCutset c r
  end.

Fixpoint trimLeftCut (cutset s : string) : string :=
  match s with
  | EmptyString => EmptyString
  | String c r => if inCutset c cutset then trimLeftCut cutset r else s
  end.

Fixpoint trimRightCut (cutset s : string) : string :=
  match s with
  | EmptyString => EmptyString
  | String c r =>
      match trimRightCut cutset r with
      | EmptyString => if inCutset c cutset then EmptyString else String c EmptyString
      | r' => String c r'
      end
  end.

Definition Trim (s cutset : string) : string := trimRightCut cutset (trimLeftCut cutset s).

Definition dquote : string := String DQUOTE EmptyString.

End Strs.

Import Strs.

(* ===================================================================== *)
(** * The parser *)
(* ===================================================================== *)

Module Parser.

(** ** Skipper primitives *)

(** [skipStringLiteral]: the loop that runs from just after the opening
    quote to the closing one. *)
Fixpoint skipStringLiteral_loop (fuel : nat) (content : string) (quote : ascii)
    (i : nat) : nat :=
  match fuel with
  | 0 => i
  | S fuel' =>
      if (i <? String.length content) && negb (isByte (byteAt content i) quote)
      then
        let i1 :=
          if isByte (byteAt content i) "\" && (i + 1 <? String.length content)
             && negb (isByte quote "`")
          then i + 1 else i in
        skipStringLiteral_loop fuel' content quote (i1 + 1)
      else i
  end.

Definition skipStringLiteral (content : string) (pos : nat) (quote : ascii) : nat :=
  if (String.length content <=? pos) || negb (isByte (byteAt content pos) quote)
  then pos
  else
    let i := skipStringLiteral_loop (String.length content) content quote (pos + 1) in
    if i <? String.length content then i + 1 else i.

(** [findMatchingQuote] *)
Fixpoint findMatchingQuote_loop (fuel : nat) (content : string) (quoteChar : ascii)
    (isRawString : bool) (i : nat) : option nat :=
  match fuel with
  | 0 => None
  | S fuel' =>
      if i <? String.length content then
        if isByte (byteAt content i) quoteChar then Some i
        else
          let i1 :=
            if negb isRawString && isByte (byteAt content i) "\"
               && (i + 1 <? String.length content)
            then i + 1 else i in
          findMatchingQuote_loop fuel' content quoteChar isRawString (i1 + 1)
      else None
  end.

Definition findMatchingQuote (content : string) (start : nat) (quoteChar : ascii)
    (isRawString : bool) : option nat :=
  findMatchingQuote_loop (S (String.length content)) content quoteChar isRawString start.

Definition isQuote (c : ascii) : bool :=
  isByte c DQUOTE || isByte c "'" || isByte c "`".

(** [findMatchingBrace] and [findMatchingParen] share their loop; [op] and
    [cl] are the opening and the closing byte.  The loop returns the count
    and the cursor it stops with. *)
Fixpoint findMatching_loop (op cl : ascii) (fuel : nat) (content : string)
    (count i : nat) : nat * nat :=
  match fuel with
  | 0 => (count, i)
  | S fuel' =>
      if (i <? String.length content) && (0 <? count) then
        let c := byteAt content i in
        if isByte c op then findMatching_loop op cl fuel' content (count + 1) (i + 1)
        else if isByte c cl then findMatching_loop op cl fuel' content (count - 1) (i + 1)
        else if isQuote c then
          findMatching_loop op cl fuel' content count
            (skipStringLiteral content i c - 1 + 1)
        else findMatching_loop op cl fuel' content count (i + 1)
      else (count, i)
  end.

Definition findMatching (op cl : ascii) (content : string) (start : nat)
    : option (string * nat) :=
  let '(count, i) :=
    findMatching_loop op cl (S (String.length content)) content 1 start in
  if count =? 0 then Some (slice content start (i - 1), i - 1) else None.

Definition findMatchingBrace : string -> nat -> option (string * nat) :=
  findMatching "{" "}".

Definition findMatchingParen : string -> nat -> option (string * nat) :=
  findMatching "(" ")".

(** [isFollowingIdentifier] *)
Definition isIdentByte (c : ascii) : bool :=
  let n := nat_of_ascii c in
  ((97 <=? n) && (n <=? 122)) || ((65 <=? n) && (n <=? 90))
  || ((48 <=? n) && (n <=? 57)) || (n =? 95).

Definition isFollowingIdentifier (content : string) (parenPos : nat) : bool :=
  if parenPos =? 0 then false
  else isIdentByte (byteAt content (parenPos - 1)).

(** [findControlStructureParen]: the inner loop steps over the arguments of
    a function call. *)
Fixpoint skipCall_loop (fuel : nat) (content : string) (parenCount i : nat) : nat :=
  match fuel with
  | 0 => i
  | S fuel' =>
      if (i <? String.length content) && (0 <? parenCount) then
        let c := byteAt content i in
        if isByte c "(" then skipCall_loop fuel' content (parenCount + 1) (i + 1)
        else if isByte c ")" then skipCall_loop fuel' content (parenCount - 1) (i + 1)
        else if isQuote c then
          skipCall_loop fuel' content parenCount (skipStringLiteral content i c - 1 + 1)
        else skipCall_loop fuel' content parenCount (i + 1)
      else i
  end.

Fixpoint findControlStructureParen_loop (fuel : nat) (content : string)
    (lastParen : option nat) (i : nat) : option nat :=
  match fuel with
  | 0 => lastParen
  | S fuel' =>
      if i <? String.length content then
        let c := byteAt content i in
        if isByte c "(" then
          if isFollowingIdentifier content i then
            findControlStructureParen_loop fuel' content lastParen
              (skipCall_loop (String.length content) content 1 (i + 1))
          else findControlStructureParen_loop fuel' content (Some i) (i + 1)
        else if isQuote c then
          findControlStructureParen_loop fuel' content lastParen
            (skipStringLiteral content i c - 1 + 1)
        else findControlStructureParen_loop fuel' content lastParen (i + 1)
      else lastParen
  end.

Definition findControlStructureParen (content : string) : option nat :=
  findControlStructureParen_loop (S (String.length content)) content None 0.

(** ** Smart scope *)

Record SmartScopeResult := mkSmartScopeResult {
  ShouldHandle : bool;
  EndPos : nat;
  LineEndPos : nat;
  BlockContent : string
}.

Definition noSmartScope : SmartScopeResult := mkSmartScopeResult false 0 0 "".

(** The scan to the end of a line: the first index from [i] on that holds a
    line terminator, or [len(content)]. *)
Fixpoint lineEnd_loop (fuel : nat) (content : string) (i : nat) : nat :=
  match fuel with
  | 0 => i
  | S fuel' =>
      if (i <? String.length content) && negb (isByte (byteAt content i) LF)
         && negb (isByte (byteAt content i) CR)
      then lineEnd_loop fuel' content (i + 1)
      else i
  end.

Definition lineEndFrom (content : string) (i : nat) : nat :=
  lineEnd_loop (String.length content) content i.

(** [trySmartScopeProcessing]; [smartScopeMode] is the parser's field. *)
Definition trySmartScopeProcessing (smartScopeMode : bool) (basePos : nat)
    (lineContent fullContent totalContent : string) : SmartScopeResult :=
  if negb smartScopeMode || negb (Contains lineContent "(") then noSmartScope
  else
    match findControlStructureParen lineContent with
    | None => noSmartScope
    | Some parenIndex =>
        match findMatchingParen fullContent (parenIndex + 1) with
        | None => noSmartScope
        | Some (_, endParen) =>
            if endParen <? String.length lineContent then noSmartScope
            else
              let actualEndPos := basePos + 1 + endParen in
              let blockEndLine := lineEndFrom totalContent (actualEndPos + 1) in
              mkSmartScopeResult true actualEndPos blockEndLine
                (slice totalContent (basePos + 1) blockEndLine)
        end
    end.

(** ** The template tokenizer *)

Inductive SQLTokenType :=
| SQLTokenText
| SQLTokenParam
| SQLTokenTextExpr
| SQLTokenAtBlock
| SQLTokenAtLine
| SQLTokenCodeBlock
| SQLTokenDoubleAtBlock.

Record SQLToken := mkToken {
  tokType : SQLTokenType;
  tokContent : string;
  tokStart : nat;
  tokEnd : nat
}.

(** "Add the text before": the run [content[textStart:i]] becomes a Text
    token unless it is empty or all white space. *)
Definition flushText (content : string) (textStart i : nat)
    (tokens : list SQLToken) : list SQLToken :=
  if textStart <? i then
    let text := slice content textStart i in
    if negb (String.eqb (TrimSpace text) "")
    then tokens ++ [mkToken SQLTokenText text textStart i]
    else tokens
  else tokens.

(** What one test of the loop body does: [Continue] is Go's [continue] with
    the new cursor and text start, [Fall] goes on to the next test. *)
Inductive flow :=
| Continue (i textStart : nat) (tokens : list SQLToken)
| Fall (tokens : list SQLToken).

Definition orElse (r : flow) (k : list SQLToken -> flow) : flow :=
  match r with
  | Continue i ts tokens => Continue i ts tokens
  | Fall tokens => k tokens
  end.

(** A sigil [prefix{...}]: flush the text, look for the closing brace from
    [open] on, and emit a token of type [ty] if there is one. *)
Definition braceSigil (ty : SQLTokenType) (content : string) (i textStart open : nat)
    (tokens : list SQLToken) : flow :=
  let tokens := flushText content textStart i tokens in
  match findMatchingBrace content open with
  | Some (inner, e) =>
      Continue (e + 1) (e + 1) (tokens ++ [mkToken ty inner i (e + 1)])
  | None => Fall tokens
  end.

(** The scan of an [@] line: the end of the line and the first [{] of the
    line that is not part of [#{], [${] or [@{]. *)
Fixpoint atLineScan_loop (fuel : nat) (content : string) (i lineEnd : nat)
    (originalBracePos : option nat) : nat * option nat :=
  match fuel with
  | 0 => (lineEnd, originalBracePos)
  | S fuel' =>
      if (lineEnd <? String.length content)
         && negb (isByte (byteAt content lineEnd) LF)
         && negb (isByte (byteAt content lineEnd) CR)
      then
        let bp :=
          match originalBracePos with
          | None =>
              if isByte (byteAt content lineEnd) "{" then
                let prev := lineEnd - 1 in
                if (i + 1 <=? prev)
                   && negb (isByte (byteAt content prev) "#")
                   && negb (isByte (byteAt content prev) "$")
                   && negb (isByte (byteAt content prev) "@")
                then Some lineEnd else None
              else None
          | Some b => Some b
          end in
        atLineScan_loop fuel' content i (lineEnd + 1) bp
      else (lineEnd, originalBracePos)
  end.

(** The trim of the spaces and tabs before the brace. *)
Fixpoint atEnd_loop (fuel : nat) (content : string) (i atEnd : nat) : nat :=
  match fuel with
  | 0 => atEnd
  | S fuel' =>
      if (i + 1 <? atEnd)
         && (isByte (byteAt content (atEnd - 1)) " "
             || isByte (byteAt content (atEnd - 1)) TAB)
      then atEnd_loop fuel' content i (atEnd - 1)
      else atEnd
  end.

Definition atLine (smart : bool) (content : string) (i textStart : nat)
    (tokens : list SQLToken) : flow :=
  let tokens := flushText content textStart i tokens in
  let '(lineEnd, originalBracePos) :=
    atLineScan_loop (String.length content) content i (i + 1) None in
  let atEnd :=
    match originalBracePos with
    | Some b => atEnd_loop (String.length content) content i b
    | None => lineEnd
    end in
  let atContent := slice content (i + 1) atEnd in
  let smartResult :=
    trySmartScopeProcessing smart i atContent (sliceFrom content (i + 1)) content in
  if ShouldHandle smartResult then
    Continue (LineEndPos smartResult) (LineEndPos smartResult)
      (tokens
       ++ [mkToken SQLTokenAtBlock (TrimSpace (BlockContent smartResult)) i
             (LineEndPos smartResult)]
       ++ [mkToken SQLTokenText nl (LineEndPos smartResult) (LineEndPos smartResult)])
  else
    let atContent := TrimSpace atContent in
    let tokens :=
      if negb (String.eqb atContent "")
      then tokens ++ [mkToken SQLTokenAtLine atContent i atEnd]
      else tokens in
    match originalBracePos with
    | Some b => Continue b b (tokens ++ [mkToken SQLTokenText nl atEnd atEnd])
    | None => Continue lineEnd lineEnd (tokens ++ [mkToken SQLTokenText nl lineEnd lineEnd])
    end.

(** One turn of the loop of [tokenizeSQLContent], for [i < len(content)]. *)
Definition tokenizeStep (smart : bool) (content : string) (i textStart : nat)
    (tokens : list SQLToken) : flow :=
  let len := String.length content in
  let c := byteAt content i in
  orElse
    (if i + 1 <? len then
       orElse
         (if isByte c "#" && isByte (byteAt content (i + 1)) "{"
          then braceSigil SQLTokenParam content i textStart (i + 2) tokens
          else Fall tokens)
         (fun tokens =>
       orElse
         (if isByte c "$" && isByte (byteAt content (i + 1)) "{"
          then braceSigil SQLTokenTextExpr content i textStart (i + 2) tokens
          else Fall tokens)
         (fun tokens =>
       if isByte c "@" then
         if (i + 2 <? len) && isByte (byteAt content (i + 1)) "@"
            && isByte (byteAt content (i + 2)) "{"
         then braceSigil SQLTokenDoubleAtBlock content i textStart (i + 3) tokens
         else if (i + 1 <? len) && isByte (byteAt content (i + 1)) "{"
         then braceSigil SQLTokenAtBlock content i textStart (i + 2) tokens
         else atLine smart content i textStart tokens
       else Fall tokens))
     else Fall tokens)
    (fun tokens =>
  orElse
    (if isByte c "{" then
       if (i =? 0)
          || (negb (isByte (byteAt content (i - 1)) "#")
              && negb (isByte (byteAt content (i - 1)) "$")
              && negb (isByte (byteAt content (i - 1)) "@"))
       then braceSigil SQLTokenCodeBlock content i textStart (i + 1) tokens
       else Fall tokens
     else Fall tokens)
    (fun tokens => Continue (i + 1) textStart tokens)).

Fixpoint tokenize_loop (fuel : nat) (smart : bool) (content : string)
    (i textStart : nat) (tokens : list SQLToken) : nat * list SQLToken :=
  match fuel with
  | 0 => (textStart, tokens)
  | S fuel' =>
      if i <? String.length content then
        match tokenizeStep smart content i textStart tokens with
        | Continue i' ts' tokens' => tokenize_loop fuel' smart content i' ts' tokens'
        | Fall tokens' => tokenize_loop fuel' smart content (i + 1) textStart tokens'
        end
      else (textStart, tokens)
  end.

(** [tokenizeSQLContent]: the loop, then the text that is left. *)
Definition tokenizeSQLContent (smart : bool) (content : string) : list SQLToken :=
  let '(textStart, tokens) :=
    tokenize_loop (S (String.length content)) smart content 0 0 [] in
  if textStart <? String.length content then
    let text := sliceFrom content textStart in
    if negb (String.eqb (TrimSpace text) "")
    then tokens ++ [mkToken SQLTokenText text textStart (String.length content)]
    else tokens
  else tokens.

(** ** The top-level call finder *)

Record SQLBlockInfo := mkSQLBlockInfo {
  blockStart : nat;
  blockEnd : nat;
  blockContent : string
}.

Definition isCallBlank (c : ascii) : bool :=
  isByte c " " || isByte c TAB || isByte c LF.

Fixpoint skipCallBlank_loop (fuel : nat) (content : string) (j : nat) : nat :=
  match fuel with
  | 0 => j
  | S fuel' =>
      if (j <? String.length content) && isCallBlank (byteAt content j)
      then skipCallBlank_loop fuel' content (j + 1)
      else j
  end.

Definition skipCallBlank (content : string) (j : nat) : nat :=
  skipCallBlank_loop (String.length content) content j.

Fixpoint skipStars_loop (fuel : nat) (content : string) (j : nat) : nat :=
  match fuel with
  | 0 => j
  | S fuel' =>
      if (j <? String.length content) && isByte (byteAt content j) "*"
      then skipStars_loop fuel' content (j + 1)
      else j
  end.

Fixpoint commentEnd_loop (fuel : nat) (content : string) (commentEnd : nat) : nat :=
  match fuel with
  | 0 => commentEnd
  | S fuel' =>
      if (commentEnd <? String.length content - 1)
         && negb (isByte (byteAt content commentEnd) "*"
                  && isByte (byteAt content (commentEnd + 1)) "/")
      then commentEnd_loop fuel' content (commentEnd + 1)
      else commentEnd
  end.

(** The test for the two call prefixes: the length of the prefix found. *)
Definition callPrefixAt (content : string) (i : nat) : option nat :=
  let len := String.length content in
  if (i + 8 <=? len) && String.eqb (slice content i (i + 8)) "gox.Sql(" then Some 8
  else if (i + 15 <=? len) && String.eqb (slice content i (i + 15)) "runtime.Query("
  then Some 15
  else None.

(** What the finder does at a call prefix: the block found, or the position
    the scan goes on from. *)
Definition callAt (content : string) (i funcLen : nat) : SQLBlockInfo + nat :=
  let len := String.length content in
  let j := skipCallBlank content (i + funcLen) in
  if len <=? j then inr (i + 1)
  else if isByte (byteAt content j) "`" || isByte (byteAt content j) "'" then
    let quoteChar := byteAt content j in
    let isRawString := isByte quoteChar "`" in
    let contentStart := j + 1 in
    match findMatchingQuote content contentStart quoteChar isRawString with
    | None => inr (j + 1)
    | Some sqlEnd =>
        let closeParenPos := skipCallBlank content (sqlEnd + 1) in
        if (len <=? closeParenPos) || negb (isByte (byteAt content closeParenPos) ")")
        then inr (j + 1)
        else inl (mkSQLBlockInfo i (closeParenPos + 1) (slice content contentStart sqlEnd))
    end
  else if isByte (byteAt content j) "/" && (j + 1 <? len)
          && isByte (byteAt content (j + 1)) "*" then
    let commentStart := skipStars_loop len content (j + 2) in
    let commentEnd := commentEnd_loop len content commentStart in
    if len - 1 <=? commentEnd then inr (j + 1)
    else
      let closeParenPos := skipCallBlank content (commentEnd + 2) in
      if (len <=? closeParenPos) || negb (isByte (byteAt content closeParenPos) ")")
      then inr (j + 1)
      else inl (mkSQLBlockInfo i (closeParenPos + 1) (slice content commentStart commentEnd))
  else inr (i + 5).

Fixpoint findSQLBlocks_loop (fuel : nat) (content : string) (i : nat)
    (blocks : list SQLBlockInfo) : list SQLBlockInfo :=
  match fuel with
  | 0 => blocks
  | S fuel' =>
      if i <? String.length content then
        if isByte (byteAt content i) DQUOTE
        then findSQLBlocks_loop fuel' content (skipStringLiteral content i DQUOTE) blocks
        else
          match callPrefixAt content i with
          | Some funcLen =>
              match callAt content i funcLen with
              | inl info => findSQLBlocks_loop fuel' content (blockEnd info) (blocks ++ [info])
              | inr i' => findSQLBlocks_loop fuel' content i' blocks
              end
          | None => findSQLBlocks_loop fuel' content (i + 1) blocks
          end
      else blocks
  end.

Definition findSQLBlocks (content : string) : list SQLBlockInfo :=
  findSQLBlocks_loop (S (String.length content)) content 0 [].

(** ** [autoAddReturn] *)

(** The lines that hold code, trimmed: neither empty nor a [//] comment. *)
Definition codeLinesOf (lines : list string) : list string :=
  flat_map
    (fun line =>
       let trimmed := TrimSpace line in
       if negb (String.eqb trimmed "") && negb (HasPrefix trimmed "//")
       then [trimmed] else [])
    lines.

Definition autoAddReturn (content : string) : string :=
  let lines := SplitByte LF content in
  match codeLinesOf lines with
  | [line] =>
      if HasPrefix line "gox.Sql(" && negb (HasPrefix line "return ")
      then ("return " ++ content)%string
      else content
  | _ => content
  end.

(** ** Nodes *)

(** The part of [go/ast] that [exprToString] looks at; [OtherExpr] stands
    for every other kind of expression node. *)
Inductive Expr :=
| Ident (name : string)
| BasicLit (value : string)
| SelectorExpr (x : Expr) (sel : string)
| CallExpr (fn : Expr) (args : list Expr)
| UnaryExpr (op : string) (x : Expr)
| BinaryExpr (x : Expr) (op : string) (y : Expr)
| ParenExpr (x : Expr)
| OtherExpr (src : string).

Inductive SQLExpressionType :=
| SQLExprParam
| SQLExprText
| SQLExprAtText
| SQLExprDoubleAtQuery
| SQLExprCode.

Inductive SQLNode :=
| SQLText (text : string)
| SQLExpression (ty : SQLExpressionType) (content : string) (expr : option Expr).

Record SQLBlock := mkSQLBlock {
  Content : list SQLNode;
  VarName : string
}.

(** What a loop body or one of its tests comes to: out of fuel, Go's
    [continue] with the new state, or on to the next test. *)
Inductive outcome (St : Type) :=
| OutOfFuel
| Cont (st : St)
| Pass.
Arguments OutOfFuel {St}.
Arguments Cont {St} st.
Arguments Pass {St}.

Definition orPass {St : Type} (r : outcome St) (k : unit -> outcome St) : outcome St :=
  match r with
  | Pass => k tt
  | _ => r
  end.

Section Emitter.

(** Go's standard library, as far as the emitter calls it:
    [parser.ParseExpr], [format.Node] and [strconv.Quote]. *)
Variable ParseExpr : string -> option Expr.
Variable format_Node : Expr -> option string.
Variable Quote : string -> string.

(** The parser's [smartScopeMode] field. *)
Variable smartScopeMode : bool.

(** [tryParseExpr] *)
Definition tryParseExpr (content : string) : option Expr :=
  let content := TrimSpace content in
  if String.eqb content "" then None else ParseExpr content.

(** [tokensToNodes] *)
Definition tokenToNode (token : SQLToken) : SQLNode :=
  match tokType token with
  | SQLTokenText => SQLText (tokContent token)
  | SQLTokenParam =>
      SQLExpression SQLExprParam (tokContent token) (tryParseExpr (tokContent token))
  | SQLTokenTextExpr =>
      SQLExpression SQLExprText (tokContent token) (tryParseExpr (tokContent token))
  | SQLTokenAtBlock => SQLExpression SQLExprAtText (tokContent token) None
  | SQLTokenAtLine => SQLExpression SQLExprAtText (tokContent token) None
  | SQLTokenDoubleAtBlock => SQLExpression SQLExprDoubleAtQuery (tokContent token) None
  | SQLTokenCodeBlock =>
      SQLExpression SQLExprCode (tokContent token) (tryParseExpr (tokContent token))
  end.

Definition tokensToNodes (tokens : list SQLToken) : list SQLNode :=
  map tokenToNode tokens.

(** [parseSQLBlock]; its error result is always [nil]. *)
Definition parseSQLBlock (sqlContent varName : string) : SQLBlock :=
  mkSQLBlock (tokensToNodes (tokenizeSQLContent smartScopeMode sqlContent)) varName.

(** [exprToString] *)
Fixpoint exprToString (e : Expr) : string :=
  match e with
  | Ident name => name
  | BasicLit value => value
  | SelectorExpr x sel => exprToString x ++ "." ++ sel
  | CallExpr fn args =>
      exprToString fn ++ "(" ++ Join (map exprToString args) ", " ++ ")"
  | UnaryExpr op x => op ++ exprToString x
  | BinaryExpr x op y => exprToString x ++ " " ++ op ++ " " ++ exprToString y
  | ParenExpr x => "(" ++ exprToString x ++ ")"
  | OtherExpr _ =>
      match format_Node e with
      | Some s => s
      | None => "/* parse_error */"
      end
  end.

(** The two calls the emitter writes. *)
Definition callAddText (builderName arg : string) : string :=
  builderName ++ ".AddText(" ++ arg ++ ")".

Definition callAddParam (builderName arg : string) : string :=
  builderName ++ ".AddParam(" ++ arg ++ ")".

(** The separator between the statements put in place of a sigil. *)
Definition sep3 : string := nl ++ tab ++ tab ++ tab.
Definition sep2 : string := nl ++ tab ++ tab.

(** The four emitter functions call one another; [emitters] holds them at
    one recursion depth. *)
Record emitters := mkEmitters {
  gen_ : SQLBlock -> option string;
  pce_ : string -> string -> option string;
  pspp_ : string -> string -> option (string * list string);
  pssc_ : string -> string -> option (list string)
}.

Section OneLevel.

Variable E : emitters.

(** *** [processSQLPartForParams] *)

Definition flushBuf (builderName : string) (calls : list string) (textBuf : string)
    : list string * string :=
  if 0 <? String.length textBuf
  then (calls ++ [callAddText builderName (Quote textBuf)], "")
  else (calls, textBuf).

(** The state of the loop: cursor, calls, text buffer. *)
Definition psppState : Type := nat * list string * string.

Definition psppStep (sqlPart builderName : string) (st : psppState)
    : outcome psppState :=
  let '(i, calls, textBuf) := st in
  let len := String.length sqlPart in
  let c := byteAt sqlPart i in
  orPass
    (* 1. #{ ... } *)
    (if (i + 1 <? len) && isByte c "#" && isByte (byteAt sqlPart (i + 1)) "{" then
       match findMatchingBrace sqlPart (i + 2) with
       | Some (content, e) =>
           let '(calls, textBuf) := flushBuf builderName calls textBuf in
           Cont (e + 1, calls ++ [callAddParam builderName (TrimSpace content)], textBuf)
       | None => Pass
       end
     else Pass)
    (fun _ =>
  orPass
    (* 2. ${ ... } *)
    (if (i + 1 <? len) && isByte c "$" && isByte (byteAt sqlPart (i + 1)) "{" then
       match findMatchingBrace sqlPart (i + 2) with
       | Some (content, e) =>
           let '(calls, textBuf) := flushBuf builderName calls textBuf in
           Cont (e + 1, calls ++ [callAddText builderName (TrimSpace content)], textBuf)
       | None => Pass
       end
     else Pass)
    (fun _ =>
  orPass
    (* 3. a bare { ... } of host code *)
    (if isByte c "{"
        && ((i =? 0)
            || (negb (isByte (byteAt sqlPart (i - 1)) "#")
                && negb (isByte (byteAt sqlPart (i - 1)) "$")
                && negb (isByte (byteAt sqlPart (i - 1)) "@"))) then
       match findMatchingBrace sqlPart (i + 1) with
       | Some (content, e) =>
           let '(calls, textBuf) := flushBuf builderName calls textBuf in
           match pce_ E (TrimSpace content) builderName with
           | None => OutOfFuel
           | Some processed =>
               let calls :=
                 if negb (String.eqb processed "") then calls ++ [processed] else calls in
               Cont (e + 1, calls, textBuf)
           end
       | None => Pass
       end
     else Pass)
    (fun _ =>
  orPass
    (* 4. @@{ ... } *)
    (if (i + 2 <? len) && isByte c "@" && isByte (byteAt sqlPart (i + 1)) "@"
        && isByte (byteAt sqlPart (i + 2)) "{" then
       match findMatchingBrace sqlPart (i + 3) with
       | Some (blockContent, e) =>
           let '(calls, textBuf) := flushBuf builderName calls textBuf in
           let varName := ("__double_at_query_" ++ itoa i)%string in
           match gen_ E (parseSQLBlock blockContent varName) with
           | None => OutOfFuel
           | Some queryCode => Cont (e + 1, calls ++ [queryCode], textBuf)
           end
       | None => Pass
       end
     else Pass)
    (fun _ =>
  orPass
    (* 5. @{ ... } *)
    (if (i + 1 <? len) && isByte c "@" && isByte (byteAt sqlPart (i + 1)) "{" then
       match findMatchingBrace sqlPart (i + 2) with
       | Some (blockContent, e) =>
           let '(calls, textBuf) := flushBuf builderName calls textBuf in
           match pspp_ E blockContent builderName with
           | None => OutOfFuel
           | Some (processedSQL, paramCalls) =>
               let calls :=
                 if negb (String.eqb processedSQL "")
                 then calls ++ [callAddText builderName (Quote processedSQL)]
                 else calls in
               Cont (e + 1, calls ++ paramCalls, textBuf)
           end
       | None => Pass
       end
     else Pass)
    (fun _ =>
  orPass
    (* 6. the @xxx line shorthand *)
    (if isByte c "@" then
       if negb ((i + 1 <? len)
                && (isByte (byteAt sqlPart (i + 1)) "{"
                    || (isByte (byteAt sqlPart (i + 1)) "@" && (i + 2 <? len)
                        && isByte (byteAt sqlPart (i + 2)) "{"))) then
         let '(calls, textBuf) := flushBuf builderName calls textBuf in
         let lineEnd := lineEndFrom sqlPart (i + 1) in
         let smartResult :=
           if smartScopeMode
           then trySmartScopeProcessing smartScopeMode i (slice sqlPart (i + 1) lineEnd)
                  (sliceFrom sqlPart (i + 1)) sqlPart
           else noSmartScope in
         if ShouldHandle smartResult then
           Cont (LineEndPos smartResult,
                 calls
                 ++ [callAddText builderName (Quote (TrimSpace (BlockContent smartResult)))]
                 ++ [callAddText builderName (Quote nl)],
                 textBuf)
         else
           let lineContent := TrimSpace (slice sqlPart (i + 1) lineEnd) in
           let sub :=
             if negb (String.eqb lineContent "") then
               match pspp_ E lineContent builderName with
               | None => None
               | Some (_, subCalls) => Some (calls ++ subCalls)
               end
             else Some calls in
           match sub with
           | None => OutOfFuel
           | Some calls =>
               Cont (lineEnd, calls ++ [callAddText builderName (Quote nl)], textBuf)
           end
       else Pass
     else Pass)
    (fun _ =>
  (* an ordinary byte *)
  Cont (i + 1, calls, textBuf ++ String c EmptyString)%string)))))).

Fixpoint pspp_loop (fuel : nat) (sqlPart builderName : string) (st : psppState)
    : option (list string * string) :=
  match fuel with
  | 0 => None
  | S fuel' =>
      let '(i, calls, textBuf) := st in
      if i <? String.length sqlPart then
        match psppStep sqlPart builderName st with
        | OutOfFuel => None
        | Cont st' => pspp_loop fuel' sqlPart builderName st'
        | Pass => None
        end
      else Some (calls, textBuf)
  end.

Definition processSQLPartForParams_body (sqlPart builderName : string)
    : option (string * list string) :=
  match pspp_loop (S (String.length sqlPart)) sqlPart builderName (0, [], "") with
  | None => None
  | Some (calls, textBuf) =>
      let '(calls, _) := flushBuf builderName calls textBuf in
      Some ("", calls)
  end.

(** *** [processSmartScopeContent] *)

Definition isBlank (c : ascii) : bool :=
  isByte c " " || isByte c TAB || isByte c LF || isByte c CR.

Fixpoint skipBlank_loop (fuel : nat) (content : string) (i : nat) : nat :=
  match fuel with
  | 0 => i
  | S fuel' =>
      if (i <? String.length content) && isBlank (byteAt content i)
      then skipBlank_loop fuel' content (i + 1)
      else i
  end.

Definition isSpecial (c : ascii) : bool :=
  isByte c "{" || isByte c "#" || isByte c "$" || isByte c "@".

Fixpoint plainRun_loop (fuel : nat) (content : string) (i : nat) : nat :=
  match fuel with
  | 0 => i
  | S fuel' =>
      if (i <? String.length content) && negb (isSpecial (byteAt content i))
      then plainRun_loop fuel' content (i + 1)
      else i
  end.

(** One turn of the outer loop, from after the white space on; the state is
    the cursor and the parts. *)
Definition psscStep (content builderName : string) (i : nat) (parts : list string)
    : outcome (nat * list string) :=
  let len := String.length content in
  let c := byteAt content i in
  orPass
    (if i + 1 <? len then
       orPass
         (if isByte c "#" && isByte (byteAt content (i + 1)) "{" then
            match findMatchingBrace content (i + 2) with
            | Some (exprContent, e) =>
                Cont (e + 1, parts ++ [callAddParam builderName (TrimSpace exprContent)])
            | None => Pass
            end
          else Pass)
         (fun _ =>
       orPass
         (if isByte c "$" && isByte (byteAt content (i + 1)) "{" then
            match findMatchingBrace content (i + 2) with
            | Some (exprContent, e) =>
                Cont (e + 1, parts ++ [callAddText builderName (TrimSpace exprContent)])
            | None => Pass
            end
          else Pass)
         (fun _ =>
       orPass
         (if (i + 2 <? len) && isByte c "@" && isByte (byteAt content (i + 1)) "@"
             && isByte (byteAt content (i + 2)) "{" then
            match findMatchingBrace content (i + 3) with
            | Some (blockContent, e) =>
                let varName := ("__double_at_query_" ++ itoa i)%string in
                match gen_ E (parseSQLBlock blockContent varName) with
                | None => OutOfFuel
                | Some queryCode => Cont (e + 1, parts ++ [queryCode])
                end
            | None => Pass
            end
          else Pass)
         (fun _ =>
       if isByte c "@" && isByte (byteAt content (i + 1)) "{" then
         match findMatchingBrace content (i + 2) with
         | Some (blockContent, e) =>
             match pspp_ E blockContent builderName with
             | None => OutOfFuel
             | Some (processedSQL, paramCalls) =>
                 let parts :=
                   if negb (String.eqb processedSQL "")
                   then parts ++ [callAddText builderName (Quote processedSQL)]
                   else parts in
                 Cont (e + 1, parts ++ paramCalls)
             end
         | None => Pass
         end
       else Pass)))
     else Pass)
    (fun _ =>
  orPass
    (if isByte c "{" then
       if (i =? 0)
          || (negb (isByte (byteAt content (i - 1)) "#")
              && negb (isByte (byteAt content (i - 1)) "$")
              && negb (isByte (byteAt content (i - 1)) "@")) then
         match findMatchingBrace content (i + 1) with
         | Some (blockContent, endPos) =>
             match pce_ E blockContent builderName with
             | None => OutOfFuel
             | Some processedCode =>
                 let parts :=
                   if negb (String.eqb processedCode "")
                   then parts ++ [processedCode] else parts in
                 Cont (endPos + 1, parts)
             end
         | None => Pass
         end
       else Pass
     else Pass)
    (fun _ =>
  (* SQL text up to the next special byte *)
  let textStart := i in
  let i := plainRun_loop len content i in
  if textStart <? i then
    let sqlText := TrimSpace (slice content textStart i) in
    if negb (String.eqb sqlText "")
    then Cont (i, parts ++ [callAddText builderName (Quote sqlText)])
    else Cont (i, parts)
  else Cont (i, parts))).

Fixpoint pssc_loop (fuel : nat) (content builderName : string) (i : nat)
    (parts : list string) : option (list string) :=
  match fuel with
  | 0 => None
  | S fuel' =>
      if i <? String.length content then
        let i := skipBlank_loop (String.length content) content i in
        if String.length content <=? i then Some parts
        else
          match psscStep content builderName i parts with
          | OutOfFuel => None
          | Cont (i', parts') => pssc_loop fuel' content builderName i' parts'
          | Pass => None
          end
      else Some parts
  end.

Definition processSmartScopeContent_body (fuel : nat) (content builderName : string)
    : option (list string) :=
  pssc_loop fuel content builderName 0 [].

(** *** [processCodeBlockExpressions] *)

(** Sweep 1: every [@@{...}] becomes the code of its nested query. *)
Fixpoint sweepDoubleAt (fuel : nat) (result : string) : option string :=
  match fuel with
  | 0 => None
  | S fuel' =>
      match Index result "@@{" with
      | None => Some result
      | Some start =>
          match findMatchingBrace result (start + 3) with
          | None => Some result
          | Some (blockContent, e) =>
              let varName := ("__double_at_query_" ++ itoa start)%string in
              match gen_ E (parseSQLBlock blockContent varName) with
              | None => None
              | Some queryCode =>
                  sweepDoubleAt fuel'
                    (slice result 0 start ++ queryCode ++ sliceFrom result (e + 1))
              end
          end
      end
  end.

(** Sweep 2: every [@{...}] becomes its calls. *)
Fixpoint sweepAtBlock (fuel : nat) (builderName result : string) : option string :=
  match fuel with
  | 0 => None
  | S fuel' =>
      match Index result "@{" with
      | None => Some result
      | Some start =>
          match findMatchingBrace result (start + 2) with
          | None => Some result
          | Some (blockContent, e) =>
              match pspp_ E blockContent builderName with
              | None => None
              | Some (processedSQL, paramCalls) =>
                  let replacement :=
                    if 0 <? List.length paramCalls then
                      let parts :=
                        if negb (String.eqb processedSQL "")
                        then [callAddText builderName (Quote processedSQL)] else [] in
                      Join (parts ++ paramCalls) sep3
                    else if negb (String.eqb processedSQL "")
                    then callAddText builderName (Quote processedSQL)
                    else "" in
                  sweepAtBlock fuel' builderName
                    (slice result 0 start ++ replacement ++ sliceFrom result (e + 1))
              end
          end
      end
  end.

(** Sweep 3: every [@xxx] line shorthand; the state is the code and the
    position the search goes on from. *)
Definition sweepAtLineStep (builderName result : string) (idx : nat)
    : option (string * nat) :=
  let len := String.length result in
  if (idx + 2 <? len) && isByte (byteAt result (idx + 1)) "@"
     && isByte (byteAt result (idx + 2)) "{"
  then Some (result, idx + 3)
  else if (idx + 1 <? len) && isByte (byteAt result (idx + 1)) "{"
  then Some (result, idx + 2)
  else
    let '(lineEnd, originalBracePos) := atLineScan_loop len result idx idx None in
    let lineContent := slice result (idx + 1) lineEnd in
    let smartResult :=
      trySmartScopeProcessing smartScopeMode idx lineContent
        (sliceFrom result (idx + 1)) result in
    if ShouldHandle smartResult then
      match pssc_ E (BlockContent smartResult) builderName with
      | None => None
      | Some processed =>
          let replacement :=
            Join ([callAddText builderName (Quote nl)] ++ processed) sep3 in
          Some ((slice result 0 idx ++ replacement
                 ++ sliceFrom result (LineEndPos smartResult))%string,
                idx + String.length replacement)
      end
    else
      let atEnd :=
        match originalBracePos with
        | Some b => atEnd_loop len result idx b
        | None => lineEnd
        end in
      let lineForDefault := TrimSpace (slice result (idx + 1) atEnd) in
      if negb (String.eqb lineForDefault "") then
        match pspp_ E lineForDefault builderName with
        | None => None
        | Some (processedSQL, paramCalls) =>
            let parts := [callAddText builderName (Quote nl)] in
            let parts :=
              if negb (String.eqb processedSQL "")
              then parts ++ [callAddText builderName (Quote processedSQL)] else parts in
            let parts := parts ++ paramCalls in
            let parts :=
              match originalBracePos with
              | Some _ => parts ++ [callAddText builderName (Quote nl)]
              | None => parts
              end in
            let replacement := Join parts sep3 in
            let result' :=
              match originalBracePos with
              | Some _ =>
                  (slice result 0 idx ++ replacement ++ sep3 ++ sliceFrom result atEnd)%string
              | None =>
                  (slice result 0 idx ++ replacement ++ sliceFrom result lineEnd)%string
              end in
            Some (result', idx + String.length replacement)
        end
      else
        match originalBracePos with
        | Some b => Some (result, b)
        | None => Some (result, lineEnd)
        end.

Fixpoint sweepAtLine (fuel : nat) (builderName result : string) (searchStart : nat)
    : option string :=
  match fuel with
  | 0 => None
  | S fuel' =>
      match Index (sliceFrom result searchStart) "@" with
      | None => Some result
      | Some idx =>
          match sweepAtLineStep builderName result (idx + searchStart) with
          | None => None
          | Some (result', searchStart') =>
              sweepAtLine fuel' builderName result' searchStart'
          end
      end
  end.

(** Sweeps 4 and 5 count the braces themselves. *)
Fixpoint naiveBrace_loop (fuel : nat) (result : string) (braceCount e : nat)
    : nat * nat :=
  match fuel with
  | 0 => (braceCount, e)
  | S fuel' =>
      if (e <? String.length result) && (0 <? braceCount) then
        if isByte (byteAt result e) "{"
        then naiveBrace_loop fuel' result (braceCount + 1) (e + 1)
        else if isByte (byteAt result e) "}"
        then naiveBrace_loop fuel' result (braceCount - 1) (e + 1)
        else naiveBrace_loop fuel' result braceCount (e + 1)
      else (braceCount, e)
  end.

Fixpoint sweepStandalone (fuel : nat) (opener : string)
    (call : string -> string -> string) (builderName result : string)
    : option string :=
  match fuel with
  | 0 => None
  | S fuel' =>
      match Index result opener with
      | None => Some result
      | Some start =>
          let '(braceCount, e) :=
            naiveBrace_loop (String.length result) result 1 (start + 2) in
          if braceCount =? 0 then
            let expr := TrimSpace (slice result (start + 2) (e - 1)) in
            sweepStandalone fuel' opener call builderName
              (slice result 0 start ++ call builderName expr ++ sliceFrom result e)
          else Some result
      end
  end.

Definition processCodeBlockExpressions_body (fuel : nat)
    (codeContent builderName : string) : option string :=
  match sweepDoubleAt fuel codeContent with
  | None => None
  | Some result =>
  match sweepAtBlock fuel builderName result with
  | None => None
  | Some result =>
  match sweepAtLine fuel builderName result 0 with
  | None => None
  | Some result =>
  match sweepStandalone fuel "#{" callAddParam builderName result with
  | None => None
  | Some result => sweepStandalone fuel "${" callAddText builderName result
  end end end end.

(** *** [generateGoCodeForSQL] *)

(** The lines of a Text node: [i] is the index of [line] and [n] the number
    of lines. *)
Definition textLineParts (builder : string) (n i : nat) (line : string)
    : list string :=
  let trimmedLine := TrimSpace line in
  if HasPrefix trimmedLine "//" || HasPrefix trimmedLine "--" then []
  else if negb (String.eqb line "") || (i <? n - 1) then
    [callAddText builder (Quote line)]
    ++ (if i <? n - 1 then [callAddText builder (Quote nl)] else [])
  else [].

Fixpoint textLinesParts (builder : string) (n i : nat) (lines : list string)
    : list string :=
  match lines with
  | [] => []
  | line :: rest =>
      textLineParts builder n i line ++ textLinesParts builder n (i + 1) rest
  end.

Definition textParts (builder text : string) : list string :=
  if String.eqb text "" then []
  else
    let lines := SplitByte LF text in
    textLinesParts builder (List.length lines) 0 lines.

(** What one node adds to [parts]. *)
Definition nodeParts (builder : string) (node : SQLNode) : option (list string) :=
  match node with
  | SQLText text => Some (textParts builder text)
  | SQLExpression SQLExprText content expr =>
      match expr with
      | Some e => Some [callAddText builder (exprToString e)]
      | None =>
          match pce_ E (TrimSpace content) builder with
          | None => None
          | Some processedCode => Some [processedCode]
          end
      end
  | SQLExpression SQLExprAtText content _ =>
      let sqlContent := TrimSpace content in
      if smartScopeMode then pssc_ E sqlContent builder
      else
        match pspp_ E sqlContent builder with
        | None => None
        | Some (processedSQL, paramCalls) =>
            Some ((if negb (String.eqb processedSQL "")
                   then [callAddText builder (Quote processedSQL)] else [])
                  ++ paramCalls)
        end
  | SQLExpression SQLExprParam content expr =>
      match expr with
      | Some e => Some [callAddParam builder (exprToString e)]
      | None =>
          Some [("if __result := func() interface{} {" ++ sep3 ++ TrimSpace content
                 ++ sep3 ++ "return nil" ++ sep2 ++ "}(); __result != nil {" ++ sep3
                 ++ callAddParam builder "__result" ++ sep2 ++ "}")%string]
      end
  | SQLExpression SQLExprDoubleAtQuery _ _ => Some []
  | SQLExpression SQLExprCode content _ =>
      match pce_ E (TrimSpace content) builder with
      | None => None
      | Some processedCode => Some [processedCode]
      end
  end.

Fixpoint nodesParts (builder : string) (nodes : list SQLNode) : option (list string) :=
  match nodes with
  | [] => Some []
  | node :: rest =>
      match nodeParts builder node with
      | None => None
      | Some ps =>
          match nodesParts builder rest with
          | None => None
          | Some qs => Some (ps ++ qs)
          end
      end
  end.

Definition builderOf (block : SQLBlock) : string := (VarName block ++ "_builder")%string.

(** The statements collected in [parts]. *)
Definition generateParts_body (block : SQLBlock) : option (list string) :=
  match nodesParts (builderOf block) (Content block) with
  | None => None
  | Some ps =>
      Some ([(builderOf block ++ " := gox.NewQueryBuilder()")%string]
            ++ ps
            ++ [(VarName block ++ " := " ++ builderOf block ++ ".Build()")%string])
  end.

Definition wrapParts (block : SQLBlock) (parts : list string) : string :=
  ("func()(__result gox.Query) {" ++ sep2 ++ Join parts sep2 ++ sep2 ++ "return "
   ++ VarName block ++ nl ++ tab ++ "}()")%string.

Definition generateGoCodeForSQL_body (block : SQLBlock) : option string :=
  option_map (wrapParts block) (generateParts_body block).

End OneLevel.

(** *** Tying the knot: the emitters at recursion depth [fuel] *)

Definition noEmitters : emitters :=
  mkEmitters (fun _ => None) (fun _ _ => None) (fun _ _ => None) (fun _ _ => None).

Fixpoint emit (fuel : nat) : emitters :=
  match fuel with
  | 0 => noEmitters
  | S fuel' =>
      let E := emit fuel' in
      mkEmitters (generateGoCodeForSQL_body E)
                 (processCodeBlockExpressions_body E fuel)
                 (processSQLPartForParams_body E)
                 (processSmartScopeContent_body E fuel)
  end.

Definition generateParts (fuel : nat) (block : SQLBlock) : option (list string) :=
  generateParts_body (emit fuel) block.

Definition generateGoCodeForSQL (fuel : nat) (block : SQLBlock) : option string :=
  gen_ (emit (S fuel)) block.

Definition processCodeBlockExpressions (fuel : nat) (codeContent builderName : string)
    : option string :=
  pce_ (emit (S fuel)) codeContent builderName.



(** *** [preprocessFile]

    The blocks are replaced from the last to the first; the counter of the
    variable names runs in that order. *)
Fixpoint replaceBlocks (fuel : nat) (revBlocks : list SQLBlockInfo) (sqlCounter : nat)
    (content : string) : option string :=
  match revBlocks with
  | [] => Some content
  | info :: rest =>
      let varName := ("__gox_sql_" ++ itoa sqlCounter)%string in
      match generateGoCodeForSQL fuel (parseSQLBlock (blockContent info) varName) with
      | None => None
      | Some replacement =>
          replaceBlocks fuel rest (sqlCounter + 1)
            (slice content 0 (blockStart info) ++ replacement
             ++ sliceFrom content (blockEnd info))
      end
  end.

End Emitter.

(** The smart-scope marker is looked for in the whole file. *)
Definition preprocessFile (ParseExpr : string -> option Expr)
    (format_Node : Expr -> option string) (Quote : string -> string)
    (fuel : nat) (src : string) : option string :=
  let smartScopeMode := Contains src "gox:smart_scope" in
  replaceBlocks ParseExpr format_Node Quote smartScopeMode fuel
    (rev (findSQLBlocks src)) 0 src.



End Parser.

(* ===================================================================== *)
(** * The generator *)
(* ===================================================================== *)

Module Generator.

(** ** Build directives *)

(** A line that holds a build-ignore directive. *)
Definition isBuildIgnore (line : string) : bool :=
  let trimmed := TrimSpace line in
  HasPrefix trimmed "//go:build ignore" || HasPrefix trimmed "// +build ignore".

(** [removeBuildIgnore] *)
Definition removeBuildIgnore (code : string) : string :=
  Join (filter (fun line => negb (isBuildIgnore line)) (SplitByte LF code)) nl.

(** ** Imports *)

(** A [map[string]string] from import paths to names: the keys are
    distinct, and their order in the list is the order in which a [range]
    over the map yields them, which Go leaves open. *)
Definition imports : Type := list (string * string).

Fixpoint mapHas (m : imports) (k : string) : bool :=
  match m with
  | [] => false
  | (k', _) :: rest => String.eqb k' k || mapHas rest k
  end.

(** [m[k] = v] *)
Fixpoint mapSet (m : imports) (k v : string) : imports :=
  match m with
  | [] => [(k, v)]
  | (k', v') :: rest =>
      if String.eqb k' k then (k', v) :: rest else (k', v') :: mapSet rest k v
  end.

Definition keys (m : imports) : list string := map fst m.

(** [parseImportBlock]: the lines that hold a path between double quotes
    and nothing else. *)
Definition parseImportLine (m : imports) (line : string) : imports :=
  let trimmed := TrimSpace line in
  if HasPrefix trimmed dquote && HasSuffix trimmed dquote
  then mapSet m (Trim trimmed dquote) ""
  else m.

Definition parseImportBlock (importBlock : string) : imports :=
  fold_left parseImportLine (SplitByte LF importBlock) [].

(** [extractExistingImports]: the loop stops at the first line with a [)]
    that follows an import line. *)
Fixpoint extractLoop (lines : list string) (inImport : bool) (importBlock : list string)
    : imports :=
  match lines with
  | [] => []
  | line :: rest =>
      let trimmed := TrimSpace line in
      if HasPrefix trimmed "import" then extractLoop rest true (importBlock ++ [line])
      else if inImport then
        if Contains line ")" then parseImportBlock (Join (importBlock ++ [line]) nl)
        else extractLoop rest inImport (importBlock ++ [line])
      else extractLoop rest inImport importBlock
  end.

Definition extractExistingImports (code : string) : imports :=
  extractLoop (SplitByte LF code) false [].

(** [MergeImports]: the existing entries, then the new ones whose path is
    not there yet. *)
Definition MergeImports (existing new : imports) : imports :=
  let result := fold_left (fun r e => mapSet r (fst e) (snd e)) existing [] in
  fold_left (fun r e => if mapHas r (fst e) then r else mapSet r (fst e) (snd e))
    new result.

(** [GenerateImportBlock]: the paths are sorted into the standard library
    and the rest; [runtime] is left out. *)
Definition isThirdParty (path : string) : bool :=
  Contains path "." && negb (HasPrefix path "golang.org/").

Definition sortPath (acc : list string * list string) (path : string)
    : list string * list string :=
  let '(stdLibs, thirdParty) := acc in
  if String.eqb path "runtime" then (stdLibs, thirdParty)
  else if isThirdParty path then (stdLibs, thirdParty ++ [path])
  else (stdLibs ++ [path], thirdParty).

Definition importLine (path : string) : string :=
  (tab ++ dquote ++ path ++ dquote ++ nl)%string.

Definition GenerateImportBlock (m : imports) : string :=
  if List.length m =? 0 then ""
  else
    let paths := keys m in
    let '(stdLibs, thirdParty) := fold_left sortPath paths ([], []) in
    let blank :=
      if (0 <? List.length thirdParty) && (0 <? List.length stdLibs) then nl else "" in
    ("import (" ++ nl
     ++ String.concat "" (map importLine stdLibs)
     ++ blank
     ++ String.concat "" (map importLine thirdParty)
     ++ ")" ++ nl ++ nl)%string.

(** [replaceOrAddImports]: the state of the loop over the lines. *)
Record roaState := mkRoa {
  roaResult : list string;
  roaInImport : bool;
  roaPackageFound : bool;
  roaImportReplaced : bool
}.

Definition roaStep (importBlock : string) (st : roaState) (line : string) : roaState :=
  let trimmed := TrimSpace line in
  if HasPrefix trimmed "import" then
    mkRoa (roaResult st) true (roaPackageFound st) (roaImportReplaced st)
  else if roaInImport st then
    if Contains line ")" then
      if negb (roaImportReplaced st)
      then mkRoa (roaResult st ++ [importBlock]) false (roaPackageFound st) true
      else mkRoa (roaResult st) false (roaPackageFound st) (roaImportReplaced st)
    else st
  else if HasPrefix trimmed "package " then
    if negb (roaPackageFound st) then
      if negb (roaImportReplaced st)
      then mkRoa (roaResult st ++ [line] ++ [""] ++ [importBlock]) (roaInImport st) true true
      else mkRoa (roaResult st ++ [line]) (roaInImport st) true (roaImportReplaced st)
    else st
  else mkRoa (roaResult st ++ [line]) (roaInImport st) (roaPackageFound st)
         (roaImportReplaced st).

Definition replaceOrAddImports (code importBlock : string) : string :=
  Join (roaResult (fold_left (roaStep importBlock) (SplitByte LF code)
                     (mkRoa [] false false false))) nl.

Section Generate.

(** [ImportAnalyzer.AnalyzeImports], which reads the code with Go's parser,
    and [format.Source]. *)
Variable AnalyzeImports : string -> imports.
Variable format_Source : string -> option string.

(** [addNecessaryImports] *)
Definition addNecessaryImports (code : string) : string :=
  let neededImports := AnalyzeImports code in
  if List.length neededImports =? 0 then code
  else
    let existingImports := extractExistingImports code in
    let allImports := MergeImports existingImports neededImports in
    replaceOrAddImports code (GenerateImportBlock allImports).

(** [GenerateFile] *)
Definition GenerateFile (generatedCode : string) : option string :=
  format_Source (addNecessaryImports (removeBuildIgnore generatedCode)).

End Generate.

End Generator.

(* ===================================================================== *)
(** * The run-time library *)
(* ===================================================================== *)

Module Gox.

(** A value of type [interface{}]: the nil interface, a string, a [Query],
    a slice, or a value of any other kind, which stands here by its [%v]
    text. *)
Inductive value :=
| VNil
| VString (s : string)
| VQuery (sql : string) (args : list value)
| VSlice (elems : list value)
| VOther (text : string).

Record Query := mkQuery {
  sql : string;
  args : list value
}.

Record QueryBuilder := mkQueryBuilder {
  qbParts : string;
  qbArgs : list value
}.

Definition NewQueryBuilder : QueryBuilder := mkQueryBuilder "" [].

(** [fmt.Sprintf("%v", v)], for the values [AddText] formats: a value of
    another kind gives its text, a slice its elements between brackets. *)
Fixpoint Sprint (v : value) : string :=
  match v with
  | VNil => "<nil>"
  | VString s => s
  | VQuery s a => "{" ++ s ++ " [" ++ Join (map Sprint a) " " ++ "]}"
  | VSlice elems => "[" ++ Join (map Sprint elems) " " ++ "]"
  | VOther text => text
  end.

(** [AddText] *)
Definition AddText (qb : QueryBuilder) (text : value) : QueryBuilder :=
  match text with
  | VString s => mkQueryBuilder (qbParts qb ++ s) (qbArgs qb)
  | VQuery s a => mkQueryBuilder (qbParts qb ++ s) (qbArgs qb ++ a)
  | VNil => qb
  | _ => mkQueryBuilder (qbParts qb ++ Sprint text) (qbArgs qb)
  end.

(** [reflect.TypeOf(arg)] is nil for the nil interface, and [Kind] on it
    panics; for the other values only "is it a slice" matters. *)
Inductive Kind := KSlice | KOther.

Definition TypeOf_Kind (arg : value) : option Kind :=
  match arg with
  | VNil => None
  | VSlice _ => Some KSlice
  | _ => Some KOther
  end.

(** The text built for a slice of [n] elements. *)
Fixpoint placeholders_loop (n i : nat) (sb : string) : string :=
  match n with
  | 0 => sb
  | S n' =>
      let sb := if 0 <? i then (sb ++ ",")%string else sb in
      placeholders_loop n' (i + 1) (sb ++ "?")
  end.

(** [AddParam]; [None] is the panic. *)
Definition AddParam (qb : QueryBuilder) (arg : value) : option QueryBuilder :=
  match TypeOf_Kind arg with
  | None => None
  | Some KSlice =>
      match arg with
      | VSlice elems =>
          Some (mkQueryBuilder
                  (qbParts qb ++ placeholders_loop (List.length elems) 0 "")
                  (qbArgs qb ++ elems))
      | _ => None
      end
  | Some KOther => Some (mkQueryBuilder (qbParts qb ++ "?") (qbArgs qb ++ [arg]))
  end.

(** [Build] *)
Definition Build (qb : QueryBuilder) : Query := mkQuery (qbParts qb) (qbArgs qb).

End Gox.

(* ===================================================================== *)
(** * The driver *)
(* ===================================================================== *)

Module Compiler.

Record Compiler := mkCompiler {
  Incremental : bool;
  SingleFile : string;
  DebugMode : bool;
  RemoveGenerated : string;
  SrcPath : string;
  DestPath : string
}.

(** A file: its bytes and its modification time. *)
Record file := mkFile {
  fileData : string;
  modTime : nat
}.

(** The file system: the files by path, and the clock. *)
Record FS := mkFS {
  files : list (string * file);
  clock : nat
}.

Fixpoint lookup (path : string) (fs : list (string * file)) : option file :=
  match fs with
  | [] => None
  | (p, f) :: rest => if String.eqb p path then Some f else lookup path rest
  end.

Fixpoint remove (path : string) (fs : list (string * file)) : list (string * file) :=
  match fs with
  | [] => []
  | (p, f) :: rest =>
      if String.eqb p path then remove path rest else (p, f) :: remove path rest
  end.

(** [os.WriteFile]: the file at [path] is created or replaced. *)
Definition WriteFile (fs : FS) (path data : string) : FS :=
  mkFS ((path, mkFile data (clock fs)) :: remove path (files fs)) (S (clock fs)).

(** [shouldSkipFile]: the target exists and is not older than the source;
    [None] is the error of a missing source. *)
Definition shouldSkipFile (fs : FS) (srcPath destPath : string) : option bool :=
  match lookup srcPath (files fs) with
  | None => None
  | Some srcInfo =>
      match lookup destPath (files fs) with
      | None => Some false
      | Some destInfo => Some (modTime srcInfo <=? modTime destInfo)
      end
  end.

Inductive result :=
| Ok (fs : FS)
| Err (msg : string).

(** [addBuildIgnore]: the scan up to the package line gives whether a
    build-ignore directive was seen and the index of the package line. *)
Fixpoint scanPackage (lines : list string) (i : nat) (hasIgnore : bool)
    : bool * option nat :=
  match lines with
  | [] => (hasIgnore, None)
  | line :: rest =>
      let trimmed := TrimSpace line in
      let hasIgnore :=
        if HasPrefix trimmed "//go:build ignore" || HasPrefix trimmed "// +build ignore"
        then true else hasIgnore in
      if HasPrefix trimmed "package " then (hasIgnore, Some i)
      else scanPackage rest (i + 1) hasIgnore
  end.

Definition addBuildIgnore (fs : FS) (filePath content : string) : result :=
  let lines := SplitByte LF content in
  let '(hasIgnore, packageIndex) := scanPackage lines 0 false in
  if hasIgnore then Ok fs
  else
    match packageIndex with
    | None => Err "package"
    | Some packageIndex =>
        let newLines :=
          firstn packageIndex lines
          ++ ["//go:build ignore"; "// +build ignore"; ""]
          ++ skipn packageIndex lines in
        Ok (WriteFile fs filePath (Join newLines nl))
    end.

Section Driver.

(** [filepath.IsAbs], [filepath.Join] and [os.Getwd]; [translate] is the
    parser followed by the generator, [None] when either fails. *)
Variable IsAbs : string -> bool.
Variable PathJoin : string -> string -> string.
Variable cwd : string.
Variable translate : string -> string -> option string.

(** The path [processGoxFile] hands to [os.WriteFile]. *)
Definition writePath (c : Compiler) (goxPath : string) : string :=
  let goPath := (TrimSuffix goxPath ".gox.go" ++ "_gen.go")%string in
  let goPath := DestPath c in
  if negb (IsAbs goPath) then PathJoin cwd goPath else goPath.

(** [processGoxFile] *)
Definition processGoxFile (c : Compiler) (fs : FS) (goxPath : string)
    (incremental : bool) : result :=
  let goPath := (TrimSuffix goxPath ".gox.go" ++ "_gen.go")%string in
  let skip :=
    if incremental then
      match shouldSkipFile fs goxPath goPath with
      | Some true => true
      | _ => false
      end
    else false in
  if skip then Ok fs
  else
    match lookup goxPath (files fs) with
    | None => Err "read"
    | Some f =>
        match translate goxPath (fileData f) with
        | None => Err "translate"
        | Some generated => Ok (WriteFile fs (writePath c goxPath) generated)
        end
    end.

(** [processDirectory] hands every [.gox.go] file of the walk to
    [processGoxFile]; here one file after the other. *)
Fixpoint processFiles (c : Compiler) (fs : FS) (paths : list string)
    (incremental : bool) : result :=
  match paths with
  | [] => Ok fs
  | path :: rest =>
      if HasSuffix path ".gox.go" then
        match processGoxFile c fs path incremental with
        | Ok fs' => processFiles c fs' rest incremental
        | Err msg => Err msg
        end
      else processFiles c fs rest incremental
  end.

End Driver.

End Compiler.

(* ===================================================================== *)
(** * An instance of the emitter's parameters, for the examples *)
(* ===================================================================== *)

Module Sample.

Import Parser.

(** [strconv.Quote] on ASCII text: the double quotes around it, and the
    escapes of the double quote, the backslash, the line feed, the tab and
    the carriage return. *)
Fixpoint escape (s : string) : string :=
  match s with
  | EmptyString => EmptyString
  | String c r =>
      if isByte c DQUOTE then String "\" (String DQUOTE (escape r))
      else if isByte c "\" then String "\" (String "\" (escape r))
      else if isByte c LF then String "\" (String "n" (escape r))
      else if isByte c TAB then String "\" (String "t" (escape r))
      else if isByte c CR then String "\" (String "r" (escape r))
      else String c (escape r)
  end.

Definition quoteASCII (s : string) : string :=
  String DQUOTE (escape s ++ String DQUOTE EmptyString).

(** [parser.ParseExpr] on identifiers. *)
Fixpoint allIdent (s : string) : bool :=
  match s with
  | EmptyString => true
  | String c r => isIdentByte c && allIdent r
  end.

Definition parseIdent (s : string) : option Expr :=
  match s with
  | EmptyString => None
  | String c _ =>
      if allIdent s && negb ((48 <=? nat_of_ascii c) && (nat_of_ascii c <=? 57))
      then Some (Ident s) else None
  end.

Definition noFormat (e : Expr) : option string := None.

End Sample.

(* ===================================================================== *)
(** * Notions used in the statements *)
(* ===================================================================== *)

Module Notions.

Import Parser.

(** ** Tests on bytes *)

(** Every byte of [s] passes the test [p]. *)
Fixpoint allBytes (p : ascii -> bool) (s : string) : bool :=
  match s with
  | EmptyString => true
  | String c r => p c && allBytes p r
  end.

(** The walk of [findMatchingBrace] over bytes that are neither braces nor
    quotes. *)
Definition noBraceNoQuote (c : ascii) : bool :=
  negb (isByte c "{") && negb (isByte c "}") && negb (isQuote c).


(** A byte of ASCII: on its own it is a rune of UTF-8. *)
Definition isASCII (c : ascii) : bool := nat_of_ascii c <? 128.


Definition notDQuote (c : ascii) : bool := negb (isByte c DQUOTE).

Definition notBrace (c : ascii) : bool := negb (isByte c "{").

(** ** The statements around the calls *)

Definition newBuilder (v : string) : string :=
  ((v ++ "_builder") ++ " := gox.NewQueryBuilder()")%string.
Definition buildIt (v : string) : string :=
  (v ++ " := " ++ (v ++ "_builder") ++ ".Build()")%string.

(** ** Templates of text and parameter sigils *)

Definition plainText (t : string) : bool := allBytes (fun c => negb (isSpecial c)) t.
Definition simpleExpr (e : string) : bool := allBytes noBraceNoQuote e.

(** A parameter sigil with its source text [e], the expression [x] it
    parses to, and the text [t] that follows it. *)
Definition sigil : Type := string * Expr * string.

(** The body [t0 #{e1} t1 #{e2} t2 ...]. *)
Fixpoint paramBody (t0 : string) (sigils : list sigil) : string :=
  match sigils with
  | [] => t0
  | (e, _, t) :: rest => (t0 ++ "#{" ++ e ++ "}" ++ paramBody t rest)%string
  end.

Definition textToken (pos : nat) (t : string) : list SQLToken :=
  if negb (String.eqb (TrimSpace t) "")
  then [mkToken SQLTokenText t pos (pos + String.length t)] else [].

Fixpoint expectedTokens (pos : nat) (t0 : string) (sigils : list sigil)
    : list SQLToken :=
  match sigils with
  | [] => textToken pos t0
  | (e, _, t) :: rest =>
      let p := pos + String.length t0 in
      textToken pos t0
      ++ mkToken SQLTokenParam e p (p + String.length e + 3)
         :: expectedTokens (p + String.length e + 3) t rest
  end.

(** The text that is left when the loop of the tokenizer ends. *)
Definition finish (content : string) (r : nat * list SQLToken) : list SQLToken :=
  let '(textStart, tokens) := r in
  if textStart <? String.length content then
    let text := sliceFrom content textStart in
    if negb (String.eqb (TrimSpace text) "")
    then tokens ++ [mkToken SQLTokenText text textStart (String.length content)]
    else tokens
  else tokens.

Definition goodSigil (ParseExpr : string -> option Expr) (s : sigil) : Prop :=
  let '(e, x, t) := s in
  simpleExpr e = true /\ tryParseExpr ParseExpr e = Some x /\ plainText t = true.

Definition sigilExpr (s : sigil) : Expr := snd (fst s).

(** ** The lines of a text *)

(** The texts handed to [AddText] for the lines of a Text node. *)
Definition lineFrags (n i : nat) (line : string) : list string :=
  let trimmedLine := TrimSpace line in
  if HasPrefix trimmedLine "//" || HasPrefix trimmedLine "--" then []
  else if negb (String.eqb line "") || (i <? n - 1) then
    [line] ++ (if i <? n - 1 then [nl] else [])
  else [].

Fixpoint linesFrags (n i : nat) (lines : list string) : list string :=
  match lines with
  | [] => []
  | line :: rest => lineFrags n i line ++ linesFrags n (i + 1) rest
  end.

Definition textFrags (text : string) : list string :=
  if String.eqb text "" then []
  else
    let lines := SplitByte LF text in
    linesFrags (List.length lines) 0 lines.

Definition isCommentLine (line : string) : bool :=
  let trimmed := TrimSpace line in
  HasPrefix trimmed "//" || HasPrefix trimmed "--".

(** The body with every comment line removed. *)
Definition dropCommentLines (body : string) : string :=
  Join (filter (fun line => negb (isCommentLine line)) (SplitByte LF body)) nl.

Definition lastLine (body : string) : string := last (SplitByte LF body) "".

(** The texts of the Text tokens, joined. *)
Definition isTextToken (t : SQLToken) : bool :=
  match tokType t with SQLTokenText => true | _ => false end.

Definition textOfTokens (tokens : list SQLToken) : string :=
  String.concat "" (map tokContent (filter isTextToken tokens)).

(** ** The calls written and their run *)

(** The builder calls a template of text and parameters comes to: the text
    of an [AddText], or the expression of an [AddParam]. *)
Inductive op :=
| OpText (s : string)
| OpParam (x : Expr).

Definition render (format_Node : Expr -> option string) (Quote : string -> string)
    (builder : string) (o : op) : string :=
  match o with
  | OpText s => callAddText builder (Quote s)
  | OpParam x => callAddParam builder (exprToString format_Node x)
  end.

Fixpoint paramsOf (ops : list op) : list Expr :=
  match ops with
  | [] => []
  | OpText _ :: rest => paramsOf rest
  | OpParam x :: rest => x :: paramsOf rest
  end.

(** Running the calls on a builder, the expressions taking their values
    from [env]; [None] is the panic of [AddParam]. *)
Fixpoint run (env : Expr -> Gox.value) (ops : list op) (qb : Gox.QueryBuilder)
    : option Gox.QueryBuilder :=
  match ops with
  | [] => Some qb
  | OpText s :: rest => run env rest (Gox.AddText qb (Gox.VString s))
  | OpParam x :: rest =>
      match Gox.AddParam qb (env x) with
      | None => None
      | Some qb' => run env rest qb'
      end
  end.

(** What [AddParam] appends to the args for a value. *)
Definition spread (v : Gox.value) : list Gox.value :=
  match v with
  | Gox.VSlice elems => elems
  | _ => [v]
  end.

Definition textOps (t : string) : list op :=
  if negb (String.eqb (TrimSpace t) "") then map OpText (textFrags t) else [].

Fixpoint bodyOps (t0 : string) (sigils : list sigil) : list op :=
  match sigils with
  | [] => textOps t0
  | (_, x, t) :: rest => textOps t0 ++ OpParam x :: bodyOps t rest
  end.

Fixpoint commaMarks (n : nat) : string :=
  match n with
  | 0 => EmptyString
  | S n' => ("," ++ "?" ++ commaMarks n')%string
  end.

(** ** Call sites *)






(** ** Smart scope *)

(** The parenthesis [findControlStructureParen] returns is a [(] that does
    not follow an identifier byte. *)
Definition controlParenAt (content : string) (p : nat) : Prop :=
  p < String.length content
  /\ byteAt content p = "("%char
  /\ isFollowingIdentifier content p = false.

(** An [@] that begins a line shorthand: not the last byte, and neither
    [@{] nor [@@{]. *)
Definition atLineStart (content : string) (i : nat) : bool :=
  isByte (byteAt content i) "@"
  && (i + 1 <? String.length content)
  && negb (isByte (byteAt content (i + 1)) "{")
  && negb ((i + 2 <? String.length content) && isByte (byteAt content (i + 1)) "@"
           && isByte (byteAt content (i + 2)) "{").

(** The rest of the line after the [@]. *)
Definition lineTail (content : string) (i : nat) : string :=
  slice content (i + 1) (lineEndFrom content (i + 1)).

(** Where a promoted [@] line ends: the parenthesis picked on the line
    tail closes, in the text after the [@], at or after the end of the
    tail; the end is the end of the line of the closing parenthesis. *)
Definition smartScopeEnd (content : string) (i : nat) : option nat :=
  match findControlStructureParen (lineTail content i) with
  | None => None
  | Some p =>
      match findMatchingParen (sliceFrom content (i + 1)) (p + 1) with
      | None => None
      | Some (_, q) =>
          if String.length (lineTail content i) <=? q
          then Some (lineEndFrom content (i + 1 + q + 1))
          else None
      end
  end.

Definition atLineTokens (content : string) (i : nat) : list SQLToken :=
  let lineEnd := lineEndFrom content (i + 1) in
  (if negb (String.eqb (TrimSpace (lineTail content i)) "")
   then [mkToken SQLTokenAtLine (TrimSpace (lineTail content i)) i lineEnd] else [])
  ++ [mkToken SQLTokenText nl lineEnd lineEnd].

Definition promotedTokens (content : string) (i e : nat) : list SQLToken :=
  [mkToken SQLTokenAtBlock (TrimSpace (slice content (i + 1) e)) i e;
   mkToken SQLTokenText nl e e].

(** ** What the loop of the tokenizer keeps *)

(** Every Text token is a run of the body, as it stands there and not all
    white space, or the line feed put after an [@] line. *)
Definition verbatimText (content : string) (tok : SQLToken) : Prop :=
  tokType tok = SQLTokenText ->
  (tokContent tok = nl /\ tokStart tok = tokEnd tok)
  \/ (tokStart tok < tokEnd tok
      /\ tokContent tok = slice content (tokStart tok) (tokEnd tok)
      /\ TrimSpace (tokContent tok) <> "").

Definition flowTokens (r : flow) : list SQLToken :=
  match r with
  | Continue _ _ tokens => tokens
  | Fall tokens => tokens
  end.

(** A test of the loop body moves the cursor forward when it does not fall
    through. *)
Definition advances (i : nat) (r : flow) : Prop :=
  match r with
  | Continue i' _ _ => i < i'
  | Fall _ => True
  end.

Definition moves (i : nat) (r : flow) : Prop :=
  match r with
  | Continue i' _ _ => i < i'
  | Fall _ => False
  end.

(** ** Call sites in a file *)

(** The blocks lie one after the other, from [from] on, within the first
    [len] bytes. *)
Fixpoint blocksInOrder (len from : nat) (blocks : list SQLBlockInfo) : bool :=
  match blocks with
  | [] => true
  | b :: rest =>
      (from <=? blockStart b) && (blockStart b <? blockEnd b) && (blockEnd b <=? len)
      && blocksInOrder len (blockEnd b) rest
  end.

(** A block of [content]: it begins with the call prefix, ends with a
    closing parenthesis, and its body is a run of the text between them. *)
Definition callSite (content : string) (b : SQLBlockInfo) : Prop :=
  slice content (blockStart b) (blockStart b + 8) = "gox.Sql("
  /\ blockEnd b <= String.length content
  /\ byteAt content (blockEnd b - 1) = ")"%char
  /\ exists a e,
       blockStart b + 8 < a /\ a <= e /\ e + 1 < blockEnd b
       /\ blockContent b = slice content a e.

(** The text with the blocks replaced from left to right by the texts of
    [repl]; [from] is the position the copy has reached. *)
Fixpoint spliced (content : string) (from : nat) (blocks : list SQLBlockInfo)
    (repl : list string) : string :=
  match blocks, repl with
  | b :: bs, r :: rs =>
      (slice content from (blockStart b) ++ r ++ spliced content (blockEnd b) bs rs)%string
  | _, _ => sliceFrom content from
  end.

(** The code written for a call site: the emitter on the nodes of its body,
    under the name of its variable. *)
Definition codeFor (ParseExpr : string -> option Expr)
    (format_Node : Expr -> option string) (Quote : string -> string)
    (smart : bool) (fuel : nat) (body varName : string) : option string :=
  generateGoCodeForSQL ParseExpr format_Node Quote smart fuel
    (parseSQLBlock ParseExpr smart body varName).

(** The code written for each block, the variable of a block being numbered
    by the blocks that follow it; [gen] is the emitter on the body and the
    name. *)
Fixpoint replacements (gen : string -> string -> option string) (counter : nat)
    (blocks : list SQLBlockInfo) : option (list string) :=
  match blocks with
  | [] => Some []
  | b :: rest =>
      match gen (blockContent b) ("__gox_sql_" ++ itoa (counter + List.length rest))%string,
            replacements gen counter rest with
      | Some r, Some rs => Some (r :: rs)
      | _, _ => None
      end
  end.

(** ** The tokens of a body *)

(** The tokens lie within the first [len] bytes, none ends before it
    starts, and none starts before the one before it; [from] is the start of
    the token before the first. *)
Fixpoint tokensInOrder (len from : nat) (tokens : list SQLToken) : bool :=
  match tokens with
  | [] => true
  | t :: rest =>
      (from <=? tokStart t) && (tokStart t <=? tokEnd t) && (tokEnd t <=? len)
      && tokensInOrder len (tokStart t) rest
  end.

(** The bytes of [opener] stand in [content] from [pos] on. *)
Fixpoint opensWith (content : string) (pos : nat) (opener : string) : bool :=
  match opener with
  | EmptyString => true
  | String c rest =>
      (pos <? String.length content) && isByte (byteAt content pos) c
      && opensWith content (pos + 1) rest
  end.

(** A token for a sigil in braces: it runs from the opener to a closing
    brace, and its content is the text between the two. *)
Definition braced (content opener : string) (tok : SQLToken) : Prop :=
  opensWith content (tokStart tok) opener = true
  /\ tokStart tok + String.length opener < tokEnd tok
  /\ tokEnd tok <= String.length content
  /\ byteAt content (tokEnd tok - 1) = "}"%char
  /\ tokContent tok
     = slice content (tokStart tok + String.length opener) (tokEnd tok - 1).

(** A token for an [@] line, or for the lines of a promoted one: it starts
    at the [@], and its content is the text after the [@], trimmed. *)
Definition atRun (content : string) (tok : SQLToken) : Prop :=
  byteAt content (tokStart tok) = "@"%char
  /\ tokStart tok < tokEnd tok
  /\ tokEnd tok <= String.length content
  /\ tokContent tok = TrimSpace (slice content (tokStart tok + 1) (tokEnd tok)).

(** What a token says of the body, by its type. *)
Definition tokenShape (content : string) (tok : SQLToken) : Prop :=
  match tokType tok with
  | SQLTokenText => True
  | SQLTokenParam => braced content "#{" tok
  | SQLTokenTextExpr => braced content "${" tok
  | SQLTokenAtBlock => braced content "@{" tok \/ atRun content tok
  | SQLTokenAtLine => atRun content tok /\ tokContent tok <> ""
  | SQLTokenCodeBlock => braced content "{" tok
  | SQLTokenDoubleAtBlock => braced content "@@{" tok
  end.

(** What the loop of the tokenizer keeps of the positions: the tokens are
    in order, and none starts after [hi]. *)
Definition positioned (len hi : nat) (toks : list SQLToken) : Prop :=
  tokensInOrder len 0 toks = true /\ Forall (fun t => tokStart t <= hi) toks.

Definition flowPositioned (len ts : nat) (r : flow) : Prop :=
  match r with
  | Continue i' ts' toks => ts' <= i' /\ i' <= len /\ positioned len ts' toks
  | Fall toks => positioned len ts toks
  end.

(** ** Brackets *)

(** The depth of nesting after the bytes of [s], from [depth] on: an
    opening byte adds one, a closing byte takes one; [None] when a closing
    byte finds the depth at zero. *)
Fixpoint depthAfter (op cl : ascii) (depth : nat) (s : string) : option nat :=
  match s with
  | EmptyString => Some depth
  | String c r =>
      if isByte c op then depthAfter op cl (S depth) r
      else if isByte c cl then
        match depth with
        | 0 => None
        | S d => depthAfter op cl d r
        end
      else depthAfter op cl depth r
  end.

Definition notQuote (c : ascii) : bool := negb (isQuote c).

(** ** Placeholders *)

Fixpoint countByte (c : ascii) (s : string) : nat :=
  match s with
  | EmptyString => 0
  | String d r => (if isByte d c then 1 else 0) + countByte c r
  end.

(** The text of an [AddText] call holds no [?]. *)
Definition noMark (o : op) : bool :=
  match o with
  | OpText s => countByte "?" s =? 0
  | OpParam _ => true
  end.

(** The builder [qb] followed by what the builder [r] holds. *)
Definition extend (qb r : Gox.QueryBuilder) : Gox.QueryBuilder :=
  Gox.mkQueryBuilder (Gox.qbParts qb ++ Gox.qbParts r) (Gox.qbArgs qb ++ Gox.qbArgs r).

(** ** The lines of a file *)

Definition notLF (c : ascii) : bool := negb (isByte c LF).

(** A line holds no line feed. *)
Definition oneLine (line : string) : bool := allBytes notLF line.

Definition isImportLine (line : string) : bool := HasPrefix (TrimSpace line) "import".

Definition isPackageLine (line : string) : bool := HasPrefix (TrimSpace line) "package ".

(** A line that is neither an import line nor a package line. *)
Definition plainLine (line : string) : bool :=
  negb (isImportLine line) && negb (isPackageLine line).

(** The lines after an import line up to the line that ends the import
    block: the first line with a [)] that is not itself an import line. *)
Fixpoint closesImport (rest : list string) : bool :=
  match rest with
  | [] => false
  | [line] => negb (isImportLine line) && Contains line ")"
  | line :: more =>
      (isImportLine line || negb (Contains line ")")) && closesImport more
  end.

(** The lines of an import block, or no line at all. *)
Definition importBlockLines (old : list string) : bool :=
  match old with
  | [] => true
  | line :: rest => isImportLine line && closesImport rest
  end.

(** An import path that can stand on a line between double quotes. *)
Definition plainPath (path : string) : bool :=
  allBytes (fun c => notLF c && notDQuote c) path.

(** A line before the package line that holds no build-ignore directive. *)
Definition headerLine (line : string) : bool :=
  negb (Generator.isBuildIgnore line) && negb (isPackageLine line).

Definition notIgnoreLine (line : string) : bool := negb (Generator.isBuildIgnore line).

Definition notGoxPath (path : string) : bool := negb (HasSuffix path ".gox.go").

(** ** Host code *)

(** Host code that holds none of the bytes [@], [#] and [$]. *)
Definition sigilFree (s : string) : bool :=
  allBytes (fun c => negb (isByte c "@") && negb (isByte c "#") && negb (isByte c "$")) s.


(** ** The statements written *)

(** The two calls, as they stand in the code written. *)
Definition addTextStmt (builder arg : string) : string :=
  (builder ++ ".AddText(" ++ arg ++ ")")%string.

Definition addParamStmt (builder arg : string) : string :=
  (builder ++ ".AddParam(" ++ arg ++ ")")%string.

(** An expression made of names, literals and selections ([x], [1],
    [a.b]), and its text in Go. *)
Fixpoint plainExpr (x : Expr) : bool :=
  match x with
  | Ident _ => true
  | BasicLit _ => true
  | SelectorExpr y _ => plainExpr y
  | _ => false
  end.

Fixpoint exprText (x : Expr) : string :=
  match x with
  | Ident name => name
  | BasicLit value => value
  | SelectorExpr y sel => (exprText y ++ "." ++ sel)%string
  | _ => EmptyString
  end.

(** The statement written for a call. *)
Definition stmt (Quote : string -> string) (builder : string) (o : op) : string :=
  match o with
  | OpText s => addTextStmt builder (Quote s)
  | OpParam x => addParamStmt builder (exprText x)
  end.

(** The texts of the [AddText] calls among the calls. *)
Fixpoint textsOf (ops : list op) : list string :=
  match ops with
  | [] => []
  | OpText s :: rest => s :: textsOf rest
  | OpParam _ :: rest => textsOf rest
  end.

Definition sigilText (s : sigil) : string := snd s.

Definition plainSigil (s : sigil) : bool := plainExpr (sigilExpr s).

Definition isBlankText (t : string) : bool := String.eqb (TrimSpace t) "".

(** What is left of a text of the body: nothing of a text that is all white
    space, otherwise the text without its comment lines. *)
Definition keptText (t : string) : string :=
  if isBlankText t then EmptyString else dropCommentLines t.

(** A text that is all white space, or whose last line is no comment
    line. *)
Definition endsInCode (t : string) : bool :=
  isBlankText t || negb (isCommentLine (lastLine t)).

(** Two values of the parameters are nil. *)
Definition isNil (v : Gox.value) : bool :=
  match v with Gox.VNil => true | _ => false end.

(** ** Host code around the calls *)







(** ** Nested queries in host code *)

Definition indent2 : string := (nl ++ tab ++ tab)%string.

(** The function written for a query of its own: it holds the statements
    [parts] and returns the variable [v]. *)
Definition queryFunc (v : string) (parts : list string) : string :=
  ("func()(__result gox.Query) {" ++ indent2 ++ Join parts indent2 ++ indent2
   ++ "return " ++ v ++ nl ++ tab ++ "}()")%string.

(** A text that holds no sigil byte, no brace and no quote. *)
Definition calmText (t : string) : bool :=
  allBytes (fun c => negb (isSpecial c) && noBraceNoQuote c) t.

(** A parameter sigil whose expression is a name, a literal or a selection
    that holds none of [@], [#], [$], followed by such a text. *)
Definition calmSigil (s : sigil) : bool :=
  plainExpr (sigilExpr s) && sigilFree (exprText (sigilExpr s)) && calmText (sigilText s).

(** ** The tail of an [@] line *)

Definition lineByte (c : ascii) : bool := negb (isByte c LF) && negb (isByte c CR).

(** A byte that is no line terminator, no quote and no opening brace. *)
Definition tailByte (c : ascii) : bool :=
  lineByte c && negb (isQuote c) && negb (isByte c "{").

Definition noParen (c : ascii) : bool := negb (isByte c "(") && negb (isByte c ")").

Definition notOpenParen (c : ascii) : bool := negb (isByte c "(").

(** Every [(] of [s] follows a byte that is no identifier byte; [prev] is
    the byte before [s]. *)
Fixpoint controlOnly (prev : ascii) (s : string) : bool :=
  match s with
  | EmptyString => true
  | String c r => (negb (isByte c "(") || negb (isIdentByte prev)) && controlOnly c r
  end.

(** Every [(] of [s] follows an identifier byte. *)
Fixpoint callsOnly (prev : ascii) (s : string) : bool :=
  match s with
  | EmptyString => true
  | String c r => (negb (isByte c "(") || isIdentByte prev) && callsOnly c r
  end.

(** A text that is empty or begins with a line terminator. *)
Definition startsLine (s : string) : bool :=
  match s with
  | EmptyString => true
  | String c _ => isByte c LF || isByte c CR
  end.

(** ** The turns of the two scanning loops *)

(** One turn of the loop of [tokenizeSQLContent], on its state: the
    position, the start of the pending text and the tokens. *)
Definition tokenizeTurn (smart : bool) (content : string)
    (st : nat * nat * list SQLToken) : nat * nat * list SQLToken :=
  let '(i, textStart, tokens) := st in
  match tokenizeStep smart content i textStart tokens with
  | Continue i' textStart' tokens' => (i', textStart', tokens')
  | Fall tokens' => (i + 1, textStart, tokens')
  end.

(** One turn of the loop of [findSQLBlocks], on its state: the position
    and the blocks. *)
Definition findTurn (content : string) (st : nat * list SQLBlockInfo)
    : nat * list SQLBlockInfo :=
  let '(i, blocks) := st in
  if isByte (byteAt content i) DQUOTE
  then (skipStringLiteral content i DQUOTE, blocks)
  else
    match callPrefixAt content i with
    | Some funcLen =>
        match callAt content i funcLen with
        | inl info => (blockEnd info, blocks ++ [info])
        | inr i' => (i', blocks)
        end
    | None => (i + 1, blocks)
    end.

(** The loop [for i < len] with the turn [turn] leaves after [n] turns:
    the position of the state is below [len] before each of them, and not
    after the last. *)
Definition exitsAfter {A : Type} (turn : A -> A) (pos : A -> nat) (len : nat)
    (start : A) (n : nat) : Prop :=
  Forall (fun k => pos (Nat.iter k turn start) < len) (seq 0 n)
  /\ len <= pos (Nat.iter n turn start).

(** ** Inputs of the examples *)

Definition quotedBrace : string :=
  ("#{f(" ++ String DQUOTE "}" ++ String DQUOTE ")}")%string.

Definition nestedScenario : string := "SELECT (@@{ SELECT 1 }) FROM t".

Definition twoLineCondition : string := ("@if (a ||" ++ nl ++ "       b) { X }")%string.

Definition twoParens : string := ("@if (a || (b)" ++ nl ++ "   c) { X }")%string.

Definition sampleSigils : list sigil :=
  [("a", Ident "a", " AND b IN ("); ("bs", Ident "bs", ") AND c = "); ("c", Ident "c", "")].

Definition sampleEnv (x : Expr) : Gox.value :=
  match x with
  | Ident name =>
      if String.eqb name "bs" then Gox.VSlice [Gox.VOther "2"; Gox.VOther "3"]
      else Gox.VString name
  | _ => Gox.VOther "0"
  end.

Definition unixIsAbs (path : string) : bool := HasPrefix path "/".
Definition unixJoin (dir path : string) : string := (dir ++ "/" ++ path)%string.
Definition markGenerated (filename data : string) : option string :=
  Some ("// generated from " ++ data)%string.

Definition twoSources : Compiler.FS :=
  Compiler.mkFS [("/w/a.gox.go", Compiler.mkFile "A" 0);
                 ("/w/b.gox.go", Compiler.mkFile "B" 0)] 1.

Definition toOut : Compiler.Compiler :=
  Compiler.mkCompiler false "" false "" "/w" "out_gen.go".

Definition inListOps : list op :=
  [OpText "a IN ("; OpParam (Ident "bs"); OpText ") AND c = "; OpParam (Ident "c")].

Definition toOwnTarget : Compiler.Compiler :=
  Compiler.mkCompiler true "" false "" "/w" "/w/a_gen.go".


(** A rune literal that holds a double quote, followed by a call. *)
Definition quoteInRune : string :=
  ("c := '" ++ dquote ++ "'; q := gox.Sql(`SELECT 1`)")%string.

End Notions.

(* ===================================================================== *)
(** * Facts on byte strings *)
(* ===================================================================== *)

Module StrFacts.

Import Notions.

Lemma append_assoc : forall a b c : string, ((a ++ b) ++ c = a ++ (b ++ c))%string.
Proof. induction a; simpl; intros; [reflexivity | rewrite IHa; reflexivity]. Qed.

Lemma append_nil_r : forall a : string, (a ++ "" = a)%string.
Proof. induction a; simpl; [reflexivity | rewrite IHa; reflexivity]. Qed.

Lemma length_append :
  forall a b : string, String.length (a ++ b) = String.length a + String.length b.
Proof. induction a; simpl; intros; [reflexivity | rewrite IHa; reflexivity]. Qed.

Lemma byteAt_cons_0 : forall c s, byteAt (String c s) 0 = c.
Proof. reflexivity. Qed.

Lemma byteAt_cons_S : forall c s i, byteAt (String c s) (S i) = byteAt s i.
Proof. reflexivity. Qed.

Lemma byteAt_append_l :
  forall a b i, i < String.length a -> byteAt (a ++ b) i = byteAt a i.
Proof.
  induction a as [|c a IH]; simpl; intros b i Hi; [lia|].
  destruct i as [|i]; [reflexivity|].
  rewrite !byteAt_cons_S. apply IH. lia.
Qed.

Lemma byteAt_append_r :
  forall a b i, byteAt (a ++ b) (String.length a + i) = byteAt b i.
Proof.
  induction a as [|c a IH]; simpl; intros b i; [reflexivity|].
  rewrite byteAt_cons_S. apply IH.
Qed.

Lemma substring_append_r :
  forall a b n m, substring (String.length a + n) m (a ++ b) = substring n m b.
Proof. induction a as [|c a IH]; simpl; intros; [reflexivity | apply IH]. Qed.

Lemma substring_append_l :
  forall a b m, m <= String.length a -> substring 0 m (a ++ b) = substring 0 m a.
Proof.
  induction a as [|c a IH]; simpl; intros b m Hm.
  - destruct m; [|lia]. destruct b; reflexivity.
  - destruct m as [|m]; [reflexivity|]. rewrite IH by lia. reflexivity.
Qed.

Lemma substring_all : forall a, substring 0 (String.length a) a = a.
Proof. induction a as [|c a IH]; simpl; [reflexivity | rewrite IH; reflexivity]. Qed.

Lemma substring_prefix :
  forall a b, substring 0 (String.length a) (a ++ b) = a.
Proof. intros. rewrite substring_append_l by lia. apply substring_all. Qed.

Lemma slice_middle :
  forall a b c,
    slice (a ++ b ++ c) (String.length a) (String.length a + String.length b) = b.
Proof.
  intros. unfold slice.
  replace (String.length a + String.length b - String.length a)
    with (String.length b) by lia.
  rewrite <- (Nat.add_0_r (String.length a)) at 1.
  rewrite substring_append_r. apply substring_prefix.
Qed.

Lemma sliceFrom_append :
  forall a b, sliceFrom (a ++ b) (String.length a) = b.
Proof.
  intros. unfold sliceFrom. rewrite length_append.
  replace (String.length a + String.length b - String.length a)
    with (String.length b) by lia.
  rewrite <- (Nat.add_0_r (String.length a)) at 1.
  rewrite substring_append_r. apply substring_all.
Qed.

Lemma allBytes_byteAt :
  forall p s i, allBytes p s = true -> i < String.length s -> p (byteAt s i) = true.
Proof.
  induction s as [|c s IH]; simpl; intros i H Hi; [lia|].
  apply andb_true_iff in H as [Hc Hs].
  destruct i as [|i]; [exact Hc|].
  rewrite byteAt_cons_S. apply IH; [exact Hs | lia].
Qed.

Lemma isByte_eq : forall c d, isByte c d = true <-> c = d.
Proof. intros. unfold isByte. apply Ascii.eqb_eq. Qed.

Lemma isByte_refl : forall c, isByte c c = true.
Proof. intros. apply isByte_eq. reflexivity. Qed.

(** ** White space at the ends of a text *)

Lemma allBytes_append :
  forall p a b, allBytes p (a ++ b) = allBytes p a && allBytes p b.
Proof.
  intros p. induction a as [|c a IH]; intros b; simpl; [reflexivity|].
  rewrite IH. now rewrite andb_assoc.
Qed.

Lemma allBytes_impl :
  forall (p q : ascii -> bool) s,
    (forall c, p c = true -> q c = true) -> allBytes p s = true -> allBytes q s = true.
Proof.
  intros p q s Hpq. induction s as [|c s IH]; simpl; intros H; [reflexivity|].
  apply andb_true_iff in H as [Hc Hs]. rewrite (Hpq c Hc), IH by exact Hs. reflexivity.
Qed.

(** A white-space rune of more than one byte begins and ends with a byte
    beyond ASCII. *)
Lemma isSpace2_ascii : forall c d, isASCII c = true -> isSpace2 c d = false.
Proof.
  intros c d H. unfold isASCII in H. apply Nat.ltb_lt in H. unfold isSpace2. cbv zeta.
  destruct (Nat.eqb_spec (nat_of_ascii c) 194); [lia | reflexivity].
Qed.

Lemma isSpace3_ascii : forall c d e, isASCII c = true -> isSpace3 c d e = false.
Proof.
  intros c d e H. unfold isASCII in H. apply Nat.ltb_lt in H. unfold isSpace3. cbv zeta.
  destruct (Nat.eqb_spec (nat_of_ascii c) 225); [lia|].
  destruct (Nat.eqb_spec (nat_of_ascii c) 226); [lia|].
  destruct (Nat.eqb_spec (nat_of_ascii c) 227); [lia | reflexivity].
Qed.

Lemma isSpaceRune_ascii : forall c r, isASCII c = true -> isSpaceRune (String c r) = false.
Proof.
  intros c r H. destruct r as [|d [|e [|f r]]]; cbn [isSpaceRune];
    [reflexivity | now apply isSpace2_ascii | now apply isSpace3_ascii | reflexivity].
Qed.

Lemma isSpaceRune_snoc :
  forall s c, isASCII c = true -> isSpaceRune (s ++ String c "") = false.
Proof.
  intros s c H. unfold isASCII in H. apply Nat.ltb_lt in H.
  destruct s as [|a [|b [|d s]]]; cbn [append isSpaceRune]; try reflexivity.
  - unfold isSpace2. cbv zeta.
    destruct (Nat.eqb_spec (nat_of_ascii c) 133); [lia|].
    destruct (Nat.eqb_spec (nat_of_ascii c) 160); [lia|]. apply andb_false_r.
  - unfold isSpace3. cbv zeta.
    destruct (Nat.eqb_spec (nat_of_ascii c) 128); [lia|].
    destruct (Nat.leb_spec 128 (nat_of_ascii c)); [lia|].
    destruct (Nat.eqb_spec (nat_of_ascii c) 168); [lia|].
    destruct (Nat.eqb_spec (nat_of_ascii c) 169); [lia|].
    destruct (Nat.eqb_spec (nat_of_ascii c) 175); [lia|].
    destruct (Nat.eqb_spec (nat_of_ascii c) 159); [lia|].
    rewrite !andb_false_r. reflexivity.
  - destruct s; reflexivity.
Qed.

Lemma isSpace_ascii : forall c, isSpace c = true -> isASCII c = true.
Proof.
  intros c H. unfold isSpace in H. cbv zeta in H. unfold isASCII. apply Nat.ltb_lt.
  apply orb_true_iff in H as [H|H].
  - apply andb_true_iff in H as [_ H]. apply Nat.leb_le in H. lia.
  - apply Nat.eqb_eq in H. lia.
Qed.

(** *** The left end *)

Lemma trimLeft_space :
  forall c s, isSpace c = true -> trimLeft (String c s) = trimLeft s.
Proof. intros c s H. cbn [trimLeft]. now rewrite H. Qed.

Lemma trimLeft_cons :
  forall c s, isSpace c = false -> isASCII c = true -> trimLeft (String c s) = String c s.
Proof.
  intros c s H Ha. cbn [trimLeft]. rewrite H.
  destruct s as [|d [|e r]]; [reflexivity | |];
    rewrite (isSpace2_ascii c d Ha); [reflexivity|].
  rewrite (isSpace3_ascii c d e Ha). reflexivity.
Qed.

Lemma trimLeft_blank : forall s, allBytes isSpace s = true -> trimLeft s = "".
Proof.
  induction s as [|c s IH]; intros H; [reflexivity|].
  simpl in H. apply andb_true_iff in H as [Hc Hs].
  rewrite trimLeft_space by exact Hc. apply IH, Hs.
Qed.





(** *** The right end *)




Lemma trimRight_cons :
  forall c s,
    isSpace c = false -> isASCII c = true ->
    trimRight (String c s) = String c (trimRight s).
Proof.
  intros c s H Ha. cbn [trimRight]. rewrite H.
  destruct (trimRight s) as [|d r]; [reflexivity|].
  rewrite (isSpaceRune_ascii c (String d r) Ha). reflexivity.
Qed.

Lemma trimRight_snoc :
  forall s c,
    isSpace c = false -> isASCII c = true ->
    trimRight (s ++ String c "") = (s ++ String c "")%string.
Proof.
  induction s as [|d s IH]; intros c Hc Ha; cbn [append trimRight].
  - now rewrite Hc.
  - rewrite IH by assumption.
    pose proof (isSpaceRune_snoc (String d s) c Ha) as Hr. cbn [append] in Hr.
    destruct (s ++ String c "")%string eqn:He; [destruct s; discriminate|].
    rewrite Hr. reflexivity.
Qed.


(** *** Both ends *)

Lemma TrimSpace_cons :
  forall c s,
    isSpace c = false -> isASCII c = true ->
    TrimSpace (String c s) = String c (trimRight s).
Proof.
  intros c s H Ha. unfold TrimSpace. rewrite trimLeft_cons by assumption.
  now apply trimRight_cons.
Qed.

Lemma TrimSpace_blank : forall s, allBytes isSpace s = true -> TrimSpace s = "".
Proof. intros s H. unfold TrimSpace. now rewrite trimLeft_blank. Qed.




End StrFacts.

(* ===================================================================== *)
(** * Properties *)
(* ===================================================================== *)

Module Props.

Import Parser Notions StrFacts.

(** ** Unmatched openers (C9) *)

(** C9 (the code departs from it): the body [abc #{x] has an unmatched
    [#{]; the tokenizer returns, the opener is part of the last Text token,
    but the text before the opener is emitted twice: once by the flush made
    before the search for the closing brace, and again in the final Text
    token, whose start was never moved.  The statements written have the
    text twice as well. *)
Theorem C9_text_before_unmatched_opener_twice :
  forall ParseExpr format_Node Quote fuel,
    tokenizeSQLContent false "abc #{x"
    = [mkToken SQLTokenText "abc " 0 4; mkToken SQLTokenText "abc #{x" 0 7]
    /\ generateParts ParseExpr format_Node Quote false fuel
         (parseSQLBlock ParseExpr false "abc #{x" "q")
       = Some [newBuilder "q";
               callAddText "q_builder" (Quote "abc ");
               callAddText "q_builder" (Quote "abc #{x");
               buildIt "q"].
Proof. intros. split; vm_compute; reflexivity. Qed.

(** The same for the other openers. *)
Lemma unmatched_openers_duplicate_text :
  tokenizeSQLContent false "abc ${x"
  = [mkToken SQLTokenText "abc " 0 4; mkToken SQLTokenText "abc ${x" 0 7]
  /\ tokenizeSQLContent false "abc @{x"
     = [mkToken SQLTokenText "abc " 0 4; mkToken SQLTokenText "abc @{x" 0 7]
  /\ tokenizeSQLContent false "abc {x"
     = [mkToken SQLTokenText "abc " 0 4; mkToken SQLTokenText "abc {x" 0 6]
  /\ tokenizeSQLContent false "a @@{x"
     = [mkToken SQLTokenText "a " 0 2; mkToken SQLTokenText "a @" 0 3;
        mkToken SQLTokenText "a @@{x" 0 6].
Proof. repeat split; vm_compute; reflexivity. Qed.

(** ** Brace walks and string literals (C7) *)

(** C7 (the code departs from it): in the code [#{f("}")}] the closing
    brace stands in a string literal.  [findMatchingBrace] steps over the
    literal and closes the sigil at its last byte; the standalone [#{] and
    [${] sweeps of [processCodeBlockExpressions] count the braces
    themselves, do not step over literals, and close the sigil at the brace
    inside the literal.  The template [{ #{f("}")} }] reaches the sweep with
    this code. *)
Theorem C7_standalone_sweeps_count_braces_in_literals :
  forall ParseExpr format_Node Quote smart k,
    findMatchingBrace quotedBrace 2
    = Some (("f(" ++ String DQUOTE "}" ++ String DQUOTE ")")%string, 8)
    /\ processCodeBlockExpressions ParseExpr format_Node Quote smart (1 + k)
         quotedBrace "b"
       = Some ("b.AddParam(f(" ++ String DQUOTE ")" ++ String DQUOTE ")}")%string
    /\ processCodeBlockExpressions ParseExpr format_Node Quote smart (1 + k)
         ("${f(" ++ String DQUOTE "}" ++ String DQUOTE ")}")%string "b"
       = Some ("b.AddText(f(" ++ String DQUOTE ")" ++ String DQUOTE ")}")%string
    /\ generateParts ParseExpr format_Node Quote smart (2 + k)
         (parseSQLBlock ParseExpr smart ("{ " ++ quotedBrace ++ " }") "q")
       = Some [newBuilder "q";
               ("q_builder.AddParam(f(" ++ String DQUOTE ")" ++ String DQUOTE ")}")%string;
               buildIt "q"].
Proof. intros. repeat split; vm_compute; reflexivity. Qed.

(** ** The output path of the driver (C4) *)

Section DriverFacts.

Import Compiler.

Variable IsAbs : string -> bool.
Variable PathJoin : string -> string -> string.
Variable cwd : string.

(** The path written to does not depend on the input file. *)
Lemma writePath_constant :
  forall c goxPath1 goxPath2,
    writePath IsAbs PathJoin cwd c goxPath1 = writePath IsAbs PathJoin cwd c goxPath2.
Proof. intros. reflexivity. Qed.

End DriverFacts.

(** C4 (the code departs from it): [processGoxFile] computes the path
    [X_gen.go] from [X.gox.go], uses it for the incremental check, and then
    writes to [DestPath] instead: the path written to is the same for every
    input.  With the two inputs [/w/a.gox.go] and [/w/b.gox.go] both outputs
    go to [/w/out_gen.go]: the second replaces the first, and neither
    [/w/a_gen.go] nor [/w/b_gen.go] exists. *)
Theorem C4_distinct_inputs_same_output_path :
  (forall IsAbs PathJoin cwd c goxPath1 goxPath2,
     Compiler.writePath IsAbs PathJoin cwd c goxPath1
     = Compiler.writePath IsAbs PathJoin cwd c goxPath2)
  /\ Compiler.writePath unixIsAbs unixJoin "/w" toOut "/w/a.gox.go" = "/w/out_gen.go"
  /\ Compiler.writePath unixIsAbs unixJoin "/w" toOut "/w/b.gox.go" = "/w/out_gen.go"
  /\ exists fs,
       Compiler.processFiles unixIsAbs unixJoin "/w" markGenerated toOut twoSources
         ["/w/a.gox.go"; "/w/b.gox.go"] false = Compiler.Ok fs
       /\ Compiler.lookup "/w/out_gen.go" (Compiler.files fs)
          = Some (Compiler.mkFile "// generated from B" 2)
       /\ Compiler.lookup "/w/a_gen.go" (Compiler.files fs) = None
       /\ Compiler.lookup "/w/b_gen.go" (Compiler.files fs) = None.
Proof.
  split; [intros; apply writePath_constant|].
  split; [reflexivity|]. split; [reflexivity|].
  eexists. split; [vm_compute; reflexivity|].
  repeat split; reflexivity.
Qed.

(** ** [AddParam] (C10) *)

Import Gox.

Lemma placeholders_loop_later :
  forall n i sb, 0 < i -> placeholders_loop n i sb = (sb ++ commaMarks n)%string.
Proof.
  induction n as [|n IH]; intros i sb Hi; simpl.
  - now rewrite append_nil_r.
  - destruct (Nat.ltb_spec 0 i) as [_|Hc]; [|lia].
    rewrite IH by lia. rewrite !append_assoc. reflexivity.
Qed.

Lemma join_marks :
  forall n, Join (repeat "?" (S n)) "," = ("?" ++ commaMarks n)%string.
Proof.
  induction n as [|n IH]; [reflexivity|].
  change (repeat "?" (S (S n))) with ("?" :: repeat "?" (S n)).
  unfold Join in *. cbn [String.concat]. cbn [repeat] in IH |- *.
  rewrite IH. reflexivity.
Qed.

(** One [?] per element, separated by commas. *)
Lemma placeholders_join :
  forall n, placeholders_loop n 0 "" = Join (repeat "?" n) ",".
Proof.
  destruct n as [|n]; [reflexivity|].
  rewrite join_marks. simpl. rewrite placeholders_loop_later by lia. reflexivity.
Qed.

(** C10: on the nil interface [AddParam] panics; on a slice it writes one
    [?] per element, separated by commas, and appends the elements to the
    args in index order; on every other value it writes one [?] and appends
    the value. *)
Theorem C10_AddParam_cases :
  forall qb arg,
    AddParam qb arg
    = match arg with
      | VNil => None
      | VSlice elems =>
          Some (mkQueryBuilder
                  (qbParts qb ++ Join (repeat "?" (List.length elems)) ",")
                  (qbArgs qb ++ elems))
      | _ => Some (mkQueryBuilder (qbParts qb ++ "?") (qbArgs qb ++ [arg]))
      end.
Proof.
  intros qb arg. destruct arg; unfold AddParam; simpl; try reflexivity.
  rewrite placeholders_join. reflexivity.
Qed.

(** ** The two scenarios of the emitter (C2, C5) *)

(** A [@@{...}] node adds nothing to the statements of its template. *)
Lemma nodesParts_skips_double_at :
  forall format_Node Quote smart E builder before content expr after,
    nodesParts format_Node Quote smart E builder
      (before ++ SQLExpression SQLExprDoubleAtQuery content expr :: after)
    = nodesParts format_Node Quote smart E builder (before ++ after).
Proof.
  intros. induction before as [|node before IH]; simpl.
  - destruct (nodesParts _ _ _ _ _ after); reflexivity.
  - rewrite IH. reflexivity.
Qed.

(** Against C2 as it is stated: for the scenario the emitter writes exactly
    the two calls of the text, and no statement between them. *)
Lemma C2_counterexample :
  generateParts Sample.parseIdent Sample.noFormat Sample.quoteASCII false 3
    (parseSQLBlock Sample.parseIdent false nestedScenario "__gox_sql_0")
  = Some [newBuilder "__gox_sql_0";
          callAddText "__gox_sql_0_builder" (Sample.quoteASCII "SELECT (");
          callAddText "__gox_sql_0_builder" (Sample.quoteASCII ") FROM t");
          buildIt "__gox_sql_0"]
  /\ ~ (exists nested,
          generateParts Sample.parseIdent Sample.noFormat Sample.quoteASCII false 3
            (parseSQLBlock Sample.parseIdent false nestedScenario "__gox_sql_0")
          = Some [newBuilder "__gox_sql_0";
                  callAddText "__gox_sql_0_builder" (Sample.quoteASCII "SELECT (");
                  callAddText "__gox_sql_0_builder" nested;
                  callAddText "__gox_sql_0_builder" (Sample.quoteASCII ") FROM t");
                  buildIt "__gox_sql_0"]).
Proof.
  split; [vm_compute; reflexivity|].
  intros [nested H]. vm_compute in H. discriminate H.
Qed.



(** ** The tokenizer on text and parameter sigils *)

Section TokenizerRuns.

Variable smart : bool.
Variable content : string.

Lemma isSpecial_false :
  forall c, isSpecial c = false ->
    isByte c "{" = false /\ isByte c "#" = false
    /\ isByte c "$" = false /\ isByte c "@" = false.
Proof.
  intros c H. unfold isSpecial in H.
  repeat (apply orb_false_iff in H; destruct H as [H ?]). auto.
Qed.

(** On an ordinary byte the cursor moves on by one. *)
Lemma tokenizeStep_plain :
  forall i ts toks,
    isSpecial (byteAt content i) = false ->
    tokenizeStep smart content i ts toks = Continue (i + 1) ts toks.
Proof.
  intros i ts toks H.
  apply isSpecial_false in H as (Hb & Hh & Hd & Ha).
  unfold tokenizeStep. cbv zeta. rewrite Hb, Hh, Hd, Ha. simpl.
  destruct (i + 1 <? String.length content); reflexivity.
Qed.

Lemma tokenize_loop_plain_run :
  forall m fuel i ts toks,
    (forall k, k < m ->
       i + k < String.length content /\ isSpecial (byteAt content (i + k)) = false) ->
    tokenize_loop (m + fuel) smart content i ts toks
    = tokenize_loop fuel smart content (i + m) ts toks.
Proof.
  induction m as [|m IH]; intros fuel i ts toks H.
  - rewrite Nat.add_0_r. reflexivity.
  - destruct (H 0 ltac:(lia)) as [Hlt Hp]. rewrite Nat.add_0_r in Hlt, Hp.
    cbn [Nat.add tokenize_loop].
    destruct (Nat.ltb_spec i (String.length content)) as [_|Hc]; [|lia].
    rewrite tokenizeStep_plain by exact Hp.
    rewrite IH.
    + f_equal. lia.
    + intros k Hk. specialize (H (S k) ltac:(lia)).
      replace (i + 1 + k) with (i + S k) by lia. exact H.
Qed.

Lemma tokenize_loop_end :
  forall fuel i ts toks,
    String.length content <= i ->
    tokenize_loop fuel smart content i ts toks = (ts, toks).
Proof.
  intros fuel i ts toks H. destruct fuel as [|fuel]; [reflexivity|]. simpl.
  destruct (Nat.ltb_spec i (String.length content)); [lia | reflexivity].
Qed.

(** At a [#{] whose closing brace is found the tokenizer flushes the text
    and emits the Param token. *)
Lemma tokenizeStep_param :
  forall i ts toks inner e,
    i + 1 < String.length content ->
    byteAt content i = "#"%char ->
    byteAt content (i + 1) = "{"%char ->
    findMatchingBrace content (i + 2) = Some (inner, e) ->
    tokenizeStep smart content i ts toks
    = Continue (e + 1) (e + 1)
        (flushText content ts i toks ++ [mkToken SQLTokenParam inner i (e + 1)]).
Proof.
  intros i ts toks inner e Hlt Hc Hn Hm.
  unfold tokenizeStep. cbv zeta.
  destruct (Nat.ltb_spec (i + 1) (String.length content)) as [_|]; [|lia].
  rewrite Hc, Hn. simpl. unfold braceSigil. rewrite Hm. reflexivity.
Qed.

Lemma findMatching_loop_brace_run :
  forall m fuel count i,
    0 < count ->
    (forall k, k < m ->
       i + k < String.length content /\ noBraceNoQuote (byteAt content (i + k)) = true) ->
    findMatching_loop "{" "}" (m + fuel) content count i
    = findMatching_loop "{" "}" fuel content count (i + m).
Proof.
  induction m as [|m IH]; intros fuel count i Hcount H.
  - rewrite Nat.add_0_r. reflexivity.
  - destruct (H 0 ltac:(lia)) as [Hlt Hp]. rewrite Nat.add_0_r in Hlt, Hp.
    cbn [Nat.add findMatching_loop].
    destruct (Nat.ltb_spec i (String.length content)) as [_|]; [|lia].
    destruct (Nat.ltb_spec 0 count) as [_|]; [|lia].
    unfold noBraceNoQuote in Hp.
    apply andb_true_iff in Hp as [Hp Hq]. apply andb_true_iff in Hp as [Ho Hc].
    apply negb_true_iff in Ho, Hc, Hq.
    cbv zeta. simpl andb. cbv iota. rewrite Ho, Hc, Hq.
    rewrite IH; [f_equal; lia | exact Hcount |].
    intros k Hk. specialize (H (S k) ltac:(lia)).
    replace (i + 1 + k) with (i + S k) by lia. exact H.
Qed.

Lemma findMatchingBrace_simple :
  forall start m,
    (forall k, k < m ->
       start + k < String.length content
       /\ noBraceNoQuote (byteAt content (start + k)) = true) ->
    start + m < String.length content ->
    byteAt content (start + m) = "}"%char ->
    findMatchingBrace content start
    = Some (slice content start (start + m), start + m).
Proof.
  intros start m H Hlt Hc.
  unfold findMatchingBrace, findMatching.
  replace (S (String.length content))
    with (m + S (String.length content - m)) by lia.
  rewrite findMatching_loop_brace_run by (lia || exact H).
  cbn [findMatching_loop].
  destruct (Nat.ltb_spec (start + m) (String.length content)) as [_|]; [|lia].
  simpl andb. cbv iota zeta. rewrite Hc. simpl isByte. cbv iota.
  replace (1 - 1) with 0 by reflexivity.
  destruct (String.length content - m) as [|f]; simpl;
    [|rewrite andb_false_r]; rewrite Nat.add_sub; reflexivity.
Qed.

End TokenizerRuns.

(** ** Templates made of text and parameter sigils (C6) *)

Lemma tokenizeSQLContent_finish :
  forall smart content,
    tokenizeSQLContent smart content
    = finish content (tokenize_loop (S (String.length content)) smart content 0 0 []).
Proof.
  intros. unfold tokenizeSQLContent, finish.
  destruct (tokenize_loop _ _ _ _ _ _); reflexivity.
Qed.

Lemma flushText_text :
  forall pre t post toks,
    flushText (pre ++ t ++ post) (String.length pre)
      (String.length pre + String.length t) toks
    = toks ++ textToken (String.length pre) t.
Proof.
  intros. unfold flushText, textToken.
  destruct (Nat.ltb_spec (String.length pre) (String.length pre + String.length t)).
  - rewrite slice_middle. destruct (negb _); [reflexivity | now rewrite app_nil_r].
  - destruct t; [|simpl in *; lia]. simpl. now rewrite app_nil_r.
Qed.

Lemma finish_text :
  forall pre t toks,
    finish (pre ++ t) (String.length pre, toks)
    = toks ++ textToken (String.length pre) t.
Proof.
  intros. unfold finish, textToken. rewrite length_append.
  destruct (Nat.ltb_spec (String.length pre) (String.length pre + String.length t)).
  - rewrite sliceFrom_append. destruct (negb _); [reflexivity | now rewrite app_nil_r].
  - destruct t; [|simpl in *; lia]. simpl. now rewrite app_nil_r.
Qed.

Lemma plainText_run :
  forall pre t post k,
    plainText t = true -> k < String.length t ->
    String.length pre + k < String.length (pre ++ t ++ post)
    /\ isSpecial (byteAt (pre ++ t ++ post) (String.length pre + k)) = false.
Proof.
  intros pre t post k Hp Hk. split.
  - rewrite !length_append. lia.
  - rewrite byteAt_append_r, byteAt_append_l by exact Hk.
    apply (allBytes_byteAt _ _ k) in Hp; [|exact Hk].
    now apply negb_true_iff in Hp.
Qed.

Lemma tokenize_paramBody :
  forall ParseExpr smart sigils t0 pre toks fuel,
    plainText t0 = true ->
    Forall (goodSigil ParseExpr) sigils ->
    String.length (paramBody t0 sigils) < fuel ->
    finish (pre ++ paramBody t0 sigils)
      (tokenize_loop fuel smart (pre ++ paramBody t0 sigils)
         (String.length pre) (String.length pre) toks)
    = toks ++ expectedTokens (String.length pre) t0 sigils.
Proof.
  intros ParseExpr smart sigils.
  induction sigils as [|[[e x] t] rest IH]; intros t0 pre toks fuel Ht0 Hs Hfuel.
  - simpl in *.
    replace fuel with (String.length t0 + (fuel - String.length t0)) by lia.
    rewrite tokenize_loop_plain_run.
    + rewrite tokenize_loop_end by (rewrite length_append; lia).
      apply finish_text.
    + intros k Hk. rewrite <- (append_nil_r t0) at 1 2.
      apply plainText_run; assumption.
  - inversion Hs as [|? ? Hg Hrest]; subst.
    destruct Hg as (He & Hx & Ht).
    cbn [paramBody expectedTokens] in *.
    set (body := paramBody t rest) in *.
    set (content := (pre ++ t0 ++ "#{" ++ e ++ "}" ++ body)%string).
    assert (Hlen : String.length content
                   = String.length pre + String.length t0 + 2 + String.length e + 1
                     + String.length body).
    { unfold content. rewrite ?length_append. simpl. rewrite ?length_append. simpl. lia. }
    assert (Hfuel' : String.length t0 + 3 + String.length e + String.length body < fuel).
    { revert Hfuel. rewrite ?length_append. simpl. rewrite ?length_append. simpl. lia. }
    replace fuel with (String.length t0 + S (fuel - String.length t0 - 1)) by lia.
    rewrite tokenize_loop_plain_run
      by (intros k Hk; apply plainText_run; assumption).
    set (i := String.length pre + String.length t0).
    assert (Hi : content = ((pre ++ t0) ++ "#{" ++ e ++ "}" ++ body)%string)
      by (unfold content; now rewrite append_assoc).
    assert (Hb0 : byteAt content i = "#"%char).
    { rewrite Hi. unfold i. rewrite <- length_append.
      rewrite <- (Nat.add_0_r (String.length (pre ++ t0))), byteAt_append_r. reflexivity. }
    assert (Hb1 : byteAt content (i + 1) = "{"%char).
    { rewrite Hi. unfold i. rewrite <- length_append, byteAt_append_r. reflexivity. }
    assert (Hi2 : content = (((pre ++ t0) ++ "#{") ++ e ++ "}" ++ body)%string).
    { rewrite Hi. now rewrite (append_assoc (pre ++ t0) "#{"). }
    assert (Hl2 : String.length ((pre ++ t0) ++ "#{") = i + 2).
    { rewrite !length_append. reflexivity. }
    assert (Hm : findMatchingBrace content (i + 2)
                 = Some (e, i + 2 + String.length e)).
    { rewrite (findMatchingBrace_simple content (i + 2) (String.length e)).
      - f_equal. f_equal. rewrite Hi2, <- Hl2. apply slice_middle.
      - intros k Hk. split; [lia|].
        rewrite Hi2, <- Hl2, byteAt_append_r, byteAt_append_l by exact Hk.
        apply allBytes_byteAt; assumption.
      - lia.
      - rewrite Hi2, <- Hl2.
        replace ("}" ++ body)%string with (String "}" body) by reflexivity.
        rewrite <- (append_assoc _ e), <- length_append.
        rewrite <- (Nat.add_0_r (String.length (_ ++ e))), byteAt_append_r.
        reflexivity. }
    cbn [tokenize_loop].
    destruct (Nat.ltb_spec i (String.length content)) as [_|]; [|lia].
    rewrite (tokenizeStep_param smart content i _ _ e (i + 2 + String.length e))
      by (assumption || lia).
    assert (Hflush : flushText content (String.length pre) i toks
                     = toks ++ textToken (String.length pre) t0).
    { unfold content, i. apply flushText_text. }
    rewrite Hflush.
    assert (Hi3 : content = ((pre ++ t0 ++ "#{" ++ e ++ "}") ++ body)%string).
    { unfold content. rewrite !append_assoc. reflexivity. }
    assert (Hl3 : String.length (pre ++ t0 ++ "#{" ++ e ++ "}")
                  = i + 2 + String.length e + 1).
    { rewrite ?length_append. simpl. rewrite ?length_append. simpl. lia. }
    rewrite Hi3, <- Hl3.
    unfold body. rewrite IH; [| assumption | assumption | fold body; lia].
    rewrite Hl3, <- !app_assoc. simpl.
    replace (i + 2 + String.length e + 1) with (i + String.length e + 3) by lia.
    reflexivity.
Qed.

Lemma textLinesParts_frags :
  forall Quote builder n lines i,
    textLinesParts Quote builder n i lines
    = map (fun s => callAddText builder (Quote s)) (linesFrags n i lines).
Proof.
  intros Quote builder n. induction lines as [|line rest IH]; intros i; simpl.
  - reflexivity.
  - rewrite map_app, IH. f_equal.
    unfold textLineParts, lineFrags.
    destruct (_ || _); [reflexivity|].
    destruct (_ || _); [|reflexivity].
    destruct (i <? n - 1); reflexivity.
Qed.

Lemma textParts_frags :
  forall Quote builder text,
    textParts Quote builder text
    = map (fun s => callAddText builder (Quote s)) (textFrags text).
Proof.
  intros. unfold textParts, textFrags.
  destruct (String.eqb text ""); [reflexivity | apply textLinesParts_frags].
Qed.

Lemma nodesParts_app :
  forall format_Node Quote smart E builder l1 l2 p1 p2,
    nodesParts format_Node Quote smart E builder l1 = Some p1 ->
    nodesParts format_Node Quote smart E builder l2 = Some p2 ->
    nodesParts format_Node Quote smart E builder (l1 ++ l2) = Some (p1 ++ p2).
Proof.
  intros fN Q smart E builder l1.
  induction l1 as [|node l1 IH]; intros l2 p1 p2 H1 H2; simpl in *.
  - injection H1 as <-. exact H2.
  - destruct (nodeParts fN Q smart E builder node) as [ps|]; [|discriminate].
    destruct (nodesParts fN Q smart E builder l1) as [qs|] eqn:Hq; [|discriminate].
    injection H1 as <-. rewrite (IH l2 qs p2 eq_refl H2).
    now rewrite app_assoc.
Qed.

Lemma nodesParts_textToken :
  forall ParseExpr format_Node Quote smart E builder pos t,
    nodesParts format_Node Quote smart E builder
      (tokensToNodes ParseExpr (textToken pos t))
    = Some (map (render format_Node Quote builder) (textOps t)).
Proof.
  intros. unfold textToken, textOps.
  destruct (negb _); simpl; [|reflexivity].
  rewrite textParts_frags, app_nil_r, map_map. reflexivity.
Qed.

Lemma nodesParts_expectedTokens :
  forall ParseExpr format_Node Quote smart E builder sigils pos t0,
    Forall (goodSigil ParseExpr) sigils ->
    nodesParts format_Node Quote smart E builder
      (tokensToNodes ParseExpr (expectedTokens pos t0 sigils))
    = Some (map (render format_Node Quote builder) (bodyOps t0 sigils)).
Proof.
  intros P fN Q smart E builder sigils.
  induction sigils as [|[[e x] t] rest IH]; intros pos t0 Hs; simpl.
  - apply nodesParts_textToken.
  - inversion Hs as [|? ? Hg Hrest]; subst. destruct Hg as (He & Hx & Ht).
    unfold tokensToNodes. rewrite map_app, map_app.
    apply nodesParts_app; [apply nodesParts_textToken|].
    cbn [map nodesParts]. unfold tokenToNode at 1.
    cbn [tokType tokContent nodeParts]. rewrite Hx.
    fold (tokensToNodes P (expectedTokens (pos + String.length t0 + String.length e + 3) t rest)).
    rewrite IH by assumption. reflexivity.
Qed.

Lemma paramsOf_app :
  forall l1 l2, paramsOf (l1 ++ l2) = paramsOf l1 ++ paramsOf l2.
Proof.
  induction l1 as [|[s|x] l1 IH]; intros; simpl; [reflexivity | apply IH |].
  now rewrite IH.
Qed.

Lemma paramsOf_textOps : forall t, paramsOf (textOps t) = [].
Proof.
  intros. unfold textOps. destruct (negb _); [|reflexivity].
  induction (textFrags t); simpl; auto.
Qed.

Lemma paramsOf_bodyOps :
  forall sigils t0, paramsOf (bodyOps t0 sigils) = map sigilExpr sigils.
Proof.
  induction sigils as [|[[e x] t] rest IH]; intros; simpl.
  - apply paramsOf_textOps.
  - rewrite paramsOf_app, paramsOf_textOps. simpl. now rewrite IH.
Qed.

Lemma run_texts :
  forall env frags rest qb,
    exists qb',
      run env (map OpText frags ++ rest) qb = run env rest qb'
      /\ Gox.qbArgs qb' = Gox.qbArgs qb.
Proof.
  induction frags as [|s frags IH]; intros; simpl.
  - exists qb. auto.
  - destruct (IH rest (Gox.AddText qb (Gox.VString s))) as (qb' & Hr & Ha).
    exists qb'. split; [exact Hr | exact Ha].
Qed.

Lemma run_textOps :
  forall env t rest qb,
    exists qb',
      run env (textOps t ++ rest) qb = run env rest qb'
      /\ Gox.qbArgs qb' = Gox.qbArgs qb.
Proof.
  intros. unfold textOps. destruct (negb _).
  - apply run_texts.
  - exists qb. auto.
Qed.

Lemma AddParam_args :
  forall qb v, v <> Gox.VNil ->
    exists qb', Gox.AddParam qb v = Some qb'
                /\ Gox.qbArgs qb' = Gox.qbArgs qb ++ spread v.
Proof.
  intros qb v Hv. destruct v; try contradiction; eexists; split; reflexivity.
Qed.

Lemma run_bodyOps :
  forall env sigils t0 qb,
    Forall (fun s => env (sigilExpr s) <> Gox.VNil) sigils ->
    exists qb',
      run env (bodyOps t0 sigils) qb = Some qb'
      /\ Gox.qbArgs qb'
         = Gox.qbArgs qb ++ flat_map (fun s => spread (env (sigilExpr s))) sigils.
Proof.
  intros env sigils.
  induction sigils as [|[[e x] t] rest IH]; intros t0 qb Hs; simpl.
  - destruct (run_textOps env t0 [] qb) as (qb' & Hr & Ha).
    rewrite app_nil_r in Hr. exists qb'. rewrite Hr, app_nil_r. auto.
  - inversion Hs as [|? ? Hx Hrest]; subst. unfold sigilExpr in Hx. simpl in Hx.
    destruct (run_textOps env t0 (OpParam x :: bodyOps t rest) qb) as (qb1 & Hr & Ha).
    rewrite Hr. simpl.
    destruct (AddParam_args qb1 (env x) Hx) as (qb2 & Hp & Ha2).
    rewrite Hp.
    destruct (IH t qb2 Hrest) as (qb3 & Hr3 & Ha3).
    exists qb3. split; [exact Hr3|].
    rewrite Ha3, Ha2, Ha, <- app_assoc. reflexivity.
Qed.

Lemma flat_map_spread_scalars :
  forall env (sigils : list sigil),
    Forall (fun s => forall l, env (sigilExpr s) <> Gox.VSlice l) sigils ->
    flat_map (fun s => spread (env (sigilExpr s))) sigils
    = map (fun s => env (sigilExpr s)) sigils.
Proof.
  intros env sigils H. induction H as [|s rest Hs _ IH]; simpl; [reflexivity|].
  rewrite IH. destruct (env (sigilExpr s)) eqn:Hv; try reflexivity.
  exfalso. exact (Hs _ eq_refl).
Qed.

(** ** Text preservation (C3) *)

Lemma concat_empty_cons :
  forall s rest, String.concat "" (s :: rest) = (s ++ String.concat "" rest)%string.
Proof.
  intros. destruct rest; simpl; [now rewrite append_nil_r | reflexivity].
Qed.

Lemma concat_empty_app :
  forall l1 l2,
    String.concat "" (l1 ++ l2) = (String.concat "" l1 ++ String.concat "" l2)%string.
Proof.
  induction l1 as [|s l1 IH]; intros; [reflexivity|].
  rewrite <- app_comm_cons, !concat_empty_cons, IH, append_assoc. reflexivity.
Qed.

Lemma kept_last_nonempty :
  forall lines d,
    lines <> [] -> isCommentLine (last lines d) = false ->
    filter (fun line => negb (isCommentLine line)) lines <> [].
Proof.
  induction lines as [|l rest IH]; intros d Hne Hlast; [contradiction|].
  destruct rest as [|l' rest'].
  - simpl in *. rewrite Hlast. simpl. discriminate.
  - simpl filter. destruct (negb (isCommentLine l)); [discriminate|].
    apply (IH d); [discriminate | exact Hlast].
Qed.

Lemma linesFrags_concat :
  forall lines n i,
    lines <> [] -> n = i + List.length lines ->
    isCommentLine (last lines "") = false ->
    String.concat "" (linesFrags n i lines)
    = Join (filter (fun line => negb (isCommentLine line)) lines) nl.
Proof.
  induction lines as [|l rest IH]; intros n i Hne Hn Hlast; [contradiction|].
  destruct rest as [|l' rest'].
  - simpl in *. unfold lineFrags. fold (isCommentLine l). rewrite Hlast.
    destruct (Nat.ltb_spec i (n - 1)); [lia|].
    unfold Join. simpl. destruct (String.eqb_spec l ""); simpl.
    + subst. reflexivity.
    + reflexivity.
  - assert (Hi : i < n - 1) by (simpl in Hn; lia).
    change (linesFrags n i (l :: l' :: rest'))
      with (lineFrags n i l ++ linesFrags n (i + 1) (l' :: rest')).
    rewrite concat_empty_app.
    rewrite (IH n (i + 1)); [| discriminate | simpl in *; lia | exact Hlast].
    pose proof (kept_last_nonempty (l' :: rest') "" ltac:(discriminate) Hlast) as Hk.
    remember (l' :: rest') as tl eqn:Htl.
    unfold lineFrags at 1. fold (isCommentLine l).
    cbn [filter]. destruct (isCommentLine l) eqn:Hc; simpl negb; cbv iota.
    + reflexivity.
    + destruct (Nat.ltb_spec i (n - 1)) as [_|]; [|lia].
      rewrite orb_true_r. unfold Join.
      destruct (filter _ tl) as [|k ks] eqn:Hf; [contradiction|].
      cbn [app]. rewrite !concat_empty_cons.
      change (String.concat "" []) with "". rewrite append_nil_r.
      cbn [String.concat]. rewrite append_assoc. reflexivity.
Qed.

Lemma SplitByte_nonempty : forall sep s, SplitByte sep s <> [].
Proof.
  intros sep s. destruct s as [|c r]; simpl; [discriminate|].
  destruct (isByte c sep); [discriminate|].
  destruct (SplitByte sep r); discriminate.
Qed.

Lemma textFrags_concat :
  forall text,
    isCommentLine (lastLine text) = false ->
    String.concat "" (textFrags text) = dropCommentLines text.
Proof.
  intros text Hlast. unfold textFrags, dropCommentLines.
  destruct (String.eqb_spec text "").
  - subst. reflexivity.
  - apply linesFrags_concat; [apply SplitByte_nonempty | reflexivity | exact Hlast].
Qed.

(** Against C3 as it is stated: in [#{a} #{b}] the white space between the
    two sigils gives no Text token, so the texts of the tokens, joined, are
    empty and not the space that is left of the body without its sigils. *)
Lemma C3_counterexample :
  tokenizeSQLContent false "#{a} #{b}"
  = [mkToken SQLTokenParam "a" 0 4; mkToken SQLTokenParam "b" 5 9]
  /\ textOfTokens (tokenizeSQLContent false "#{a} #{b}") <> " ".
Proof. split; [vm_compute; reflexivity | vm_compute; discriminate]. Qed.

Lemma flushText_verbatim :
  forall content ts i toks,
    Forall (verbatimText content) toks ->
    Forall (verbatimText content) (flushText content ts i toks).
Proof.
  intros content ts i toks H. unfold flushText.
  destruct (Nat.ltb_spec ts i) as [Hlt|]; [|exact H].
  destruct (String.eqb_spec (TrimSpace (slice content ts i)) "") as [|Hne]; simpl;
    [exact H|].
  apply Forall_app. split; [exact H|]. constructor; [|constructor].
  intros _. right. simpl. auto.
Qed.

Lemma braceSigil_verbatim :
  forall ty content i ts open toks,
    ty <> SQLTokenText ->
    Forall (verbatimText content) toks ->
    Forall (verbatimText content) (flowTokens (braceSigil ty content i ts open toks)).
Proof.
  intros ty content i ts open toks Hty H. unfold braceSigil.
  pose proof (flushText_verbatim content ts i toks H) as Hf.
  destruct (findMatchingBrace content open) as [[inner e]|]; simpl; [|exact Hf].
  apply Forall_app. split; [exact Hf|]. constructor; [|constructor].
  intros Ht. simpl in Ht. contradiction.
Qed.

Lemma newline_verbatim :
  forall content pos, verbatimText content (mkToken SQLTokenText nl pos pos).
Proof. intros content pos _. left. auto. Qed.

Lemma atLine_verbatim :
  forall smart content i ts toks,
    Forall (verbatimText content) toks ->
    Forall (verbatimText content) (flowTokens (atLine smart content i ts toks)).
Proof.
  intros smart content i ts toks H. unfold atLine.
  pose proof (flushText_verbatim content ts i toks H) as Hf.
  destruct (atLineScan_loop _ _ _ _ _) as [lineEnd brace].
  destruct (ShouldHandle _); simpl.
  - apply Forall_app. split; [exact Hf|].
    constructor; [intros Ht; discriminate Ht|].
    constructor; [apply newline_verbatim | constructor].
  - assert (Ha : forall c e,
               Forall (verbatimText content)
                 (if negb (String.eqb c "")
                  then flushText content ts i toks ++ [mkToken SQLTokenAtLine c i e]
                  else flushText content ts i toks)).
    { intros c e. destruct (negb _); [|exact Hf].
      apply Forall_app. split; [exact Hf|].
      constructor; [intros Ht; discriminate Ht | constructor]. }
    destruct brace as [b|]; simpl; apply Forall_app; split;
      try apply Ha; (constructor; [apply newline_verbatim | constructor]).
Qed.

Lemma orElse_verbatim :
  forall content r k,
    Forall (verbatimText content) (flowTokens r) ->
    (forall toks, Forall (verbatimText content) toks ->
                  Forall (verbatimText content) (flowTokens (k toks))) ->
    Forall (verbatimText content) (flowTokens (orElse r k)).
Proof. intros content [i ts toks|toks] k Hr Hk; simpl in *; [exact Hr | apply Hk, Hr]. Qed.

Lemma tokenizeStep_verbatim :
  forall smart content i ts toks,
    Forall (verbatimText content) toks ->
    Forall (verbatimText content) (flowTokens (tokenizeStep smart content i ts toks)).
Proof.
  intros smart content i ts toks H. unfold tokenizeStep. cbv zeta.
  apply orElse_verbatim.
  - destruct (i + 1 <? String.length content); [|exact H].
    apply orElse_verbatim.
    + destruct (_ && _); [apply braceSigil_verbatim; [discriminate | exact H] | exact H].
    + intros toks1 H1. apply orElse_verbatim.
      * destruct (_ && _); [apply braceSigil_verbatim; [discriminate | exact H1] | exact H1].
      * intros toks2 H2. destruct (isByte (byteAt content i) "@"); [|exact H2].
        destruct (_ && _); [apply braceSigil_verbatim; [discriminate | exact H2]|].
        destruct (_ && _); [apply braceSigil_verbatim; [discriminate | exact H2]|].
        apply atLine_verbatim. exact H2.
  - intros toks1 H1. apply orElse_verbatim.
    + destruct (isByte (byteAt content i) "{"); [|exact H1].
      destruct (_ || _); [apply braceSigil_verbatim; [discriminate | exact H1] | exact H1].
    + intros toks2 H2. exact H2.
Qed.

Lemma tokenize_loop_verbatim :
  forall smart content fuel i ts toks,
    Forall (verbatimText content) toks ->
    Forall (verbatimText content) (snd (tokenize_loop fuel smart content i ts toks)).
Proof.
  intros smart content. induction fuel as [|fuel IH]; intros i ts toks H; simpl;
    [exact H|].
  destruct (i <? String.length content); [|exact H].
  pose proof (tokenizeStep_verbatim smart content i ts toks H) as Hs.
  destruct (tokenizeStep smart content i ts toks) as [i' ts' toks'|toks']; simpl in Hs;
    apply IH; exact Hs.
Qed.

(** The Text tokens of a body are runs of it that are not all white space,
    and the line feeds put after its [@] lines: white space alone, between
    two sigils or elsewhere, is never a Text token. *)
Theorem text_tokens_verbatim :
  forall smart content,
    Forall (verbatimText content) (tokenizeSQLContent smart content).
Proof.
  intros smart content. rewrite tokenizeSQLContent_finish.
  pose proof (tokenize_loop_verbatim smart content (S (String.length content)) 0 0 []
                (Forall_nil _)) as H.
  destruct (tokenize_loop _ _ _ _ _ _) as [ts toks]. simpl in H. unfold finish.
  destruct (Nat.ltb_spec ts (String.length content)) as [Hlt|]; [|exact H].
  destruct (String.eqb_spec (TrimSpace (sliceFrom content ts)) "") as [|Hne]; simpl;
    [exact H|].
  apply Forall_app. split; [exact H|]. constructor; [|constructor].
  intros _. right. simpl. auto.
Qed.

(** ** The top-level call finder (C1) *)

Lemma length_substring :
  forall s n m, n + m <= String.length s -> String.length (substring n m s) = m.
Proof.
  induction s as [|c s IH]; intros n m H; simpl in *.
  - destruct n, m; simpl in *; try lia; reflexivity.
  - destruct n as [|n].
    + destruct m as [|m]; [reflexivity|]. simpl. rewrite IH by lia. reflexivity.
    + apply IH. lia.
Qed.

(** The 15 bytes compared with [runtime.Query(], which has 14, never equal
    it: the only prefix the finder can report is [gox.Sql(]. *)
Lemma callPrefixAt_Some :
  forall content i n,
    callPrefixAt content i = Some n ->
    n = 8 /\ slice content i (i + 8) = "gox.Sql(".
Proof.
  intros content i n H. unfold callPrefixAt in H.
  destruct ((i + 8 <=? String.length content)
            && String.eqb (slice content i (i + 8)) "gox.Sql(") eqn:H8.
  - injection H as <-. apply andb_true_iff in H8 as [_ H8].
    apply String.eqb_eq in H8. auto.
  - destruct ((i + 15 <=? String.length content)
              && String.eqb (slice content i (i + 15)) "runtime.Query(") eqn:H15;
      [|discriminate].
    apply andb_true_iff in H15 as [Hl He].
    apply Nat.leb_le in Hl. apply String.eqb_eq in He.
    apply (f_equal String.length) in He. unfold slice in He.
    rewrite length_substring in He by lia. simpl in He. lia.
Qed.

Lemma callPrefixAt_None :
  forall content i,
    slice content i (i + 8) <> "gox.Sql(" -> callPrefixAt content i = None.
Proof.
  intros content i H. destruct (callPrefixAt content i) as [n|] eqn:Hc; [|reflexivity].
  apply callPrefixAt_Some in Hc as [_ Hc]. contradiction.
Qed.


Lemma findSQLBlocks_loop_acc :
  forall fuel content i blocks,
    findSQLBlocks_loop fuel content i blocks
    = blocks ++ findSQLBlocks_loop fuel content i [].
Proof.
  induction fuel as [|fuel IH]; intros content i blocks; simpl.
  - now rewrite app_nil_r.
  - destruct (i <? String.length content); [|now rewrite app_nil_r].
    destruct (isByte (byteAt content i) DQUOTE); [apply IH|].
    destruct (callPrefixAt content i) as [n|]; [|apply IH].
    destruct (callAt content i n) as [info|i']; [|apply IH].
    rewrite IH, (IH _ _ ([] ++ [info])), app_assoc. reflexivity.
Qed.

(** The scan over bytes that begin neither a string literal nor a call. *)
Lemma findSQLBlocks_loop_run :
  forall content m fuel i blocks,
    (forall k, k < m ->
       i + k < String.length content
       /\ isByte (byteAt content (i + k)) DQUOTE = false
       /\ slice content (i + k) (i + k + 8) <> "gox.Sql(") ->
    findSQLBlocks_loop (m + fuel) content i blocks
    = findSQLBlocks_loop fuel content (i + m) blocks.
Proof.
  intros content. induction m as [|m IH]; intros fuel i blocks H.
  - rewrite Nat.add_0_r. reflexivity.
  - destruct (H 0 ltac:(lia)) as (Hlt & Hq & Hc). rewrite Nat.add_0_r in Hlt, Hq, Hc.
    cbn [Nat.add findSQLBlocks_loop].
    destruct (Nat.ltb_spec i (String.length content)) as [_|]; [|lia].
    rewrite Hq, (callPrefixAt_None _ _ Hc), IH.
    + f_equal. lia.
    + intros k Hk. specialize (H (S k) ltac:(lia)).
      replace (i + 1 + k) with (i + S k) by lia. exact H.
Qed.






Ltac norm_append :=
  repeat first [rewrite append_assoc | progress (cbn [append])]; reflexivity.
Ltac norm_length :=
  repeat first [rewrite length_append | progress (cbn [String.length append])]; lia.

Lemma byteAt_at_length :
  forall a c rest, byteAt (a ++ String c rest) (String.length a) = c.
Proof.
  intros. rewrite <- (Nat.add_0_r (String.length a)), byteAt_append_r. reflexivity.
Qed.







(** The second prefix is compared over 15 bytes and is never found. *)
Lemma runtime_Query_not_found :
  findSQLBlocks "x := runtime.Query(`SELECT 1`)" = [].
Proof. vm_compute. reflexivity. Qed.

(** ** Smart scope (C8) *)

Lemma byteAt_substring :
  forall s n m k, k < m -> byteAt (substring n m s) k = byteAt s (n + k).
Proof.
  intros s n m k Hk. unfold byteAt.
  rewrite substring_correct1 by exact Hk. now rewrite Nat.add_comm.
Qed.

Lemma byteAt_slice :
  forall s a b k, a + k < b -> byteAt (slice s a b) k = byteAt s (a + k).
Proof. intros. unfold slice. apply byteAt_substring. lia. Qed.

Lemma length_slice :
  forall s a b, a <= b -> b <= String.length s -> String.length (slice s a b) = b - a.
Proof. intros. unfold slice. apply length_substring. lia. Qed.

Lemma lineEnd_loop_ge :
  forall content fuel i, i <= lineEnd_loop fuel content i.
Proof.
  intros content. induction fuel as [|fuel IH]; intros i; simpl; [lia|].
  destruct (_ && _); [|lia]. specialize (IH (i + 1)). lia.
Qed.

Lemma lineEnd_loop_le :
  forall content fuel i,
    i <= String.length content -> lineEnd_loop fuel content i <= String.length content.
Proof.
  intros content. induction fuel as [|fuel IH]; intros i Hi; simpl; [lia|].
  destruct (Nat.ltb_spec i (String.length content)); simpl; [|lia].
  destruct (_ && _); [|lia]. apply IH. lia.
Qed.

(** On a line without [{] the scan of the [@] line finds no brace and
    stops where the line ends. *)
Lemma atLineScan_no_brace :
  forall content i fuel le,
    (forall k, le <= k -> k < lineEnd_loop fuel content le ->
       isByte (byteAt content k) "{" = false) ->
    atLineScan_loop fuel content i le None = (lineEnd_loop fuel content le, None).
Proof.
  intros content i. induction fuel as [|fuel IH]; intros le H; simpl in *; [reflexivity|].
  destruct ((le <? String.length content) && negb (isByte (byteAt content le) LF)
            && negb (isByte (byteAt content le) CR)) eqn:Hg; [|reflexivity].
  pose proof (lineEnd_loop_ge content fuel (le + 1)) as Hge.
  rewrite (H le) by lia. apply IH.
  intros k Hk1 Hk2. apply H; lia.
Qed.

(** [strings.Contains] finds a byte that is there. *)
Lemma Index_byte :
  forall s p c,
    p < String.length s -> byteAt s p = c -> Index s (String c "") <> None.
Proof.
  induction s as [|a r IH]; intros p c Hp Hc; simpl in Hp; [lia|].
  cbn [Index].
  destruct (String.prefix (String c "") (String a r)) eqn:Hpre; [discriminate|].
  destruct p as [|p].
  - exfalso. rewrite byteAt_cons_0 in Hc. subst a. simpl in Hpre.
    destruct (ascii_dec c c); [|contradiction]. destruct r; discriminate.
  - rewrite byteAt_cons_S in Hc. specialize (IH p c ltac:(lia) Hc).
    destruct (Index r (String c "")); [discriminate | contradiction].
Qed.

Lemma findControlStructureParen_loop_spec :
  forall content fuel lastParen i,
    (forall p, lastParen = Some p -> controlParenAt content p) ->
    forall p,
      findControlStructureParen_loop fuel content lastParen i = Some p ->
      controlParenAt content p.
Proof.
  intros content. induction fuel as [|fuel IH]; intros lastParen i Hl p H; simpl in H.
  - apply Hl. exact H.
  - destruct (Nat.ltb_spec i (String.length content)) as [Hi|]; [|apply Hl; exact H].
    destruct (isByte (byteAt content i) "(") eqn:Hc.
    + destruct (isFollowingIdentifier content i) eqn:Hf.
      * exact (IH _ _ Hl p H).
      * refine (IH _ _ _ p H). intros p' Hp'. injection Hp' as <-.
        repeat split; [exact Hi | now apply isByte_eq | exact Hf].
    + destruct (isQuote (byteAt content i)); exact (IH _ _ Hl p H).
Qed.

Lemma findControlStructureParen_spec :
  forall content p,
    findControlStructureParen content = Some p -> controlParenAt content p.
Proof.
  intros content p H.
  apply (findControlStructureParen_loop_spec content (S (String.length content)) None 0);
    [discriminate | exact H].
Qed.

(** Where [findMatchingParen] and [findMatchingBrace] stop there is a
    closing byte. *)
Lemma findMatching_loop_closed :
  forall op cl content fuel i, findMatching_loop op cl fuel content 0 i = (0, i).
Proof.
  intros. destruct fuel; simpl; [reflexivity|]. now rewrite andb_false_r.
Qed.

Lemma skipStringLiteral_loop_ge :
  forall content quote fuel i, i <= skipStringLiteral_loop fuel content quote i.
Proof.
  intros content quote. induction fuel as [|fuel IH]; intros i; simpl; [lia|].
  destruct (_ && _); [|lia].
  destruct (_ && _); [specialize (IH (i + 1 + 1)) | specialize (IH (i + 1))]; lia.
Qed.

Lemma skipStringLiteral_ge :
  forall content pos quote, pos <= skipStringLiteral content pos quote.
Proof.
  intros. unfold skipStringLiteral. destruct (_ || _); [lia|].
  pose proof (skipStringLiteral_loop_ge content quote (String.length content) (pos + 1)).
  destruct (_ <? _); lia.
Qed.

Lemma findMatching_loop_zero :
  forall op cl content fuel count i i',
    0 < count ->
    findMatching_loop op cl fuel content count i = (0, i') ->
    i < i' /\ i' <= String.length content /\ byteAt content (i' - 1) = cl.
Proof.
  intros op cl content. induction fuel as [|fuel IH]; intros count i i' Hc H; simpl in H.
  - injection H as -> _. lia.
  - destruct (Nat.ltb_spec i (String.length content)) as [Hi|];
      [|injection H as -> _; lia].
    destruct (Nat.ltb_spec 0 count) as [_|]; [|lia]. simpl in H.
    destruct (isByte (byteAt content i) op) eqn:Ho.
    + apply IH in H; [|lia]. intuition lia.
    + destruct (isByte (byteAt content i) cl) eqn:Hcl.
      * destruct (Nat.eq_dec count 1) as [->|Hne].
        -- simpl in H. rewrite findMatching_loop_closed in H. injection H as <-.
           rewrite Nat.add_sub. repeat split; [lia | lia | now apply isByte_eq].
        -- apply IH in H; [|lia]. intuition lia.
      * destruct (isQuote (byteAt content i)).
        -- pose proof (skipStringLiteral_ge content i (byteAt content i)).
           apply IH in H; [|lia]. intuition lia.
        -- apply IH in H; [|lia]. intuition lia.
Qed.

Lemma findMatching_spec :
  forall op cl content start inner q,
    findMatching op cl content start = Some (inner, q) ->
    start <= q /\ q < String.length content /\ byteAt content q = cl
    /\ inner = slice content start q.
Proof.
  intros op cl content start inner q H. unfold findMatching in H.
  destruct (findMatching_loop op cl (S (String.length content)) content 1 start)
    as [count i'] eqn:Hl.
  destruct (Nat.eqb_spec count 0) as [->|]; [|discriminate].
  injection H as <- <-.
  apply findMatching_loop_zero in Hl as (H0 & Hle & Hb); [|lia].
  repeat split; [lia | lia | exact Hb].
Qed.

Lemma atLineScan_tail :
  forall content i,
    i + 1 <= String.length content ->
    allBytes notBrace (lineTail content i) = true ->
    atLineScan_loop (String.length content) content i (i + 1) None
    = (lineEndFrom content (i + 1), None).
Proof.
  intros content i Hi Hb. apply atLineScan_no_brace.
  fold (lineEndFrom content (i + 1)). intros k Hk1 Hk2.
  pose proof (lineEnd_loop_le content (String.length content) (i + 1) Hi) as Hle.
  fold (lineEndFrom content (i + 1)) in Hle.
  replace k with (i + 1 + (k - (i + 1))) by lia.
  rewrite <- (byteAt_slice content (i + 1) (lineEndFrom content (i + 1))) by lia.
  fold (lineTail content i).
  apply (allBytes_byteAt notBrace _ (k - (i + 1))) in Hb.
  - now apply negb_true_iff in Hb.
  - unfold lineTail. rewrite length_slice by lia. lia.
Qed.

Lemma trySmartScopeProcessing_tail :
  forall content i,
    trySmartScopeProcessing true i (lineTail content i) (sliceFrom content (i + 1)) content
    = match smartScopeEnd content i with
      | Some e => mkSmartScopeResult true
                    (i + 1 + match findControlStructureParen (lineTail content i) with
                             | Some p =>
                                 match findMatchingParen (sliceFrom content (i + 1)) (p + 1) with
                                 | Some (_, q) => q
                                 | None => 0
                                 end
                             | None => 0
                             end)
                    e (slice content (i + 1) e)
      | None => noSmartScope
      end.
Proof.
  intros content i. unfold trySmartScopeProcessing, smartScopeEnd.
  destruct (findControlStructureParen (lineTail content i)) as [p|] eqn:Hp.
  - assert (Hc : Contains (lineTail content i) "(" = true).
    { apply findControlStructureParen_spec in Hp as (Hlt & Hb & _).
      unfold Contains. pose proof (Index_byte _ _ _ Hlt Hb) as Hi.
      destruct (Index (lineTail content i) "("); [reflexivity | contradiction]. }
    rewrite Hc. simpl.
    destruct (findMatchingParen (sliceFrom content (i + 1)) (p + 1)) as [[inner q]|];
      [|reflexivity].
    destruct (Nat.ltb_spec q (String.length (lineTail content i)));
      destruct (Nat.leb_spec (String.length (lineTail content i)) q); try lia; reflexivity.
  - destruct (negb true || negb (Contains (lineTail content i) "(")); reflexivity.
Qed.

(** The scenario of the two-line condition: the [@] line is promoted to one
    AtBlock token that runs to the end of the second line. *)
Lemma smart_scope_two_line_condition :
  tokenizeSQLContent true twoLineCondition
  = [mkToken SQLTokenAtBlock ("if (a ||" ++ nl ++ "       b) { X }") 0 25;
     mkToken SQLTokenText nl 25 25].
Proof. vm_compute. reflexivity. Qed.

(** Against C8 as it is stated: on the first line of [twoParens] the [(]
    at index 3 of the tail follows a space, and its [)] is on the second
    line (index 17 of the text after the [@], the tail having 12 bytes);
    the rule looks at the last such parenthesis only, the one at index 9,
    which closes on the line, and there is no promotion: the tokenizer emits
    an AtLine token. *)
Lemma C8_counterexample :
  controlParenAt (lineTail twoParens 0) 3
  /\ findMatchingParen (sliceFrom twoParens 1) (3 + 1)
     = Some (("a || (b)" ++ nl ++ "   c")%string, 17)
  /\ String.length (lineTail twoParens 0) = 12
  /\ tokenizeSQLContent true twoParens
     = [mkToken SQLTokenAtLine "if (a || (b)" 0 13;
        mkToken SQLTokenText nl 13 13;
        mkToken SQLTokenText (nl ++ "   c) ") 13 20;
        mkToken SQLTokenCodeBlock " X " 20 25].
Proof.
  split; [repeat split; vm_compute; try reflexivity; lia|].
  repeat split; vm_compute; reflexivity.
Qed.

(** When the line holds a [{] before the closing parenthesis, the tail
    handed to the rule is cut before the brace, and a parenthesis that
    closes on the same line counts as closing beyond it. *)
Lemma brace_cuts_the_tail :
  tokenizeSQLContent true "@if (a == T{1}) { X }"
  = [mkToken SQLTokenAtBlock "if (a == T{1}) { X }" 0 21;
     mkToken SQLTokenText nl 21 21].
Proof. vm_compute. reflexivity. Qed.

(** ** The tokenizer ends within its fuel *)

Lemma atLineScan_loop_bounds :
  forall content i fuel le brace le' brace',
    atLineScan_loop fuel content i le brace = (le', brace') ->
    le <= le'
    /\ (forall b, brace' = Some b -> brace = Some b \/ le <= b).
Proof.
  intros content i. induction fuel as [|fuel IH]; intros le brace le' brace' H; simpl in H.
  - injection H as <- <-. split; [lia | auto].
  - destruct (_ && _).
    + apply IH in H as [Hle Hb]. split; [lia|].
      intros b Hb'. destruct (Hb b Hb') as [Hs|Hs]; [|right; lia].
      destruct brace as [b0|]; [left; exact Hs|].
      destruct (isByte (byteAt content le) "{"); [|discriminate].
      destruct (_ && _); [|discriminate]. injection Hs as <-. right. lia.
    + injection H as <- <-. split; [lia | auto].
Qed.

Lemma braceSigil_advances :
  forall ty content i ts open toks,
    i < open -> advances i (braceSigil ty content i ts open toks).
Proof.
  intros ty content i ts open toks Hi. unfold braceSigil.
  destruct (findMatchingBrace content open) as [[inner e]|] eqn:Hm; simpl; [|exact I].
  apply findMatching_spec in Hm as (Hs & _). lia.
Qed.

Lemma atLine_moves :
  forall smart content i ts toks, moves i (atLine smart content i ts toks).
Proof.
  intros smart content i ts toks. unfold atLine.
  destruct (atLineScan_loop (String.length content) content i (i + 1) None)
    as [lineEnd brace] eqn:Hscan.
  apply atLineScan_loop_bounds in Hscan as [Hle Hb].
  unfold trySmartScopeProcessing.
  destruct (negb smart || _); cbn [ShouldHandle noSmartScope].
  - destruct brace as [b|]; simpl; [|lia].
    destruct (Hb b eq_refl) as [|]; [discriminate | lia].
  - destruct (findControlStructureParen _) as [p|]; cbn [ShouldHandle noSmartScope].
    + destruct (findMatchingParen _ _) as [[inner q]|]; cbn [ShouldHandle noSmartScope].
      * destruct (q <? _); cbn [ShouldHandle noSmartScope LineEndPos].
        -- destruct brace as [b|]; simpl; [|lia].
           destruct (Hb b eq_refl) as [|]; [discriminate | lia].
        -- simpl. unfold lineEndFrom.
           pose proof (lineEnd_loop_ge content (String.length content) (i + 1 + q + 1)).
           lia.
      * destruct brace as [b|]; simpl; [|lia].
        destruct (Hb b eq_refl) as [|]; [discriminate | lia].
    + destruct brace as [b|]; simpl; [|lia].
      destruct (Hb b eq_refl) as [|]; [discriminate | lia].
Qed.

Lemma orElse_moves :
  forall i r k,
    advances i r -> (forall toks, moves i (k toks)) -> moves i (orElse r k).
Proof. intros i [i' ts toks|toks] k Hr Hk; simpl; [exact Hr | apply Hk]. Qed.

Lemma orElse_advances :
  forall i r k,
    advances i r -> (forall toks, advances i (k toks)) -> advances i (orElse r k).
Proof. intros i [i' ts toks|toks] k Hr Hk; simpl; [exact Hr | apply Hk]. Qed.

Lemma moves_advances : forall i r, moves i r -> advances i r.
Proof. intros i [i' ts toks|toks]; simpl; [auto | contradiction]. Qed.

(** Every turn of the loop moves the cursor forward. *)
Lemma tokenizeStep_moves :
  forall smart content i ts toks, moves i (tokenizeStep smart content i ts toks).
Proof.
  intros smart content i ts toks. unfold tokenizeStep. cbv zeta.
  apply orElse_moves.
  - destruct (i + 1 <? String.length content); [|exact I].
    apply orElse_advances.
    + destruct (_ && _); [apply braceSigil_advances; lia | exact I].
    + intros toks1. apply orElse_advances.
      * destruct (_ && _); [apply braceSigil_advances; lia | exact I].
      * intros toks2. destruct (isByte (byteAt content i) "@"); [|exact I].
        destruct (_ && _); [apply braceSigil_advances; lia|].
        destruct (_ && _); [apply braceSigil_advances; lia|].
        apply moves_advances, atLine_moves.
  - intros toks1. apply orElse_moves.
    + destruct (isByte (byteAt content i) "{"); [|exact I].
      destruct (_ || _); [apply braceSigil_advances; lia | exact I].
    + intros toks2. simpl. lia.
Qed.

Lemma tokenize_loop_fuel :
  forall smart content fuel1 fuel2 i ts toks,
    String.length content - i < fuel1 ->
    String.length content - i < fuel2 ->
    tokenize_loop fuel1 smart content i ts toks
    = tokenize_loop fuel2 smart content i ts toks.
Proof.
  intros smart content. induction fuel1 as [|fuel1 IH]; intros fuel2 i ts toks H1 H2; [lia|].
  destruct fuel2 as [|fuel2]; [lia|]. simpl.
  destruct (Nat.ltb_spec i (String.length content)) as [Hi|]; [|reflexivity].
  pose proof (tokenizeStep_moves smart content i ts toks) as Hm.
  destruct (tokenizeStep smart content i ts toks) as [i' ts' toks'|]; simpl in Hm;
    [|contradiction].
  apply IH; lia.
Qed.

(** ** The call finder ends within its fuel *)

Lemma skipCallBlank_loop_ge :
  forall content fuel j, j <= skipCallBlank_loop fuel content j.
Proof.
  intros content. induction fuel as [|fuel IH]; intros j; simpl; [lia|].
  destruct (_ && _); [specialize (IH (j + 1))|]; lia.
Qed.

Lemma skipStars_loop_ge :
  forall content fuel j, j <= skipStars_loop fuel content j.
Proof.
  intros content. induction fuel as [|fuel IH]; intros j; simpl; [lia|].
  destruct (_ && _); [specialize (IH (j + 1))|]; lia.
Qed.

Lemma commentEnd_loop_ge :
  forall content fuel j, j <= commentEnd_loop fuel content j.
Proof.
  intros content. induction fuel as [|fuel IH]; intros j; simpl; [lia|].
  destruct (_ && _); [specialize (IH (j + 1))|]; lia.
Qed.

Lemma findMatchingQuote_loop_ge :
  forall content quoteChar isRawString fuel i e,
    findMatchingQuote_loop fuel content quoteChar isRawString i = Some e -> i <= e.
Proof.
  intros content q raw. induction fuel as [|fuel IH]; intros i e H; simpl in H;
    [discriminate|].
  destruct (i <? String.length content); [|discriminate].
  destruct (isByte (byteAt content i) q); [injection H as <-; lia|].
  apply IH in H. destruct (_ && _); lia.
Qed.

Lemma skipStringLiteral_gt :
  forall content pos quote,
    pos < String.length content -> isByte (byteAt content pos) quote = true ->
    pos < skipStringLiteral content pos quote.
Proof.
  intros content pos quote Hlt Hq. unfold skipStringLiteral. rewrite Hq.
  destruct (Nat.leb_spec (String.length content) pos); [lia|]. simpl.
  pose proof (skipStringLiteral_loop_ge content quote (String.length content) (pos + 1)).
  destruct (_ <? _); lia.
Qed.

(** Whatever the finder does at a call prefix, it goes on further right. *)
Lemma callAt_moves :
  forall content i funcLen,
    match callAt content i funcLen with
    | inl info => i < blockEnd info
    | inr i' => i < i'
    end.
Proof.
  intros content i funcLen. unfold callAt. cbv zeta.
  pose proof (skipCallBlank_loop_ge content (String.length content) (i + funcLen)) as Hj.
  fold (skipCallBlank content (i + funcLen)) in Hj.
  set (j := skipCallBlank content (i + funcLen)) in *.
  destruct (String.length content <=? j); [lia|].
  destruct (_ || _).
  - destruct (findMatchingQuote content (j + 1) _ _) as [sqlEnd|] eqn:Hq; [|lia].
    apply findMatchingQuote_loop_ge in Hq.
    pose proof (skipCallBlank_loop_ge content (String.length content) (sqlEnd + 1)) as Hc.
    fold (skipCallBlank content (sqlEnd + 1)) in Hc.
    destruct (_ || _); simpl; lia.
  - destruct (_ && _); [|lia].
    pose proof (skipStars_loop_ge content (String.length content) (j + 2)) as Hs.
    set (cs := skipStars_loop (String.length content) content (j + 2)) in *.
    pose proof (commentEnd_loop_ge content (String.length content) cs) as He.
    set (ce := commentEnd_loop (String.length content) content cs) in *.
    destruct (_ <=? ce); [lia|].
    pose proof (skipCallBlank_loop_ge content (String.length content) (ce + 2)) as Hc.
    fold (skipCallBlank content (ce + 2)) in Hc.
    destruct (_ || _); simpl; lia.
Qed.


(** ** The skipper primitives end within their fuel *)

Lemma skipStringLiteral_loop_fuel :
  forall content quote fuel1 fuel2 i,
    String.length content - i <= fuel1 ->
    String.length content - i <= fuel2 ->
    skipStringLiteral_loop fuel1 content quote i
    = skipStringLiteral_loop fuel2 content quote i.
Proof.
  intros content quote. induction fuel1 as [|fuel1 IH]; intros fuel2 i H1 H2.
  - destruct fuel2 as [|fuel2]; [reflexivity|]. simpl.
    destruct (Nat.ltb_spec i (String.length content)); [lia | reflexivity].
  - destruct fuel2 as [|fuel2]; simpl.
    + destruct (Nat.ltb_spec i (String.length content)); [lia | reflexivity].
    + destruct (_ && _); [|reflexivity]. destruct (_ && _); apply IH; lia.
Qed.

Lemma lineEnd_loop_fuel :
  forall content fuel1 fuel2 i,
    String.length content - i <= fuel1 ->
    String.length content - i <= fuel2 ->
    lineEnd_loop fuel1 content i = lineEnd_loop fuel2 content i.
Proof.
  intros content. induction fuel1 as [|fuel1 IH]; intros fuel2 i H1 H2.
  - destruct fuel2 as [|fuel2]; [reflexivity|]. simpl.
    destruct (Nat.ltb_spec i (String.length content)); [lia | reflexivity].
  - destruct fuel2 as [|fuel2]; simpl.
    + destruct (Nat.ltb_spec i (String.length content)); [lia | reflexivity].
    + destruct (_ && _); [|reflexivity]. apply IH; lia.
Qed.

Lemma findMatching_loop_fuel :
  forall op cl content fuel1 fuel2 count i,
    String.length content - i <= fuel1 ->
    String.length content - i <= fuel2 ->
    findMatching_loop op cl fuel1 content count i
    = findMatching_loop op cl fuel2 content count i.
Proof.
  intros op cl content. induction fuel1 as [|fuel1 IH]; intros fuel2 count i H1 H2.
  - destruct fuel2 as [|fuel2]; [reflexivity|]. simpl.
    destruct (Nat.ltb_spec i (String.length content)); [lia | reflexivity].
  - destruct fuel2 as [|fuel2]; simpl.
    + destruct (Nat.ltb_spec i (String.length content)); [lia | reflexivity].
    + destruct (Nat.ltb_spec i (String.length content)) as [Hi|]; [|reflexivity].
      destruct (0 <? count); [|reflexivity]. simpl.
      destruct (isByte (byteAt content i) op); [apply IH; lia|].
      destruct (isByte (byteAt content i) cl); [apply IH; lia|].
      destruct (isQuote (byteAt content i)) eqn:Hq; [|apply IH; lia].
      pose proof (skipStringLiteral_gt content i (byteAt content i) Hi
                    (isByte_refl _)).
      apply IH; lia.
Qed.

(** ** The blocks of a file *)

Lemma callAt_block :
  forall content i info,
    callAt content i 8 = inl info ->
    blockStart info = i
    /\ i < blockEnd info
    /\ blockEnd info <= String.length content
    /\ byteAt content (blockEnd info - 1) = ")"%char
    /\ exists a e,
         i + 8 < a /\ a <= e /\ e + 1 < blockEnd info
         /\ blockContent info = slice content a e.
Proof.
  intros content i info. unfold callAt. cbv zeta.
  pose proof (skipCallBlank_loop_ge content (String.length content) (i + 8)) as Hj.
  fold (skipCallBlank content (i + 8)) in Hj.
  set (j := skipCallBlank content (i + 8)) in *.
  destruct (String.length content <=? j); [discriminate|].
  destruct (_ || _).
  - destruct (findMatchingQuote content (j + 1) _ _) as [sqlEnd|] eqn:Hq; [|discriminate].
    apply findMatchingQuote_loop_ge in Hq.
    pose proof (skipCallBlank_loop_ge content (String.length content) (sqlEnd + 1)) as Hc.
    fold (skipCallBlank content (sqlEnd + 1)) in Hc.
    set (cp := skipCallBlank content (sqlEnd + 1)) in *.
    destruct (Nat.leb_spec (String.length content) cp) as [|Hlt]; [discriminate|].
    destruct (isByte (byteAt content cp) ")") eqn:Hp; [|discriminate].
    simpl. intros H. injection H as <-. simpl.
    rewrite Nat.add_sub. apply isByte_eq in Hp.
    repeat split; try lia; try exact Hp.
    exists (j + 1), sqlEnd. repeat split; lia.
  - destruct (_ && _); [|discriminate].
    pose proof (skipStars_loop_ge content (String.length content) (j + 2)) as Hs.
    set (cs := skipStars_loop (String.length content) content (j + 2)) in *.
    pose proof (commentEnd_loop_ge content (String.length content) cs) as He.
    set (ce := commentEnd_loop (String.length content) content cs) in *.
    destruct (_ <=? ce); [discriminate|].
    pose proof (skipCallBlank_loop_ge content (String.length content) (ce + 2)) as Hc.
    fold (skipCallBlank content (ce + 2)) in Hc.
    set (cp := skipCallBlank content (ce + 2)) in *.
    destruct (Nat.leb_spec (String.length content) cp) as [|Hlt]; [discriminate|].
    destruct (isByte (byteAt content cp) ")") eqn:Hp; [|discriminate].
    simpl. intros H. injection H as <-. simpl.
    rewrite Nat.add_sub. apply isByte_eq in Hp.
    repeat split; try lia; try exact Hp.
    exists cs, ce. repeat split; lia.
Qed.

Lemma blocksInOrder_from :
  forall len from from' blocks,
    from <= from' -> blocksInOrder len from' blocks = true ->
    blocksInOrder len from blocks = true.
Proof.
  intros len from from' [|b rest] Hle H; simpl in *; [reflexivity|].
  repeat (apply andb_true_iff in H; destruct H as [H ?]).
  apply Nat.leb_le in H.
  repeat (apply andb_true_iff; split); try assumption. apply Nat.leb_le. lia.
Qed.

Lemma findSQLBlocks_loop_in_order :
  forall content fuel i,
    blocksInOrder (String.length content) i (findSQLBlocks_loop fuel content i []) = true.
Proof.
  intros content. induction fuel as [|fuel IH]; intros i; simpl; [reflexivity|].
  destruct (i <? String.length content); [|reflexivity].
  destruct (isByte (byteAt content i) DQUOTE).
  - apply (blocksInOrder_from _ _ (skipStringLiteral content i DQUOTE));
      [apply skipStringLiteral_ge | apply IH].
  - destruct (callPrefixAt content i) as [n|] eqn:Hn.
    + apply callPrefixAt_Some in Hn as [-> _].
      destruct (callAt content i 8) as [info|i'] eqn:Hc.
      * apply callAt_block in Hc as (Hs & Hlt & Hle & _).
        rewrite findSQLBlocks_loop_acc. simpl.
        rewrite Hs, IH, Nat.leb_refl, andb_true_r. simpl.
        apply andb_true_iff. split; [apply Nat.ltb_lt | apply Nat.leb_le]; lia.
      * pose proof (callAt_moves content i 8) as Hm. rewrite Hc in Hm.
        apply (blocksInOrder_from _ _ i'); [lia | apply IH].
    + apply (blocksInOrder_from _ _ (i + 1)); [lia | apply IH].
Qed.

(** X1. The call sites that [findSQLBlocks] reports lie within the file,
    each one non-empty, in the order of the text and without overlap: every
    block begins at or after the end of the block before it. *)
Theorem findSQLBlocks_in_order :
  forall content,
    blocksInOrder (String.length content) 0 (findSQLBlocks content) = true.
Proof. intros. apply findSQLBlocks_loop_in_order. Qed.

Lemma findSQLBlocks_loop_callSites :
  forall content fuel i,
    Forall (callSite content) (findSQLBlocks_loop fuel content i []).
Proof.
  intros content. induction fuel as [|fuel IH]; intros i; simpl; [constructor|].
  destruct (i <? String.length content); [|constructor].
  destruct (isByte (byteAt content i) DQUOTE); [apply IH|].
  destruct (callPrefixAt content i) as [n|] eqn:Hn; [|apply IH].
  apply callPrefixAt_Some in Hn as [-> Hp].
  destruct (callAt content i 8) as [info|i'] eqn:Hc; [|apply IH].
  apply callAt_block in Hc as (Hs & Hlt & Hle & Hb & a & e & Ha & Hae & He & Hcont).
  rewrite findSQLBlocks_loop_acc. simpl. constructor; [|apply IH].
  unfold callSite. rewrite Hs. repeat split; try assumption.
  exists a, e. auto.
Qed.

(** X2. Every call site reported begins with the bytes [gox.Sql(] and ends
    with a closing parenthesis inside the file, and its body is a run of the
    file that lies strictly between the two. *)
Theorem findSQLBlocks_call_sites :
  forall content, Forall (callSite content) (findSQLBlocks content).
Proof. intros. apply findSQLBlocks_loop_callSites. Qed.

(** An occurrence of [p] is found by [strings.Index]. *)
Lemma Index_occurrence :
  forall p s i, substring i (String.length p) s = p -> Index s p <> None.
Proof.
  intros p. induction s as [|a r IH]; intros i H.
  - assert (Hp : p = "").
    { destruct i, (String.length p); simpl in H; congruence. }
    subst p. simpl. discriminate.
  - cbn [Index].
    destruct (String.prefix p (String a r)) eqn:Hpre; [discriminate|].
    destruct i as [|i].
    + apply prefix_correct in H. congruence.
    + simpl in H. specialize (IH i H).
      destruct (Index r p); [discriminate | contradiction].
Qed.

Lemma no_prefix_anywhere :
  forall content,
    Contains content "gox.Sql(" = false ->
    forall i, callPrefixAt content i = None.
Proof.
  intros content H i. apply callPrefixAt_None. intros Hs.
  unfold Contains in H.
  pose proof (Index_occurrence "gox.Sql(" content i) as Ho.
  unfold slice in Hs. rewrite Nat.add_comm, Nat.add_sub in Hs.
  specialize (Ho Hs). destruct (Index content "gox.Sql("); [discriminate | contradiction].
Qed.

Lemma findSQLBlocks_loop_none :
  forall content,
    (forall i, callPrefixAt content i = None) ->
    forall fuel i, findSQLBlocks_loop fuel content i [] = [].
Proof.
  intros content H. induction fuel as [|fuel IH]; intros i; simpl; [reflexivity|].
  destruct (i <? String.length content); [|reflexivity].
  destruct (isByte (byteAt content i) DQUOTE); [apply IH|].
  rewrite H. apply IH.
Qed.

(** X3. A file in which the bytes [gox.Sql(] do not occur has no call site,
    and [preprocessFile] returns it as it is, whatever the emitter would
    do. *)
Theorem file_without_call_unchanged :
  forall ParseExpr format_Node Quote fuel src,
    Contains src "gox.Sql(" = false ->
    findSQLBlocks src = []
    /\ preprocessFile ParseExpr format_Node Quote fuel src = Some src.
Proof.
  intros PE fN Q fuel src H.
  assert (Hb : findSQLBlocks src = []).
  { apply findSQLBlocks_loop_none, no_prefix_anywhere, H. }
  split; [exact Hb|]. unfold preprocessFile. rewrite Hb. reflexivity.
Qed.

Lemma file_without_call_unchanged_witness :
  findSQLBlocks "package p; var q = Sql(`SELECT 1`)" = []
  /\ preprocessFile Sample.parseIdent Sample.noFormat Sample.quoteASCII 0
       "package p; var q = Sql(`SELECT 1`)"
     = Some "package p; var q = Sql(`SELECT 1`)".
Proof.
  apply (file_without_call_unchanged Sample.parseIdent Sample.noFormat Sample.quoteASCII 0
           "package p; var q = Sql(`SELECT 1`)").
  vm_compute. reflexivity.
Defined.

(** *** Replacing from the back *)

Lemma substring_zero : forall s n, substring n 0 s = "".
Proof. induction s as [|c s IH]; intros [|n]; simpl; auto. Qed.

Lemma substring_append_within :
  forall a b n m,
    n + m <= String.length a -> substring n m (a ++ b) = substring n m a.
Proof.
  induction a as [|c a IH]; intros b n m H; simpl in *.
  - replace n with 0 by lia. replace m with 0 by lia. destruct b; reflexivity.
  - destruct n as [|n].
    + destruct m as [|m]; [reflexivity|]. rewrite IH by lia. reflexivity.
    + apply IH. lia.
Qed.

Lemma slice_append_l :
  forall a b i j, j <= String.length a -> slice (a ++ b) i j = slice a i j.
Proof.
  intros a b i j Hj. unfold slice.
  destruct (Nat.le_gt_cases i j) as [Hij|Hij].
  - apply substring_append_within. lia.
  - replace (j - i) with 0 by lia. now rewrite !substring_zero.
Qed.

Lemma substring_rest_append :
  forall a b n,
    n <= String.length a ->
    substring n (String.length (a ++ b) - n) (a ++ b)
    = (substring n (String.length a - n) a ++ b)%string.
Proof.
  induction a as [|c a IH]; intros b n H; simpl in *.
  - replace n with 0 by lia. rewrite Nat.sub_0_r. apply substring_all.
  - destruct n as [|n]; simpl.
    + rewrite !substring_all. reflexivity.
    + apply IH. lia.
Qed.

Lemma sliceFrom_append_l :
  forall a b i, i <= String.length a -> sliceFrom (a ++ b) i = (sliceFrom a i ++ b)%string.
Proof. intros. unfold sliceFrom. now apply substring_rest_append. Qed.

Lemma slice_sliceFrom :
  forall s m, m <= String.length s -> (slice s 0 m ++ sliceFrom s m)%string = s.
Proof.
  unfold slice, sliceFrom. induction s as [|c s IH]; intros m Hm; simpl in *.
  - replace m with 0 by lia. reflexivity.
  - destruct m as [|m]; simpl; [rewrite substring_all; reflexivity|].
    specialize (IH m ltac:(lia)). rewrite Nat.sub_0_r in IH.
    rewrite IH. reflexivity.
Qed.

Lemma slice_slice :
  forall s m i j, j <= m -> m <= String.length s -> slice (slice s 0 m) i j = slice s i j.
Proof.
  intros s m i j Hj Hm.
  rewrite <- (slice_append_l (slice s 0 m) (sliceFrom s m) i j).
  - now rewrite slice_sliceFrom.
  - rewrite length_slice by lia. lia.
Qed.

Lemma sliceFrom_slice :
  forall s m i, m <= String.length s -> sliceFrom (slice s 0 m) i = slice s i m.
Proof.
  intros s m i Hm. unfold sliceFrom. rewrite length_slice by lia. rewrite Nat.sub_0_r.
  change (substring i (m - i) (slice s 0 m)) with (slice (slice s 0 m) i m).
  apply slice_slice; lia.
Qed.

Lemma sliceFrom_zero : forall s, sliceFrom s 0 = s.
Proof. intros. unfold sliceFrom. rewrite Nat.sub_0_r. apply substring_all. Qed.

Lemma blocksInOrder_snoc :
  forall len bs b from,
    blocksInOrder len from (bs ++ [b]) = true ->
    blocksInOrder (blockStart b) from bs = true
    /\ from <= blockStart b /\ blockStart b < blockEnd b /\ blockEnd b <= len.
Proof.
  intros len. induction bs as [|x bs IH]; intros b from H; simpl in H.
  - rewrite andb_true_r in H.
    repeat (apply andb_true_iff in H; destruct H as [H ?]).
    apply Nat.leb_le in H. apply Nat.ltb_lt in H1. apply Nat.leb_le in H0.
    simpl. repeat split; lia.
  - apply andb_true_iff in H as [H Hrest].
    repeat (apply andb_true_iff in H; destruct H as [H ?]).
    apply IH in Hrest as (Hb & Hx & Hlt & Hle).
    apply Nat.leb_le in H. apply Nat.ltb_lt in H1.
    simpl. rewrite Hb, andb_true_r.
    repeat split; try lia.
    repeat (apply andb_true_iff; split);
      [apply Nat.leb_le | apply Nat.ltb_lt | apply Nat.leb_le]; lia.
Qed.

Lemma replacements_length :
  forall gen c bs rs, replacements gen c bs = Some rs -> List.length rs = List.length bs.
Proof.
  intros gen c. induction bs as [|b bs IH]; intros rs H; simpl in H.
  - injection H as <-. reflexivity.
  - destruct (gen _ _); [|discriminate].
    destruct (replacements gen c bs) as [rs'|]; [|discriminate].
    injection H as <-. simpl. f_equal. apply IH. reflexivity.
Qed.

Lemma replacements_snoc :
  forall gen c bs b,
    replacements gen c (bs ++ [b])
    = match gen (blockContent b) ("__gox_sql_" ++ itoa c)%string,
            replacements gen (c + 1) bs with
      | Some r, Some rs => Some (rs ++ [r])
      | _, _ => None
      end.
Proof.
  intros gen c. induction bs as [|x bs IH]; intros b; simpl.
  - rewrite Nat.add_0_r. destruct (gen _ _); reflexivity.
  - rewrite IH, length_app. simpl.
    replace (c + (List.length bs + 1)) with (c + 1 + List.length bs) by lia.
    destruct (gen (blockContent x) _); destruct (gen (blockContent b) _);
      destruct (replacements gen (c + 1) bs); reflexivity.
Qed.

Lemma spliced_snoc :
  forall P bs b rs r from,
    blocksInOrder (String.length P) from (bs ++ [b]) = true ->
    List.length rs = List.length bs ->
    spliced P from (bs ++ [b]) (rs ++ [r])
    = (spliced (slice P 0 (blockStart b)) from bs rs ++ r
       ++ sliceFrom P (blockEnd b))%string.
Proof.
  intros P. induction bs as [|x bs IH]; intros b rs r from H Hl.
  - destruct rs; [|discriminate]. simpl in *.
    repeat (apply andb_true_iff in H; destruct H as [H ?]).
    apply Nat.leb_le in H1. apply Nat.ltb_lt in H2.
    rewrite sliceFrom_slice by lia. reflexivity.
  - destruct rs as [|r0 rs]; [discriminate|]. simpl in Hl.
    change ((x :: bs) ++ [b]) with (x :: (bs ++ [b])) in *.
    change ((r0 :: rs) ++ [r]) with (r0 :: (rs ++ [r])).
    cbn [spliced]. cbn [blocksInOrder] in H.
    apply andb_true_iff in H as [H Hrest].
    repeat (apply andb_true_iff in H; destruct H as [H ?]).
    apply Nat.ltb_lt in H1.
    pose proof (blocksInOrder_snoc _ _ _ _ Hrest) as (_ & Hx & Hlt & Hle).
    rewrite IH by (assumption || lia).
    rewrite slice_slice by lia.
    rewrite !append_assoc. reflexivity.
Qed.

Section Splice.

Variable ParseExpr : string -> option Expr.
Variable format_Node : Expr -> option string.
Variable Quote : string -> string.
Variable smart : bool.
Variable fuel : nat.

Lemma replaceBlocks_spliced :
  forall bs c P T,
    blocksInOrder (String.length P) 0 bs = true ->
    replaceBlocks ParseExpr format_Node Quote smart fuel (rev bs) c (P ++ T)
    = option_map (fun rs => (spliced P 0 bs rs ++ T)%string)
        (replacements (codeFor ParseExpr format_Node Quote smart fuel) c bs).
Proof.
  induction bs as [|b bs IH] using rev_ind; intros c P T H.
  - simpl. rewrite sliceFrom_zero. reflexivity.
  - rewrite rev_app_distr. cbn [rev app replaceBlocks].
    rewrite replacements_snoc.
    change (generateGoCodeForSQL ParseExpr format_Node Quote smart fuel
              (parseSQLBlock ParseExpr smart (blockContent b) ("__gox_sql_" ++ itoa c)))
      with (codeFor ParseExpr format_Node Quote smart fuel (blockContent b)
              ("__gox_sql_" ++ itoa c)%string).
    destruct (codeFor ParseExpr format_Node Quote smart fuel (blockContent b)
                ("__gox_sql_" ++ itoa c)) as [r|]; [|reflexivity].
    pose proof (blocksInOrder_snoc _ _ _ _ H) as (Hbs & _ & Hlt & Hle).
    rewrite slice_append_l by lia. rewrite sliceFrom_append_l by lia.
    rewrite IH by (rewrite length_slice by lia; rewrite Nat.sub_0_r; exact Hbs).
    destruct (replacements (codeFor ParseExpr format_Node Quote smart fuel) (c + 1) bs)
      as [rs|] eqn:Hr; [|reflexivity].
    cbn [option_map]. f_equal.
    rewrite spliced_snoc by (exact H || now apply replacements_length in Hr).
    rewrite !append_assoc. reflexivity.
Qed.

End Splice.

(** X4. [preprocessFile] replaces the call sites from the last to the
    first; what it returns is the file with each call site replaced, from
    left to right, by the code generated for its body, the text between the
    call sites unchanged.  The variable of a call site is numbered by the
    call sites that follow it in the file: the last one is [__gox_sql_0]. *)
Theorem preprocessFile_splices :
  forall ParseExpr format_Node Quote fuel src,
    preprocessFile ParseExpr format_Node Quote fuel src
    = option_map (spliced src 0 (findSQLBlocks src))
        (replacements
           (codeFor ParseExpr format_Node Quote (Contains src "gox:smart_scope") fuel)
           0 (findSQLBlocks src)).
Proof.
  intros PE fN Q fuel src. unfold preprocessFile.
  rewrite <- (append_nil_r src) at 3.
  rewrite replaceBlocks_spliced by apply findSQLBlocks_loop_in_order.
  destruct (replacements _ 0 (findSQLBlocks src)); [|reflexivity].
  simpl. now rewrite append_nil_r.
Qed.

(** ** The positions of the tokens *)

Lemma tokensInOrder_snoc :
  forall len toks from x,
    tokensInOrder len from toks = true ->
    Forall (fun t => tokStart t <= tokStart x) toks ->
    from <= tokStart x -> tokStart x <= tokEnd x -> tokEnd x <= len ->
    tokensInOrder len from (toks ++ [x]) = true.
Proof.
  intros len. induction toks as [|t toks IH]; intros from x H Hall Hf Hse Hel; simpl in *.
  - repeat (apply andb_true_iff; split); try reflexivity; apply Nat.leb_le; lia.
  - apply andb_true_iff in H as [H Hrest]. rewrite H. simpl.
    inversion Hall; subst. apply IH; assumption.
Qed.

Lemma positioned_snoc :
  forall len hi hi' toks x,
    positioned len hi toks ->
    hi <= tokStart x -> tokStart x <= tokEnd x -> tokEnd x <= len -> tokStart x <= hi' ->
    positioned len hi' (toks ++ [x]).
Proof.
  intros len hi hi' toks x [Ho Hs] Hx Hse Hel Hh. split.
  - apply tokensInOrder_snoc; try assumption; try lia.
    eapply Forall_impl; [|exact Hs]. simpl. intros. lia.
  - apply Forall_app. split.
    + eapply Forall_impl; [|exact Hs]. simpl. intros. lia.
    + constructor; [exact Hh | constructor].
Qed.

Lemma positioned_up :
  forall len hi hi' toks, positioned len hi toks -> hi <= hi' -> positioned len hi' toks.
Proof.
  intros len hi hi' toks [Ho Hs] Hle. split; [exact Ho|].
  eapply Forall_impl; [|exact Hs]. simpl. intros. lia.
Qed.

Lemma flushText_positioned :
  forall content ts i toks,
    ts <= i -> i <= String.length content ->
    positioned (String.length content) ts toks ->
    positioned (String.length content) ts (flushText content ts i toks).
Proof.
  intros content ts i toks Hts Hi H. unfold flushText.
  destruct (ts <? i); [|exact H]. destruct (negb _); [|exact H].
  apply (positioned_snoc _ ts); simpl; try assumption; lia.
Qed.

Lemma braceSigil_positioned :
  forall ty content i ts open toks,
    ts <= i -> i < open -> i <= String.length content ->
    positioned (String.length content) ts toks ->
    flowPositioned (String.length content) ts (braceSigil ty content i ts open toks).
Proof.
  intros ty content i ts open toks Hts Hio Hi H. unfold braceSigil.
  pose proof (flushText_positioned content ts i toks Hts Hi H) as Hf.
  destruct (findMatchingBrace content open) as [[inner e]|] eqn:Hm; simpl; [|exact Hf].
  apply findMatching_spec in Hm as (Hs & Hlt & _).
  split; [lia|]. split; [lia|].
  apply (positioned_snoc _ ts); simpl; try assumption; lia.
Qed.

Lemma atLineScan_loop_upper :
  forall content i fuel le brace le' brace',
    atLineScan_loop fuel content i le brace = (le', brace') ->
    le <= String.length content ->
    le' <= String.length content
    /\ (forall b, brace' = Some b -> brace = Some b \/ b < le').
Proof.
  intros content i. induction fuel as [|fuel IH]; intros le brace le' brace' H Hle;
    simpl in H.
  - injection H as <- <-. split; [lia | auto].
  - destruct (Nat.ltb_spec le (String.length content)) as [Hlt|]; simpl in H.
    + destruct (_ && _).
      * pose proof (atLineScan_loop_bounds _ _ _ _ _ _ _ H) as [Hge _].
        apply IH in H as [Hu Hb]; [|lia]. split; [exact Hu|].
        intros b Hb'. destruct (Hb b Hb') as [Hs|Hs]; [|right; exact Hs].
        destruct brace as [b0|]; [left; exact Hs|].
        destruct (isByte (byteAt content le) "{"); [|discriminate].
        destruct (_ && _); [|discriminate]. injection Hs as <-. right. lia.
      * injection H as <- <-. split; [lia | auto].
    + injection H as <- <-. split; [lia | auto].
Qed.

Lemma atEnd_loop_bounds :
  forall content i fuel atEnd,
    atEnd_loop fuel content i atEnd <= atEnd
    /\ (i + 1 <= atEnd -> i + 1 <= atEnd_loop fuel content i atEnd).
Proof.
  intros content i. induction fuel as [|fuel IH]; intros atEnd; simpl; [lia|].
  destruct (Nat.ltb_spec (i + 1) atEnd); simpl; [|lia].
  destruct (_ || _); [|lia]. specialize (IH (atEnd - 1)). lia.
Qed.

Lemma length_sliceFrom :
  forall s i, i <= String.length s -> String.length (sliceFrom s i) = String.length s - i.
Proof. intros. unfold sliceFrom. apply length_substring. lia. Qed.

(** A promoted line ends after its [@], within the text, and its block is
    the text from after the [@] to that end. *)
Lemma trySmartScopeProcessing_handled :
  forall smart basePos lineContent total,
    basePos + 1 <= String.length total ->
    ShouldHandle (trySmartScopeProcessing smart basePos lineContent
                    (sliceFrom total (basePos + 1)) total) = true ->
    let r := trySmartScopeProcessing smart basePos lineContent
               (sliceFrom total (basePos + 1)) total in
    basePos + 1 < LineEndPos r /\ LineEndPos r <= String.length total
    /\ BlockContent r = slice total (basePos + 1) (LineEndPos r).
Proof.
  intros smart basePos lineContent total Hb. unfold trySmartScopeProcessing.
  destruct (_ || _); [discriminate|].
  destruct (findControlStructureParen lineContent) as [p|]; [|discriminate].
  destruct (findMatchingParen _ _) as [[inner q]|] eqn:Hm; [|discriminate].
  destruct (q <? String.length lineContent); [discriminate|].
  intros _. simpl.
  apply findMatching_spec in Hm as (_ & Hq & _).
  rewrite length_sliceFrom in Hq by lia.
  pose proof (lineEnd_loop_ge total (String.length total) (basePos + 1 + q + 1)).
  pose proof (lineEnd_loop_le total (String.length total) (basePos + 1 + q + 1)
                ltac:(lia)).
  unfold lineEndFrom. repeat split; lia.
Qed.

Lemma atLine_positioned :
  forall smart content i ts toks,
    ts <= i -> i < String.length content ->
    positioned (String.length content) ts toks ->
    flowPositioned (String.length content) ts (atLine smart content i ts toks).
Proof.
  intros smart content i ts toks Hts Hi H. unfold atLine.
  pose proof (flushText_positioned content ts i toks Hts ltac:(lia) H) as Hf.
  destruct (atLineScan_loop (String.length content) content i (i + 1) None)
    as [lineEnd brace] eqn:Hscan.
  pose proof (atLineScan_loop_bounds _ _ _ _ _ _ _ Hscan) as [Hge Hb1].
  pose proof (atLineScan_loop_upper _ _ _ _ _ _ _ Hscan ltac:(lia)) as [Hle Hb2].
  set (atEnd := match brace with
                | Some b => atEnd_loop (String.length content) content i b
                | None => lineEnd
                end).
  assert (Hae : i + 1 <= atEnd /\ atEnd <= lineEnd
                /\ (forall b, brace = Some b -> atEnd <= b /\ b <= lineEnd)).
  { unfold atEnd. destruct brace as [b|].
    - destruct (Hb1 b eq_refl) as [|Hb1']; [discriminate|].
      destruct (Hb2 b eq_refl) as [|Hb2']; [discriminate|].
      pose proof (atEnd_loop_bounds content i (String.length content) b) as [Hu Hl].
      split; [lia|]. split; [lia|]. intros b' Hb'. injection Hb' as <-. lia.
    - split; [lia|]. split; [lia | discriminate]. }
  destruct Hae as (Ha1 & Ha2 & Ha3).
  destruct (ShouldHandle _) eqn:Hsh.
  - apply trySmartScopeProcessing_handled in Hsh; [|lia].
    destruct Hsh as (Hl1 & Hl2 & _).
    set (L := LineEndPos _) in *. simpl.
    split; [lia|]. split; [lia|].
    match goal with
    | |- positioned _ _ (?l ++ [?a; ?b]) =>
        change (l ++ [a; b]) with (l ++ [a] ++ [b]); rewrite app_assoc
    end.
    apply (positioned_snoc _ L); simpl; try lia.
    apply (positioned_snoc _ ts); simpl; try assumption; lia.
  - assert (Hline : forall c,
               positioned (String.length content) atEnd
                 (if negb (String.eqb c "")
                  then flushText content ts i toks ++ [mkToken SQLTokenAtLine c i atEnd]
                  else flushText content ts i toks)).
    { intros c. destruct (negb _).
      - apply (positioned_snoc _ ts); simpl; try assumption; lia.
      - apply (positioned_up _ ts); [assumption | lia]. }
    destruct brace as [b|]; simpl.
    + destruct (Ha3 b eq_refl). split; [lia|]. split; [lia|].
      apply (positioned_snoc _ atEnd); simpl; try lia. apply Hline.
    + split; [lia|]. split; [lia|].
      apply (positioned_snoc _ atEnd); simpl; try lia. apply Hline.
Qed.

Lemma orElse_positioned :
  forall len ts r k,
    flowPositioned len ts r ->
    (forall toks, positioned len ts toks -> flowPositioned len ts (k toks)) ->
    flowPositioned len ts (orElse r k).
Proof. intros len ts [i' ts' toks|toks] k Hr Hk; simpl in *; [exact Hr | apply Hk, Hr]. Qed.

Lemma tokenizeStep_positioned :
  forall smart content i ts toks,
    ts <= i -> i < String.length content ->
    positioned (String.length content) ts toks ->
    flowPositioned (String.length content) ts (tokenizeStep smart content i ts toks).
Proof.
  intros smart content i ts toks Hts Hi H. unfold tokenizeStep. cbv zeta.
  apply orElse_positioned.
  - destruct (i + 1 <? String.length content); [|exact H].
    apply orElse_positioned.
    + destruct (_ && _); [apply braceSigil_positioned; (assumption || lia) | exact H].
    + intros toks1 H1. apply orElse_positioned.
      * destruct (_ && _); [apply braceSigil_positioned; (assumption || lia) | exact H1].
      * intros toks2 H2. destruct (isByte (byteAt content i) "@"); [|exact H2].
        destruct (_ && _); [apply braceSigil_positioned; (assumption || lia)|].
        destruct (_ && _); [apply braceSigil_positioned; (assumption || lia)|].
        apply atLine_positioned; assumption.
  - intros toks1 H1. apply orElse_positioned.
    + destruct (isByte (byteAt content i) "{"); [|exact H1].
      destruct (_ || _); [apply braceSigil_positioned; (assumption || lia) | exact H1].
    + intros toks2 H2. simpl. split; [lia|]. split; [lia | exact H2].
Qed.

Lemma tokenize_loop_positioned :
  forall smart content fuel i ts toks,
    ts <= i -> i <= String.length content ->
    positioned (String.length content) ts toks ->
    fst (tokenize_loop fuel smart content i ts toks) <= String.length content
    /\ positioned (String.length content)
         (fst (tokenize_loop fuel smart content i ts toks))
         (snd (tokenize_loop fuel smart content i ts toks)).
Proof.
  intros smart content. induction fuel as [|fuel IH]; intros i ts toks Hts Hi H; simpl;
    [split; [lia | exact H]|].
  destruct (Nat.ltb_spec i (String.length content)) as [Hlt|];
    [|simpl; split; [lia | exact H]].
  pose proof (tokenizeStep_positioned smart content i ts toks Hts Hlt H) as Hs.
  destruct (tokenizeStep smart content i ts toks) as [i' ts' toks'|toks']; simpl in Hs.
  - destruct Hs as (H1 & H2 & H3). apply IH; assumption.
  - apply IH; (assumption || lia).
Qed.

(** X5. The tokens of a body come in the order of the text and lie within
    it: no token ends before it starts or after the end of the body, and no
    token starts before the token that precedes it. *)
Theorem tokens_in_order :
  forall smart content,
    tokensInOrder (String.length content) 0 (tokenizeSQLContent smart content) = true.
Proof.
  intros smart content. rewrite tokenizeSQLContent_finish.
  assert (H0 : positioned (String.length content) 0 []) by (split; constructor).
  pose proof (tokenize_loop_positioned smart content (S (String.length content)) 0 0 []
                (le_n 0) (Nat.le_0_l _) H0) as H.
  destruct (tokenize_loop _ _ _ _ _ _) as [ts toks]. simpl in H. destruct H as [Hts H].
  unfold finish.
  destruct (Nat.ltb_spec ts (String.length content)) as [Hlt|]; [|apply H].
  destruct (negb _); [|apply H].
  apply (positioned_snoc _ ts ts _ _ H); simpl; lia.
Qed.

(** ** What the tokens hold *)

Lemma flushText_shape :
  forall content ts i toks,
    Forall (tokenShape content) toks ->
    Forall (tokenShape content) (flushText content ts i toks).
Proof.
  intros content ts i toks H. unfold flushText.
  destruct (ts <? i); [|exact H]. destruct (negb _); [|exact H].
  apply Forall_app. split; [exact H|]. constructor; [exact I | constructor].
Qed.

Lemma braceSigil_shape :
  forall ty opener content i ts toks,
    (forall tok, tokType tok = ty -> braced content opener tok -> tokenShape content tok) ->
    opensWith content i opener = true ->
    Forall (tokenShape content) toks ->
    Forall (tokenShape content)
      (flowTokens (braceSigil ty content i ts (i + String.length opener) toks)).
Proof.
  intros ty opener content i ts toks Hty Ho H. unfold braceSigil.
  pose proof (flushText_shape content ts i toks H) as Hf.
  destruct (findMatchingBrace content (i + String.length opener)) as [[inner e]|] eqn:Hm;
    simpl; [|exact Hf].
  apply findMatching_spec in Hm as (Hs & Hlt & Hb & Hin).
  apply Forall_app. split; [exact Hf|]. constructor; [|constructor].
  apply Hty; [reflexivity|]. unfold braced. simpl. rewrite Nat.add_sub.
  repeat split; (assumption || lia).
Qed.

Lemma atLine_shape :
  forall smart content i ts toks,
    i < String.length content -> byteAt content i = "@"%char ->
    Forall (tokenShape content) toks ->
    Forall (tokenShape content) (flowTokens (atLine smart content i ts toks)).
Proof.
  intros smart content i ts toks Hi Hc H. unfold atLine.
  pose proof (flushText_shape content ts i toks H) as Hf.
  destruct (atLineScan_loop (String.length content) content i (i + 1) None)
    as [lineEnd brace] eqn:Hscan.
  pose proof (atLineScan_loop_bounds _ _ _ _ _ _ _ Hscan) as [Hge Hb1].
  pose proof (atLineScan_loop_upper _ _ _ _ _ _ _ Hscan ltac:(lia)) as [Hle Hb2].
  set (atEnd := match brace with
                | Some b => atEnd_loop (String.length content) content i b
                | None => lineEnd
                end).
  assert (Hae : i + 1 <= atEnd /\ atEnd <= lineEnd).
  { unfold atEnd. destruct brace as [b|]; [|lia].
    destruct (Hb1 b eq_refl) as [|Hb1']; [discriminate|].
    destruct (Hb2 b eq_refl) as [|Hb2']; [discriminate|].
    pose proof (atEnd_loop_bounds content i (String.length content) b) as [Hu Hl]. lia. }
  destruct Hae as (Ha1 & Ha2).
  assert (Hnl : forall pos, tokenShape content (mkToken SQLTokenText nl pos pos))
    by (intros; exact I).
  destruct (ShouldHandle _) eqn:Hsh.
  - apply trySmartScopeProcessing_handled in Hsh; [|lia].
    destruct Hsh as (Hl1 & Hl2 & Hbc). rewrite Hbc.
    set (L := LineEndPos _) in *. simpl.
    apply Forall_app. split; [exact Hf|].
    constructor; [|constructor; [apply Hnl | constructor]].
    right. unfold atRun. simpl. repeat split; (assumption || lia).
  - assert (Hline :
               Forall (tokenShape content)
                 (if negb (String.eqb (TrimSpace (slice content (i + 1) atEnd)) "")
                  then flushText content ts i toks
                       ++ [mkToken SQLTokenAtLine (TrimSpace (slice content (i + 1) atEnd))
                             i atEnd]
                  else flushText content ts i toks)).
    { destruct (String.eqb_spec (TrimSpace (slice content (i + 1) atEnd)) "") as [|Hne];
        simpl; [exact Hf|].
      apply Forall_app. split; [exact Hf|]. constructor; [|constructor].
      split; [|exact Hne]. unfold atRun. simpl. repeat split; (assumption || lia). }
    destruct brace as [b|]; simpl; apply Forall_app; split; try exact Hline;
      (constructor; [apply Hnl | constructor]).
Qed.

Lemma orElse_shape :
  forall content r k,
    Forall (tokenShape content) (flowTokens r) ->
    (forall toks, Forall (tokenShape content) toks ->
                  Forall (tokenShape content) (flowTokens (k toks))) ->
    Forall (tokenShape content) (flowTokens (orElse r k)).
Proof. intros content [i ts toks|toks] k Hr Hk; simpl in *; [exact Hr | apply Hk, Hr]. Qed.

Lemma tokenizeStep_shape :
  forall smart content i ts toks,
    i < String.length content ->
    Forall (tokenShape content) toks ->
    Forall (tokenShape content) (flowTokens (tokenizeStep smart content i ts toks)).
Proof.
  intros smart content i ts toks Hi H. unfold tokenizeStep. cbv zeta.
  apply Nat.ltb_lt in Hi.
  apply orElse_shape.
  - destruct (i + 1 <? String.length content) eqn:Hi1; [|exact H].
    apply orElse_shape.
    + destruct (_ && _) eqn:Hc; [|exact H].
      apply (braceSigil_shape SQLTokenParam "#{"); [| |exact H].
      * intros tok Ht Hb. unfold tokenShape. rewrite Ht. exact Hb.
      * apply andb_true_iff in Hc as [Hc1 Hc2]. simpl. now rewrite Hi, Hi1, Hc1, Hc2.
    + intros toks1 H1. apply orElse_shape.
      * destruct (_ && _) eqn:Hc; [|exact H1].
        apply (braceSigil_shape SQLTokenTextExpr "${"); [| |exact H1].
        -- intros tok Ht Hb. unfold tokenShape. rewrite Ht. exact Hb.
        -- apply andb_true_iff in Hc as [Hc1 Hc2]. simpl. now rewrite Hi, Hi1, Hc1, Hc2.
      * intros toks2 H2. destruct (isByte (byteAt content i) "@") eqn:Ha; [|exact H2].
        destruct (_ && _) eqn:Hc.
        -- apply (braceSigil_shape SQLTokenDoubleAtBlock "@@{"); [| |exact H2].
           ++ intros tok Ht Hb. unfold tokenShape. rewrite Ht. exact Hb.
           ++ apply andb_true_iff in Hc as [Hc Hc2]. apply andb_true_iff in Hc as [Hi2 Hc1].
              simpl. replace (i + 1 + 1) with (i + 2) by lia.
              now rewrite Hi, Hi1, Hi2, Ha, Hc1, Hc2.
        -- clear Hc. destruct (_ && _) eqn:Hc.
           ++ apply (braceSigil_shape SQLTokenAtBlock "@{"); [| |exact H2].
              ** intros tok Ht Hb. unfold tokenShape. rewrite Ht. left. exact Hb.
              ** apply andb_true_iff in Hc as [_ Hc1]. simpl. now rewrite Hi, Hi1, Ha, Hc1.
           ++ apply atLine_shape; [now apply Nat.ltb_lt | now apply isByte_eq | exact H2].
  - intros toks1 H1. apply orElse_shape.
    + destruct (isByte (byteAt content i) "{") eqn:Hb; [|exact H1].
      destruct (_ || _); [|exact H1].
      apply (braceSigil_shape SQLTokenCodeBlock "{"); [| |exact H1].
      * intros tok Ht Hbr. unfold tokenShape. rewrite Ht. exact Hbr.
      * simpl. now rewrite Hi, Hb.
    + intros toks2 H2. exact H2.
Qed.

Lemma tokenize_loop_shape :
  forall smart content fuel i ts toks,
    Forall (tokenShape content) toks ->
    Forall (tokenShape content) (snd (tokenize_loop fuel smart content i ts toks)).
Proof.
  intros smart content. induction fuel as [|fuel IH]; intros i ts toks H; simpl;
    [exact H|].
  destruct (Nat.ltb_spec i (String.length content)) as [Hi|]; [|exact H].
  pose proof (tokenizeStep_shape smart content i ts toks Hi H) as Hs.
  destruct (tokenizeStep smart content i ts toks) as [i' ts' toks'|toks']; simpl in Hs;
    apply IH; exact Hs.
Qed.

(** X6. Every token is read off the body where it stands.  A Param,
    TextExpr, DoubleAtBlock or CodeBlock token starts at its opener ([#{],
    [${], [@@{], [{]), ends after a closing brace, and holds the text between
    the two; an AtLine token starts at an [@] and holds the text that follows
    it, trimmed and not empty; an AtBlock token is of the first kind, with
    the opener [@{], or of the second, for a promoted line; a Text token is a
    run of the body that is not all white space, or the line feed put after
    an [@] line. *)
Theorem tokens_read_off_the_body :
  forall smart content,
    Forall (fun tok => tokenShape content tok /\ verbatimText content tok)
      (tokenizeSQLContent smart content).
Proof.
  intros smart content. apply Forall_and; [|apply text_tokens_verbatim].
  rewrite tokenizeSQLContent_finish.
  pose proof (tokenize_loop_shape smart content (S (String.length content)) 0 0 []
                (Forall_nil _)) as H.
  destruct (tokenize_loop _ _ _ _ _ _) as [ts toks]. simpl in H. unfold finish.
  destruct (ts <? String.length content); [|exact H].
  destruct (negb _); [|exact H].
  apply Forall_app. split; [exact H|]. constructor; [exact I | constructor].
Qed.

(** ** Bodies of white space *)

Lemma isSpace_not_special : forall c, isSpace c = true -> isSpecial c = false.
Proof.
  intros [[] [] [] [] [] [] [] []]; vm_compute; intros H;
    (reflexivity || discriminate H).
Qed.

Lemma tokenize_blank :
  forall smart body,
    allBytes isSpace body = true -> tokenizeSQLContent smart body = [].
Proof.
  intros smart body H. rewrite tokenizeSQLContent_finish.
  replace (S (String.length body)) with (String.length body + 1) by lia.
  rewrite tokenize_loop_plain_run.
  - rewrite tokenize_loop_end by (simpl; lia). unfold finish.
    destruct (0 <? String.length body); [|reflexivity].
    rewrite sliceFrom_zero, TrimSpace_blank by exact H. reflexivity.
  - intros k Hk. split; [simpl; exact Hk|].
    apply isSpace_not_special. simpl. apply (allBytes_byteAt isSpace); assumption.
Qed.

(** X7. A template body that is empty or all white space gives no token;
    the code written for it creates the builder and builds it, with no call
    between the two. *)
Theorem blank_body_no_calls :
  forall ParseExpr format_Node Quote smart fuel body varName,
    allBytes isSpace body = true ->
    tokenizeSQLContent smart body = []
    /\ generateParts ParseExpr format_Node Quote smart fuel
         (parseSQLBlock ParseExpr smart body varName)
       = Some [newBuilder varName; buildIt varName].
Proof.
  intros PE fN Q smart fuel body v H.
  pose proof (tokenize_blank smart body H) as Ht.
  split; [exact Ht|].
  unfold generateParts, generateParts_body, parseSQLBlock. rewrite Ht. reflexivity.
Qed.

Lemma blank_body_no_calls_witness :
  tokenizeSQLContent true ("  " ++ nl ++ tab) = []
  /\ generateParts Sample.parseIdent Sample.noFormat Sample.quoteASCII true 0
       (parseSQLBlock Sample.parseIdent true ("  " ++ nl ++ tab) "q")
     = Some [newBuilder "q"; buildIt "q"].
Proof.
  apply (blank_body_no_calls Sample.parseIdent Sample.noFormat Sample.quoteASCII true 0
           ("  " ++ nl ++ tab) "q").
  reflexivity.
Defined.

(** ** The skipper primitives *)

Lemma slice_cons :
  forall s i j,
    i < j -> j <= String.length s ->
    slice s i j = String (byteAt s i) (slice s (i + 1) j).
Proof.
  unfold slice, byteAt. induction s as [|c s IH]; intros i j Hij Hj; simpl in Hj; [lia|].
  destruct i as [|i].
  - destruct j as [|j]; [lia|]. simpl. rewrite Nat.sub_0_r. reflexivity.
  - destruct j as [|j]; [lia|].
    change (S i + 1) with (S (i + 1)). simpl.
    specialize (IH i j ltac:(lia) ltac:(lia)). exact IH.
Qed.

Lemma slice_empty : forall s i, slice s i i = "".
Proof. intros. unfold slice. rewrite Nat.sub_diag. apply substring_zero. Qed.

Lemma findMatching_loop_depth :
  forall op cl content fuel d i i',
    findMatching_loop op cl fuel content (S d) i = (0, i') ->
    (forall k, i <= k -> k < i' - 1 -> isQuote (byteAt content k) = false) ->
    depthAfter op cl d (slice content i (i' - 1)) = Some 0.
Proof.
  intros op cl content. induction fuel as [|fuel IH]; intros d i i' H Hq; simpl in H;
    [discriminate|].
  destruct (Nat.ltb_spec i (String.length content)) as [Hi|]; [|discriminate].
  simpl in H.
  destruct (isByte (byteAt content i) op) eqn:Ho.
  - replace (d + 1) with (S d) in H by lia.
    pose proof H as H'. apply findMatching_loop_zero in H' as (Hlt & Hle & _); [|lia].
    rewrite slice_cons by lia. simpl. rewrite Ho.
    apply IH; [exact H|]. intros k Hk1 Hk2. apply Hq; lia.
  - destruct (isByte (byteAt content i) cl) eqn:Hc.
    + rewrite Nat.sub_0_r in H. destruct d as [|d].
      * rewrite findMatching_loop_closed in H. injection H as <-.
        rewrite Nat.add_sub, slice_empty. reflexivity.
      * pose proof H as H'. apply findMatching_loop_zero in H' as (Hlt & Hle & _); [|lia].
        rewrite slice_cons by lia. simpl. rewrite Ho, Hc.
        apply IH; [exact H|]. intros k Hk1 Hk2. apply Hq; lia.
    + pose proof H as H'.
      destruct (isQuote (byteAt content i)) eqn:Hquote.
      * exfalso.
        apply findMatching_loop_zero in H' as (Hlt & _); [|lia].
        pose proof (skipStringLiteral_gt content i (byteAt content i) Hi (isByte_refl _)).
        rewrite (Hq i) in Hquote by lia. discriminate.
      * apply findMatching_loop_zero in H' as (Hlt & Hle & _); [|lia].
        rewrite slice_cons by lia. simpl. rewrite Ho, Hc.
        apply IH; [exact H|]. intros k Hk1 Hk2. apply Hq; lia.
Qed.

(** X8. What [findMatchingBrace] and [findMatchingParen] return is the
    closing byte that balances the opening one: when the text found holds
    no quote, it is well bracketed (no closing byte without an opening one
    before it, and as many of the one as of the other), it is the text from
    [start] to the position returned, and a closing byte stands there. *)
Theorem findMatching_balanced :
  forall op cl content start inner q,
    findMatching op cl content start = Some (inner, q) ->
    allBytes notQuote inner = true ->
    depthAfter op cl 0 inner = Some 0
    /\ start <= q /\ q < String.length content
    /\ byteAt content q = cl
    /\ inner = slice content start q.
Proof.
  intros op cl content start inner q H Hnq.
  pose proof (findMatching_spec _ _ _ _ _ _ H) as (Hs & Hlt & Hb & Hin).
  split; [|auto].
  unfold findMatching in H.
  destruct (findMatching_loop op cl (S (String.length content)) content 1 start)
    as [count i'] eqn:Hl.
  destruct (Nat.eqb_spec count 0) as [->|]; [|discriminate].
  injection H as _ <-. rewrite Hin.
  apply (findMatching_loop_depth _ _ _ _ _ _ _ Hl).
  intros k Hk1 Hk2.
  pose proof (allBytes_byteAt notQuote inner (k - start) Hnq) as Hk.
  rewrite Hin in Hk at 1. rewrite length_slice in Hk by lia.
  specialize (Hk ltac:(lia)). rewrite Hin, byteAt_slice in Hk by lia.
  replace (start + (k - start)) with k in Hk by lia.
  now apply negb_true_iff in Hk.
Qed.

Lemma findMatching_balanced_witness :
  depthAfter "{" "}" 0 "a{b}c" = Some 0
  /\ 2 <= 7 /\ 7 < String.length "#{a{b}c} d"
  /\ byteAt "#{a{b}c} d" 7 = "}"%char
  /\ "a{b}c" = slice "#{a{b}c} d" 2 7.
Proof.
  apply (findMatching_balanced "{" "}" "#{a{b}c} d" 2 "a{b}c" 7); reflexivity.
Defined.

Lemma findMatchingQuote_loop_first :
  forall content q raw fuel i,
    String.length content - i < fuel ->
    match findMatchingQuote_loop fuel content q raw i with
    | Some e =>
        i <= e /\ e < String.length content /\ byteAt content e = q
        /\ (raw = true -> forall k, i <= k -> k < e -> byteAt content k <> q)
    | None =>
        raw = true -> forall k, i <= k -> k < String.length content -> byteAt content k <> q
    end.
Proof.
  intros content q raw. induction fuel as [|fuel IH]; intros i Hf; [lia|]. simpl.
  destruct (Nat.ltb_spec i (String.length content)) as [Hi|]; [|intros; lia].
  destruct (isByte (byteAt content i) q) eqn:Hq.
  - apply isByte_eq in Hq. split; [lia|]. split; [lia|]. split; [exact Hq|].
    intros _ k Hk1 Hk2. lia.
  - assert (Hne : byteAt content i <> q).
    { intros He. apply isByte_eq in He. congruence. }
    destruct raw; simpl.
    + specialize (IH (i + 1) ltac:(lia)).
      destruct (findMatchingQuote_loop fuel content q true (i + 1)) as [e|].
      * destruct IH as (H1 & H2 & H3 & H4).
        split; [lia|]. split; [lia|]. split; [exact H3|].
        intros _ k Hk1 Hk2. destruct (Nat.eq_dec k i) as [->|]; [exact Hne|].
        apply H4; (reflexivity || lia).
      * intros _ k Hk1 Hk2. destruct (Nat.eq_dec k i) as [->|]; [exact Hne|].
        apply IH; (reflexivity || lia).
    + destruct (_ && _).
      * specialize (IH (i + 1 + 1) ltac:(lia)).
        destruct (findMatchingQuote_loop fuel content q false (i + 1 + 1)) as [e|].
        -- destruct IH as (H1 & H2 & H3 & _).
           split; [lia|]. split; [lia|]. split; [exact H3 | discriminate].
        -- discriminate.
      * specialize (IH (i + 1) ltac:(lia)).
        destruct (findMatchingQuote_loop fuel content q false (i + 1)) as [e|].
        -- destruct IH as (H1 & H2 & H3 & _).
           split; [lia|]. split; [lia|]. split; [exact H3 | discriminate].
        -- discriminate.
Qed.

(** X9. [findMatchingQuote] returns a position at or after [start], within
    the text, where the quote stands.  In a raw literal it is the first
    such position, and the search fails only when the quote does not occur
    from [start] on. *)
Theorem findMatchingQuote_first :
  forall content start quoteChar isRawString,
    match findMatchingQuote content start quoteChar isRawString with
    | Some e =>
        start <= e /\ e < String.length content /\ byteAt content e = quoteChar
        /\ (isRawString = true ->
            forall k, start <= k -> k < e -> byteAt content k <> quoteChar)
    | None =>
        isRawString = true ->
        forall k, start <= k -> k < String.length content -> byteAt content k <> quoteChar
    end.
Proof.
  intros. unfold findMatchingQuote. apply findMatchingQuote_loop_first. lia.
Qed.

Lemma skipStringLiteral_loop_stop :
  forall content quote fuel i,
    String.length content - i <= fuel -> i <= String.length content ->
    skipStringLiteral_loop fuel content quote i <= String.length content
    /\ (skipStringLiteral_loop fuel content quote i < String.length content ->
        byteAt content (skipStringLiteral_loop fuel content quote i) = quote).
Proof.
  intros content quote. induction fuel as [|fuel IH]; intros i Hf Hi; simpl; [lia|].
  destruct (Nat.ltb_spec i (String.length content)) as [Hlt|]; simpl; [|lia].
  destruct (isByte (byteAt content i) quote) eqn:Hq; simpl.
  - apply isByte_eq in Hq. auto.
  - destruct (isByte (byteAt content i) "\"); simpl; [|apply IH; lia].
    destruct (Nat.ltb_spec (i + 1) (String.length content)); simpl; [|apply IH; lia].
    destruct (negb _); apply IH; lia.
Qed.

(** X10. [skipStringLiteral] leaves the position as it is when no quote
    stands there.  From an opening quote it moves forward and stays within
    the text: it stops just after a later occurrence of the quote, or at the
    end of the text when the literal is not closed. *)
Theorem skipStringLiteral_stops :
  forall content pos quote,
    if (pos <? String.length content) && isByte (byteAt content pos) quote
    then
      (pos + 2 <= skipStringLiteral content pos quote
       /\ skipStringLiteral content pos quote <= String.length content
       /\ byteAt content (skipStringLiteral content pos quote - 1) = quote)
      \/ skipStringLiteral content pos quote = String.length content
    else skipStringLiteral content pos quote = pos.
Proof.
  intros content pos quote. unfold skipStringLiteral.
  destruct (Nat.ltb_spec pos (String.length content)) as [Hlt|Hge]; simpl.
  - destruct (Nat.leb_spec (String.length content) pos); [lia|]. simpl.
    destruct (isByte (byteAt content pos) quote); simpl; [|reflexivity].
    pose proof (skipStringLiteral_loop_stop content quote (String.length content)
                  (pos + 1) ltac:(lia) ltac:(lia)) as [Hle Hq].
    pose proof (skipStringLiteral_loop_ge content quote (String.length content) (pos + 1)).
    destruct (Nat.ltb_spec (skipStringLiteral_loop (String.length content) content quote
                              (pos + 1)) (String.length content)) as [Hc|Hc].
    + left. rewrite Nat.add_sub. repeat split; try lia. apply Hq, Hc.
    + right. lia.
  - destruct (Nat.leb_spec (String.length content) pos); [reflexivity | lia].
Qed.

(** ** The emitter on text without sigils *)

Lemma prefix_first :
  forall c p s, String.prefix (String c p) s = true -> String.prefix (String c "") s = true.
Proof.
  intros c p [|a r]; simpl; [discriminate|].
  destruct (ascii_dec c a); [|discriminate]. intros _. destruct r; reflexivity.
Qed.

(** Where a byte does not occur, no text that begins with it does. *)
Lemma Index_first_byte :
  forall c p s, Index s (String c "") = None -> Index s (String c p) = None.
Proof.
  intros c p. induction s as [|a r IH]; intros H.
  - reflexivity.
  - cbn [Index] in *.
    destruct (String.prefix (String c "") (String a r)) eqn:H1; [discriminate|].
    destruct (String.prefix (String c p) (String a r)) eqn:Hp.
    + apply prefix_first in Hp. congruence.
    + destruct (Index r (String c "")); [discriminate|]. rewrite IH; reflexivity.
Qed.

Lemma Contains_false :
  forall s p, Contains s p = false -> Index s p = None.
Proof. intros s p H. unfold Contains in H. destruct (Index s p); [discriminate | reflexivity]. Qed.

(** X11. Host code that holds no [@] and neither [#{] nor [${] goes through
    [processCodeBlockExpressions] unchanged. *)
Theorem code_without_sigils_unchanged :
  forall ParseExpr format_Node Quote smart fuel code builderName,
    Contains code "@" = false ->
    Contains code "#{" = false ->
    Contains code "${" = false ->
    processCodeBlockExpressions ParseExpr format_Node Quote smart fuel code builderName
    = Some code.
Proof.
  intros PE fN Q smart fuel code b Ha Hp Ht.
  apply Contains_false in Ha, Hp, Ht.
  unfold processCodeBlockExpressions. cbn [emit pce_].
  unfold processCodeBlockExpressions_body.
  cbn [sweepDoubleAt]. rewrite (Index_first_byte "@" "@{" code Ha).
  cbn [sweepAtBlock]. rewrite (Index_first_byte "@" "{" code Ha).
  cbn [sweepAtLine]. rewrite sliceFrom_zero, Ha.
  cbn [sweepStandalone]. rewrite Hp, Ht. reflexivity.
Qed.

Lemma code_without_sigils_unchanged_witness :
  processCodeBlockExpressions Sample.parseIdent Sample.noFormat Sample.quoteASCII true 0
    "if x > 0 { n++ }" "b"
  = Some "if x > 0 { n++ }".
Proof.
  apply (code_without_sigils_unchanged Sample.parseIdent Sample.noFormat Sample.quoteASCII
           true 0 "if x > 0 { n++ }" "b"); reflexivity.
Defined.

Section PlainText.

Variable ParseExpr : string -> option Expr.
Variable Quote : string -> string.
Variable smart : bool.
Variable E : emitters.



End PlainText.



(** ** [autoAddReturn] *)

Lemma SplitByte_cons :
  forall sep c s,
    isByte c sep = false ->
    SplitByte sep (String c s)
    = String c (hd "" (SplitByte sep s)) :: tl (SplitByte sep s).
Proof.
  intros sep c s H. cbn [SplitByte]. rewrite H.
  pose proof (SplitByte_nonempty sep s). destruct (SplitByte sep s); [contradiction|].
  reflexivity.
Qed.

Lemma SplitByte_append :
  forall sep p s,
    allBytes (fun c => negb (isByte c sep)) p = true ->
    SplitByte sep (p ++ s)
    = (p ++ hd "" (SplitByte sep s))%string :: tl (SplitByte sep s).
Proof.
  intros sep. induction p as [|c p IH]; intros s H.
  - simpl. pose proof (SplitByte_nonempty sep s).
    destruct (SplitByte sep s); [contradiction | reflexivity].
  - simpl in H. apply andb_true_iff in H as [Hc Hp]. apply negb_true_iff in Hc.
    change (String c p ++ s)%string with (String c (p ++ s)).
    rewrite SplitByte_cons by exact Hc. rewrite IH by exact Hp. reflexivity.
Qed.

(** After [return] has been put before the text, its first line is a line
    of code that begins with [r]. *)
Lemma codeLinesOf_return :
  forall content,
    exists x,
      codeLinesOf (SplitByte LF ("return " ++ content))
      = String "r" x :: codeLinesOf (tl (SplitByte LF content)).
Proof.
  intros content. rewrite SplitByte_append by reflexivity.
  set (l0 := hd "" (SplitByte LF content)).
  exists (trimRight ("eturn " ++ l0)).
  unfold codeLinesOf at 1. cbn [flat_map].
  change ("return " ++ l0)%string with (String "r" ("eturn " ++ l0)).
  rewrite TrimSpace_cons by reflexivity.
  generalize (trimRight ("eturn " ++ l0)). intros x. reflexivity.
Qed.

(** X13. [autoAddReturn] applied twice gives what it gives applied once: a
    text to which [return] has been added is left as it is. *)
Theorem autoAddReturn_idempotent :
  forall content, autoAddReturn (autoAddReturn content) = autoAddReturn content.
Proof.
  intros content.
  assert (H : autoAddReturn content = content
              \/ autoAddReturn content = ("return " ++ content)%string).
  { unfold autoAddReturn. cbv zeta.
    destruct (codeLinesOf (SplitByte LF content)) as [|line [|line2 rest]]; auto.
    destruct (_ && _); auto. }
  destruct H as [H|H]; rewrite H; [exact H|].
  unfold autoAddReturn. cbv zeta.
  destruct (codeLinesOf_return content) as [x ->].
  destruct (codeLinesOf (tl (SplitByte LF content))); reflexivity.
Qed.

(** ** The builder at run time *)

Lemma countByte_append :
  forall c a b, countByte c (a ++ b) = countByte c a + countByte c b.
Proof. induction a as [|d a IH]; intros b; simpl; [reflexivity | rewrite IH; lia]. Qed.

Lemma countByte_placeholders :
  forall n i sb,
    countByte "?" (placeholders_loop n i sb) = countByte "?" sb + n.
Proof.
  induction n as [|n IH]; intros i sb; simpl; [lia|].
  rewrite IH. destruct (0 <? i); rewrite !countByte_append; simpl; lia.
Qed.

Lemma AddParam_marks :
  forall qb v qb',
    AddParam qb v = Some qb' ->
    countByte "?" (qbParts qb') + List.length (qbArgs qb)
    = countByte "?" (qbParts qb) + List.length (qbArgs qb').
Proof.
  intros qb v qb' H. destruct v; simpl in H; try discriminate; injection H as <-; simpl;
    rewrite countByte_append, length_app; simpl; try lia.
  rewrite countByte_placeholders. simpl. lia.
Qed.

Lemma run_marks :
  forall env ops qb qb',
    forallb noMark ops = true ->
    run env ops qb = Some qb' ->
    countByte "?" (qbParts qb') + List.length (qbArgs qb)
    = countByte "?" (qbParts qb) + List.length (qbArgs qb').
Proof.
  intros env. induction ops as [|[s|x] ops IH]; intros qb qb' Hn H; simpl in *.
  - injection H as <-. reflexivity.
  - apply andb_true_iff in Hn as [Hs Hn]. apply Nat.eqb_eq in Hs.
    apply IH in H; [|exact Hn]. simpl in H. rewrite countByte_append in H. lia.
  - destruct (AddParam qb (env x)) as [qb1|] eqn:Hp; [|discriminate].
    apply AddParam_marks in Hp. apply IH in H; [|exact Hn]. lia.
Qed.

(** X14. In a query built on a new builder by [AddText] calls whose texts
    hold no [?] and by [AddParam] calls, the number of [?] in the SQL text
    is the number of args: a slice of [n] elements adds [n] of each, any
    other value one of each. *)
Theorem placeholders_match_args :
  forall env ops qb,
    forallb noMark ops = true ->
    run env ops NewQueryBuilder = Some qb ->
    countByte "?" (sql (Build qb)) = List.length (args (Build qb)).
Proof.
  intros env ops qb Hn H. apply run_marks in H; [|exact Hn]. simpl in *. lia.
Qed.

Lemma placeholders_match_args_witness :
  countByte "?"
    (sql (Build (mkQueryBuilder "a IN (?,?) AND c = ?"
                   [VOther "2"; VOther "3"; VString "c"])))
  = List.length
      (args (Build (mkQueryBuilder "a IN (?,?) AND c = ?"
                      [VOther "2"; VOther "3"; VString "c"]))).
Proof.
  apply (placeholders_match_args sampleEnv inListOps); reflexivity.
Defined.

Lemma AddText_extend :
  forall qb r s, AddText (extend qb r) (VString s) = extend qb (AddText r (VString s)).
Proof. intros. unfold extend. simpl. now rewrite append_assoc. Qed.

Lemma AddParam_extend :
  forall qb r v,
    AddParam (extend qb r) v = option_map (extend qb) (AddParam r v).
Proof.
  intros qb r v. unfold extend, AddParam.
  destruct v; simpl; try reflexivity; now rewrite append_assoc, <- app_assoc.
Qed.

Lemma run_extend :
  forall env ops qb r,
    run env ops (extend qb r) = option_map (extend qb) (run env ops r).
Proof.
  intros env. induction ops as [|[s|x] ops IH]; intros qb r; cbn [run].
  - reflexivity.
  - rewrite AddText_extend. apply IH.
  - rewrite AddParam_extend.
    destruct (AddParam r (env x)) as [r'|]; cbn [option_map]; [apply IH | reflexivity].
Qed.

(** X15. Running calls on a builder that already holds something gives
    what [AddText] gives when it is handed the query that the same calls
    build on a new builder: the SQL text is appended and the args follow
    the args.  A query built apart and added with [AddText] is the same as
    its calls written in place; if the calls panic apart, they panic in
    place. *)
Theorem AddText_query_inlines :
  forall env ops qb,
    run env ops qb
    = option_map
        (fun r => AddText qb (VQuery (sql (Build r)) (args (Build r))))
        (run env ops NewQueryBuilder).
Proof.
  intros env ops qb.
  replace qb with (extend qb NewQueryBuilder) at 1.
  - rewrite run_extend. destruct (run env ops NewQueryBuilder); reflexivity.
  - unfold extend. destruct qb as [p a]. simpl. now rewrite append_nil_r, app_nil_r.
Qed.

(** ** Incremental compilation *)

Section IncrementalFacts.

Import Compiler.

Variable IsAbs : string -> bool.
Variable PathJoin : string -> string -> string.
Variable cwd : string.
Variable translate : string -> string -> option string.

Lemma lookup_remove_other :
  forall p q fs, p <> q -> lookup p (remove q fs) = lookup p fs.
Proof.
  intros p q. induction fs as [|[k f] fs IH]; intros Hne; simpl; [reflexivity|].
  destruct (String.eqb_spec k q) as [->|Hkq].
  - rewrite IH by exact Hne.
    destruct (String.eqb_spec q p) as [->|]; [contradiction | reflexivity].
  - simpl. rewrite IH by exact Hne. reflexivity.
Qed.

(** X16. When the path the driver writes to is the [_gen.go] file of the
    source, a file that has just been compiled is skipped by the next
    incremental run, which leaves the file system as it is: the target is
    then at least as new as the source. *)
Theorem incremental_skips_fresh_target :
  forall c fs goxPath f fs',
    lookup goxPath (files fs) = Some f ->
    modTime f <= clock fs ->
    writePath IsAbs PathJoin cwd c goxPath
    = (TrimSuffix goxPath ".gox.go" ++ "_gen.go")%string ->
    processGoxFile IsAbs PathJoin cwd translate c fs goxPath false = Ok fs' ->
    processGoxFile IsAbs PathJoin cwd translate c fs' goxPath true = Ok fs'.
Proof.
  intros c fs goxPath f fs' Hsrc Htime Hpath H.
  unfold processGoxFile in H. cbv zeta in H. rewrite Hsrc, Hpath in H.
  destruct (translate goxPath (fileData f)) as [generated|]; [|discriminate].
  injection H as <-.
  set (goPath := (TrimSuffix goxPath ".gox.go" ++ "_gen.go")%string).
  unfold processGoxFile. cbv zeta. fold goPath.
  assert (Hskip : shouldSkipFile (WriteFile fs goPath generated) goxPath goPath
                  = Some true).
  { unfold shouldSkipFile, WriteFile. cbn [files lookup].
    rewrite String.eqb_refl.
    destruct (String.eqb_spec goPath goxPath) as [He|Hne].
    - cbn [modTime]. now rewrite Nat.leb_refl.
    - rewrite lookup_remove_other by congruence. rewrite Hsrc. cbn [modTime].
      apply Nat.leb_le in Htime. now rewrite Htime. }
  rewrite Hskip. reflexivity.
Qed.

End IncrementalFacts.

Lemma incremental_skips_fresh_target_witness :
  Compiler.processGoxFile unixIsAbs unixJoin "/w" markGenerated toOwnTarget
    (Compiler.WriteFile twoSources "/w/a_gen.go" "// generated from A")
    "/w/a.gox.go" true
  = Compiler.Ok (Compiler.WriteFile twoSources "/w/a_gen.go" "// generated from A").
Proof.
  apply (incremental_skips_fresh_target unixIsAbs unixJoin "/w" markGenerated
           toOwnTarget twoSources "/w/a.gox.go" (Compiler.mkFile "A" 0));
    [reflexivity | simpl; lia | reflexivity | reflexivity].
Defined.

(** ** Lines *)


Lemma Join_cons :
  forall x y rest sep, Join (x :: y :: rest) sep = (x ++ sep ++ Join (y :: rest) sep)%string.
Proof. reflexivity. Qed.

Lemma SplitByte_line :
  forall l rest,
    oneLine l = true -> SplitByte LF (l ++ nl ++ rest) = l :: SplitByte LF rest.
Proof.
  intros l rest H. rewrite SplitByte_append by exact H.
  change (nl ++ rest)%string with (String LF rest). cbn [SplitByte].
  rewrite isByte_refl. simpl. now rewrite append_nil_r.
Qed.

Lemma SplitByte_last :
  forall l, oneLine l = true -> SplitByte LF l = [l].
Proof.
  intros l H. rewrite <- (append_nil_r l) at 1.
  rewrite SplitByte_append by exact H. simpl. now rewrite append_nil_r.
Qed.

(** Cutting the text of joined lines gives the lines back. *)
Lemma SplitByte_Join :
  forall ls,
    ls <> [] -> Forall (fun l => oneLine l = true) ls ->
    SplitByte LF (Join ls nl) = ls.
Proof.
  induction ls as [|x ls IH]; intros Hne H; [contradiction|].
  inversion H as [|? ? Hx Hls]; subst.
  destruct ls as [|y ls].
  - simpl. now apply SplitByte_last.
  - rewrite Join_cons, SplitByte_line by exact Hx.
    rewrite IH; [reflexivity | discriminate | exact Hls].
Qed.


(** ** [removeBuildIgnore] *)

Import Generator.


Lemma Forall_filter :
  forall (A : Type) (P : A -> Prop) (f : A -> bool) l,
    Forall P l -> Forall P (filter f l).
Proof.
  intros A P f l H. induction H as [|x l Hx _ IH]; simpl; [constructor|].
  destruct (f x); [constructor; assumption | exact IH].
Qed.

Lemma filter_all :
  forall (A : Type) (f : A -> bool) l, forallb f l = true -> filter f l = l.
Proof.
  intros A f. induction l as [|x l IH]; simpl; intros H; [reflexivity|].
  apply andb_true_iff in H as [Hx Hl]. rewrite Hx, IH by exact Hl. reflexivity.
Qed.


(** ** [replaceOrAddImports] *)

Lemma package_not_import :
  forall line, isPackageLine line = true -> isImportLine line = false.
Proof.
  intros line. unfold isPackageLine, isImportLine, HasPrefix.
  destruct (TrimSpace line) as [|a t]; cbn [prefix]; [discriminate|].
  destruct (ascii_dec "p" a) as [<-|]; [|discriminate]. intros _.
  destruct (ascii_dec "i" "p"); [discriminate | reflexivity].
Qed.

Lemma roa_plain :
  forall blk ls r pf ir,
    forallb plainLine ls = true ->
    fold_left (roaStep blk) ls (mkRoa r false pf ir) = mkRoa (r ++ ls) false pf ir.
Proof.
  intros blk. induction ls as [|l ls IH]; intros r pf ir H; simpl.
  - now rewrite app_nil_r.
  - simpl in H. apply andb_true_iff in H as [Hl Hls].
    unfold plainLine in Hl. apply andb_true_iff in Hl as [Hi Hp].
    apply negb_true_iff in Hi, Hp. unfold isImportLine in Hi. unfold isPackageLine in Hp.
    unfold roaStep at 2. cbv zeta. rewrite Hi, Hp. cbn [roaInImport roaResult
      roaPackageFound roaImportReplaced].
    rewrite IH by exact Hls. rewrite <- app_assoc. reflexivity.
Qed.

Lemma roa_package :
  forall blk pkg r,
    isPackageLine pkg = true ->
    roaStep blk (mkRoa r false false false) pkg
    = mkRoa (r ++ [pkg; ""; blk]) false true true.
Proof.
  intros blk pkg r H. pose proof (package_not_import pkg H) as Hi.
  unfold isImportLine in Hi. unfold isPackageLine in H.
  unfold roaStep. cbv zeta. rewrite Hi, H. reflexivity.
Qed.

Lemma roa_in_block :
  forall blk rest r pf,
    closesImport rest = true ->
    fold_left (roaStep blk) rest (mkRoa r true pf true) = mkRoa r false pf true.
Proof.
  intros blk. induction rest as [|l rest IH]; intros r pf H; [discriminate|].
  destruct rest as [|l2 rest].
  - simpl in H. apply andb_true_iff in H as [Hi Hc]. apply negb_true_iff in Hi.
    unfold isImportLine in Hi. simpl. unfold roaStep. cbv zeta. rewrite Hi. simpl.
    rewrite Hc. reflexivity.
  - cbn [closesImport] in H. apply andb_true_iff in H as [Hl Hrest].
    cbn [fold_left].
    assert (Hs : roaStep blk (mkRoa r true pf true) l = mkRoa r true pf true).
    { unfold roaStep. cbv zeta. unfold isImportLine in Hl.
      destruct (HasPrefix (TrimSpace l) "import"); [reflexivity|].
      simpl in Hl. apply negb_true_iff in Hl. simpl. rewrite Hl. reflexivity. }
    rewrite Hs. apply IH. exact Hrest.
Qed.

Lemma roa_old_block :
  forall blk old r pf,
    importBlockLines old = true ->
    fold_left (roaStep blk) old (mkRoa r false pf true) = mkRoa r false pf true.
Proof.
  intros blk [|l rest] r pf H; [reflexivity|].
  simpl in H. apply andb_true_iff in H as [Hi Hc]. unfold isImportLine in Hi.
  cbn [fold_left].
  assert (Hs : roaStep blk (mkRoa r false pf true) l = mkRoa r true pf true).
  { unfold roaStep. cbv zeta. rewrite Hi. reflexivity. }
  rewrite Hs. apply roa_in_block. exact Hc.
Qed.

(** X18. In a file of plain lines with one package line and, after it, at
    most one import block, [replaceOrAddImports] puts an empty line and the
    new import block right after the package line, takes the old import
    block out, and keeps every other line, in order. *)
Theorem replaceOrAddImports_after_package :
  forall pre pkg mid old post blk,
    forallb plainLine pre = true ->
    isPackageLine pkg = true ->
    forallb plainLine mid = true ->
    importBlockLines old = true ->
    forallb plainLine post = true ->
    forallb oneLine (pre ++ pkg :: mid ++ old ++ post) = true ->
    replaceOrAddImports (Join (pre ++ pkg :: mid ++ old ++ post) nl) blk
    = Join (pre ++ pkg :: "" :: blk :: mid ++ post) nl.
Proof.
  intros pre pkg mid old post blk Hpre Hpkg Hmid Hold Hpost Hone.
  unfold replaceOrAddImports.
  rewrite SplitByte_Join;
    [|destruct pre; discriminate | apply Forall_forall; intros l Hl;
      exact (proj1 (forallb_forall _ _) Hone l Hl)].
  rewrite fold_left_app, roa_plain by exact Hpre. cbn [fold_left app].
  rewrite roa_package by exact Hpkg.
  rewrite !fold_left_app.
  rewrite roa_plain by exact Hmid.
  rewrite roa_old_block by exact Hold.
  rewrite roa_plain by exact Hpost. cbn [roaResult].
  rewrite <- !app_assoc. reflexivity.
Qed.

Lemma replaceOrAddImports_after_package_witness :
  replaceOrAddImports
    (Join (["// doc"] ++ "package p" :: [""] ++ ["import ("; "  os"; ")"] ++ ["func f() {}"])
       nl)
    "IMPORTS"
  = Join (["// doc"] ++ "package p" :: "" :: "IMPORTS" :: [""] ++ ["func f() {}"]) nl.
Proof.
  apply (replaceOrAddImports_after_package ["// doc"] "package p" [""]
           ["import ("; "  os"; ")"] ["func f() {}"] "IMPORTS"); reflexivity.
Defined.

(** ** Import blocks *)

Lemma mapHas_mapSet :
  forall m k v p, mapHas (mapSet m k v) p = String.eqb k p || mapHas m p.
Proof.
  induction m as [|[k' v'] m IH]; intros k v p; simpl.
  - reflexivity.
  - destruct (String.eqb_spec k' k) as [->|Hne]; simpl.
    + destruct (String.eqb k p); reflexivity.
    + rewrite IH. destruct (String.eqb k' p), (String.eqb k p); reflexivity.
Qed.

Lemma mapHas_keys :
  forall m p, mapHas m p = existsb (fun k => String.eqb k p) (keys m).
Proof. induction m as [|[k v] m IH]; intros p; simpl; [reflexivity | now rewrite IH]. Qed.

Lemma sortPath_filter :
  forall paths std third,
    fold_left sortPath paths (std, third)
    = (std ++ filter (fun p => negb (String.eqb p "runtime") && negb (isThirdParty p)) paths,
       third ++ filter (fun p => negb (String.eqb p "runtime") && isThirdParty p) paths).
Proof.
  induction paths as [|p paths IH]; intros std third; simpl.
  - now rewrite !app_nil_r.
  - destruct (String.eqb p "runtime"); simpl; [apply IH|].
    destruct (isThirdParty p); simpl; rewrite IH, <- app_assoc; reflexivity.
Qed.

Lemma HasSuffix_snoc :
  forall s c, HasSuffix (s ++ String c "") (String c "") = true.
Proof.
  intros s c. unfold HasSuffix. cbv zeta. rewrite length_append.
  cbn [String.length].
  replace (String.length s + 1 - 1) with (String.length s + 0) by lia.
  rewrite substring_append_r.
  destruct (Nat.leb_spec 1 (String.length s + 1)); [|lia].
  simpl. now rewrite Ascii.eqb_refl.
Qed.

Lemma prefix_byte : forall c s, String.prefix (String c "") (String c s) = true.
Proof.
  intros c s. cbn [prefix]. destruct (ascii_dec c c); [|contradiction].
  destruct s; reflexivity.
Qed.

Lemma inCutset_quote : forall c, inCutset c dquote = isByte c DQUOTE.
Proof. intros c. unfold dquote. cbn [inCutset]. apply orb_false_r. Qed.

Lemma trimRightCut_quote :
  forall p, allBytes notDQuote p = true -> trimRightCut dquote (p ++ dquote) = p.
Proof.
  induction p as [|c p IH]; intros H.
  - reflexivity.
  - simpl in H. apply andb_true_iff in H as [Hc Hp].
    change (String c p ++ dquote)%string with (String c (p ++ dquote)).
    cbn [trimRightCut]. rewrite IH by exact Hp.
    destruct p; [|reflexivity].
    unfold notDQuote in Hc. apply negb_true_iff in Hc.
    rewrite inCutset_quote, Hc. reflexivity.
Qed.

Lemma Trim_quoted :
  forall p, allBytes notDQuote p = true -> Trim (dquote ++ p ++ dquote) dquote = p.
Proof.
  intros p H. unfold Trim.
  change (dquote ++ p ++ dquote)%string with (String DQUOTE (p ++ dquote)).
  cbn [trimLeftCut]. rewrite inCutset_quote, isByte_refl.
  destruct p as [|c p].
  - reflexivity.
  - change (String c p ++ dquote)%string with (String c (p ++ dquote)).
    pose proof H as H'. simpl in H'. apply andb_true_iff in H' as [Hc Hp].
    unfold notDQuote in Hc. apply negb_true_iff in Hc.
    cbn [trimLeftCut]. rewrite inCutset_quote, Hc.
    change (String c (p ++ dquote)) with (String c p ++ dquote)%string.
    apply trimRightCut_quote. exact H.
Qed.

(** The line written for a path is read back as the path. *)
Lemma parseImportLine_path :
  forall m p,
    allBytes notDQuote p = true ->
    parseImportLine m (tab ++ dquote ++ p ++ dquote) = mapSet m p "".
Proof.
  intros m p H. unfold parseImportLine. cbv zeta.
  assert (Ht : TrimSpace (tab ++ dquote ++ p ++ dquote) = (dquote ++ p ++ dquote)%string).
  { change (tab ++ dquote ++ p ++ dquote)%string with (String TAB (String DQUOTE (p ++ dquote))).
    unfold TrimSpace. rewrite trimLeft_space by reflexivity.
    rewrite trimLeft_cons by reflexivity.
    rewrite trimRight_cons by reflexivity.
    unfold dquote. rewrite trimRight_snoc by reflexivity. reflexivity. }
  rewrite Ht, Trim_quoted by exact H.
  change (dquote ++ p ++ dquote)%string with (String DQUOTE (p ++ dquote)) at 1.
  unfold HasPrefix. unfold dquote at 1. rewrite prefix_byte.
  change (dquote ++ p ++ dquote)%string with ((dquote ++ p) ++ dquote)%string.
  unfold dquote at 2 3. rewrite HasSuffix_snoc. reflexivity.
Qed.

Lemma parse_path_lines :
  forall ps rest m,
    Forall (fun p => plainPath p = true) ps ->
    fold_left parseImportLine
      (SplitByte LF (String.concat "" (map importLine ps) ++ rest)) m
    = fold_left parseImportLine (SplitByte LF rest)
        (fold_left (fun m p => mapSet m p "") ps m).
Proof.
  induction ps as [|p ps IH]; intros rest m H; [reflexivity|].
  inversion H as [|? ? Hp Hps]; subst.
  assert (Hlf : oneLine p = true /\ allBytes notDQuote p = true).
  { unfold plainPath in Hp. unfold oneLine. clear -Hp.
    induction p as [|c p IHp]; simpl in *; [auto|].
    apply andb_true_iff in Hp as [Hc Hp]. apply andb_true_iff in Hc as [H1 H2].
    destruct (IHp Hp) as [-> ->]. rewrite H1, H2. auto. }
  destruct Hlf as [Hlf Hq].
  cbn [map]. rewrite concat_empty_cons.
  assert (Hc : ((importLine p ++ String.concat "" (map importLine ps)) ++ rest)%string
               = ((tab ++ dquote ++ p ++ dquote) ++ nl
                  ++ (String.concat "" (map importLine ps) ++ rest))%string).
  { unfold importLine. rewrite !append_assoc. reflexivity. }
  rewrite Hc, SplitByte_line.
  - cbn [fold_left]. rewrite parseImportLine_path by exact Hq. apply IH. exact Hps.
  - unfold oneLine in *. change (tab ++ dquote ++ p ++ dquote)%string
      with (String TAB (String DQUOTE (p ++ dquote))).
    cbn [allBytes]. change (notLF TAB) with true. change (notLF DQUOTE) with true.
    cbn [andb]. clear -Hlf. induction p as [|c p IHp]; simpl in *; [reflexivity|].
    apply andb_true_iff in Hlf as [-> Hp]. simpl. apply IHp, Hp.
Qed.

Lemma mapHas_fold_set :
  forall ps m p,
    mapHas (fold_left (fun m k => mapSet m k "") ps m) p
    = existsb (fun k => String.eqb k p) ps || mapHas m p.
Proof.
  induction ps as [|k ps IH]; intros m p; simpl; [reflexivity|].
  rewrite IH, mapHas_mapSet.
  destruct (String.eqb k p), (existsb _ ps), (mapHas m p); reflexivity.
Qed.

Lemma existsb_filter :
  forall (A : Type) (f g : A -> bool) l,
    existsb f (filter g l) = existsb (fun x => g x && f x) l.
Proof.
  intros A f g. induction l as [|x l IH]; simpl; [reflexivity|].
  destruct (g x); simpl; now rewrite IH.
Qed.

Lemma SplitByte_blank :
  forall rest, SplitByte LF (nl ++ rest) = "" :: SplitByte LF rest.
Proof. intros. apply (SplitByte_line "" rest). reflexivity. Qed.

(** X19. The import block written by [GenerateImportBlock] is read back by
    [parseImportBlock] as the paths it was written for, [runtime] apart,
    which is never written: a path is a key of the map read back if and only
    if it is a key of the map written and is not [runtime]. *)
Theorem import_block_round_trip :
  forall m p,
    forallb plainPath (keys m) = true ->
    mapHas (parseImportBlock (GenerateImportBlock m)) p
    = mapHas m p && negb (String.eqb p "runtime").
Proof.
  intros m p H.
  assert (Hall : Forall (fun k => plainPath k = true) (keys m)).
  { apply Forall_forall. intros k Hk. exact (proj1 (forallb_forall _ _) H k Hk). }
  unfold GenerateImportBlock.
  destruct m as [|e m']; [reflexivity|].
  cbn [List.length Nat.eqb]. cbv zeta. set (m := e :: m') in *.
  rewrite sortPath_filter. cbn [app].
  set (std := filter _ (keys m)). set (third := filter _ (keys m)).
  unfold parseImportBlock.
  rewrite SplitByte_line by reflexivity. cbn [fold_left].
  change (parseImportLine [] "import (") with (@nil (string * string)).
  rewrite parse_path_lines by (apply Forall_filter; exact Hall).
  set (m1 := fold_left (fun m0 p0 => mapSet m0 p0 "") std []).
  assert (Hrest :
            fold_left parseImportLine
              (SplitByte LF
                 ((if (0 <? List.length third) && (0 <? List.length std) then nl else "")
                  ++ String.concat "" (map importLine third) ++ ")" ++ nl ++ nl)) m1
            = fold_left (fun m0 p0 => mapSet m0 p0 "") third m1).
  { destruct (_ && _).
    - rewrite SplitByte_blank. cbn [fold_left].
      change (parseImportLine m1 "") with m1.
      rewrite parse_path_lines by (apply Forall_filter; exact Hall). reflexivity.
    - cbn [append].
      rewrite parse_path_lines by (apply Forall_filter; exact Hall). reflexivity. }
  rewrite Hrest. unfold m1.
  rewrite !mapHas_fold_set. change (mapHas [] p) with false. rewrite orb_false_r.
  unfold std, third. rewrite !existsb_filter, (mapHas_keys m p).
  generalize (keys m). clear. intros ks0.
  induction ks0 as [|k ks IH]; simpl; [reflexivity|].
  rewrite andb_orb_distrib_l, <- IH. clear IH.
  destruct (existsb _ ks), (existsb _ ks);
    destruct (String.eqb_spec k p) as [->|Hne];
    destruct (String.eqb _ "runtime"), (isThirdParty _); reflexivity.
Qed.

Lemma import_block_round_trip_witness :
  mapHas (parseImportBlock
            (GenerateImportBlock [("os", ""); ("runtime", ""); ("github.com/x/y", "")]))
    "runtime"
  = mapHas [("os", ""); ("runtime", ""); ("github.com/x/y", "")] "runtime"
    && negb (String.eqb "runtime" "runtime").
Proof.
  apply (import_block_round_trip [("os", ""); ("runtime", ""); ("github.com/x/y", "")]
           "runtime").
  reflexivity.
Defined.

(** ** Build directives, added and removed *)

Section BuildIgnore.

Import Compiler.

Lemma package_not_ignore :
  forall line, isPackageLine line = true -> isBuildIgnore line = false.
Proof.
  intros line. unfold isPackageLine, isBuildIgnore, HasPrefix. cbv zeta.
  destruct (TrimSpace line) as [|a t]; cbn [prefix]; [discriminate|].
  destruct (ascii_dec "p" a) as [<-|]; [|discriminate]. intros _.
  destruct (ascii_dec "/" "p"); [discriminate | reflexivity].
Qed.

Lemma scanPackage_header :
  forall pre pkg post i seen,
    forallb headerLine pre = true ->
    isPackageLine pkg = true ->
    scanPackage (pre ++ pkg :: post) i seen = (seen, Some (i + List.length pre)).
Proof.
  induction pre as [|l pre IH]; intros pkg post i seen Hpre Hpkg; simpl.
  - pose proof (package_not_ignore pkg Hpkg) as Hi.
    unfold isBuildIgnore in Hi. cbv zeta in Hi. rewrite Hi.
    unfold isPackageLine in Hpkg. rewrite Hpkg. now rewrite Nat.add_0_r.
  - simpl in Hpre. apply andb_true_iff in Hpre as [Hl Hpre].
    unfold headerLine in Hl. apply andb_true_iff in Hl as [Hi Hp].
    apply negb_true_iff in Hi, Hp.
    unfold isBuildIgnore in Hi. cbv zeta in Hi. rewrite Hi.
    unfold isPackageLine in Hp. rewrite Hp.
    rewrite IH by assumption. f_equal. f_equal. lia.
Qed.

Lemma scanPackage_seen :
  forall lines pkg post i,
    isPackageLine pkg = true ->
    fst (scanPackage (lines ++ pkg :: post) i true) = true.
Proof.
  induction lines as [|l lines IH]; intros pkg post i Hpkg; simpl.
  - unfold isPackageLine in Hpkg. rewrite Hpkg. simpl. now destruct (_ || _).
  - destruct (HasPrefix (TrimSpace l) "package "); simpl; [now destruct (_ || _)|].
    replace (if _ || _ then true else true) with true by now destruct (_ || _).
    apply IH. exact Hpkg.
Qed.

Lemma scanPackage_ignore :
  forall line rest i seen,
    isBuildIgnore line = true -> isPackageLine line = false ->
    scanPackage (line :: rest) i seen = scanPackage rest (i + 1) true.
Proof.
  intros line rest i seen Hi Hp. cbn [scanPackage]. cbv zeta.
  unfold isBuildIgnore in Hi. cbv zeta in Hi. unfold isPackageLine in Hp.
  rewrite Hi, Hp. reflexivity.
Qed.

Lemma headerLine_notIgnore :
  forall pre, forallb headerLine pre = true -> forallb notIgnoreLine pre = true.
Proof.
  induction pre as [|l pre IH]; simpl; intros H; [reflexivity|].
  apply andb_true_iff in H as [Hl Hpre]. unfold headerLine in Hl.
  apply andb_true_iff in Hl as [Hi _]. unfold notIgnoreLine at 1. rewrite Hi. simpl.
  apply IH, Hpre.
Qed.

(** X20. On a file without build-ignore directive whose lines before the
    package line are not package lines, [addBuildIgnore] writes the file
    with the two directives and an empty line put before the package line.
    On that text [removeBuildIgnore] gives the file back with an empty line
    before the package line, and a second [addBuildIgnore] finds the
    directive and writes nothing. *)
Theorem addBuildIgnore_then_remove :
  forall fs fs' filePath pre pkg post,
    forallb headerLine pre = true ->
    isPackageLine pkg = true ->
    forallb notIgnoreLine post = true ->
    forallb oneLine (pre ++ pkg :: post) = true ->
    addBuildIgnore fs filePath (Join (pre ++ pkg :: post) nl)
    = Ok (WriteFile fs filePath
            (Join (pre ++ ["//go:build ignore"; "// +build ignore"; ""] ++ pkg :: post) nl))
    /\ removeBuildIgnore
         (Join (pre ++ ["//go:build ignore"; "// +build ignore"; ""] ++ pkg :: post) nl)
       = Join (pre ++ "" :: pkg :: post) nl
    /\ addBuildIgnore fs' filePath
         (Join (pre ++ ["//go:build ignore"; "// +build ignore"; ""] ++ pkg :: post) nl)
       = Ok fs'.
Proof.
  intros fs fs' filePath pre pkg post Hpre Hpkg Hpost Hone.
  assert (Hone' : Forall (fun l => oneLine l = true) (pre ++ pkg :: post)).
  { apply Forall_forall. intros l Hl. exact (proj1 (forallb_forall _ _) Hone l Hl). }
  assert (Hadded : Forall (fun l => oneLine l = true)
                     (pre ++ ["//go:build ignore"; "// +build ignore"; ""] ++ pkg :: post)).
  { apply Forall_app in Hone' as [H1 H2]. apply Forall_app. split; [exact H1|].
    repeat (constructor; [reflexivity|]). exact H2. }
  split; [|split].
  - unfold addBuildIgnore. cbv zeta.
    rewrite SplitByte_Join by (first [exact Hone' | destruct pre; discriminate]).
    rewrite scanPackage_header by assumption. cbn [Nat.add].
    rewrite firstn_app, Nat.sub_diag, firstn_all, app_nil_r.
    rewrite skipn_app, Nat.sub_diag, skipn_all. reflexivity.
  - unfold removeBuildIgnore.
    rewrite SplitByte_Join by (first [exact Hadded | destruct pre; discriminate]).
    rewrite filter_app.
    rewrite (filter_all _ _ pre) by (apply headerLine_notIgnore; exact Hpre).
    cbn [app filter].
    change (negb (isBuildIgnore "//go:build ignore")) with false.
    change (negb (isBuildIgnore "// +build ignore")) with false.
    change (negb (isBuildIgnore "")) with true. cbv iota.
    rewrite (package_not_ignore pkg Hpkg). cbn [negb].
    rewrite (filter_all _ _ post) by exact Hpost. reflexivity.
  - unfold addBuildIgnore. cbv zeta.
    rewrite SplitByte_Join by (first [exact Hadded | destruct pre; discriminate]).
    change (pre ++ ["//go:build ignore"; "// +build ignore"; ""] ++ pkg :: post)
      with (pre ++ "//go:build ignore" :: (["// +build ignore"; ""] ++ pkg :: post)).
    assert (Hs : fst (scanPackage
                        (pre ++ "//go:build ignore"
                             :: (["// +build ignore"; ""] ++ pkg :: post)) 0 false)
                 = true).
    { clear -Hpre Hpkg. generalize 0. induction pre as [|l pre IH]; intros i.
      - cbn [app]. rewrite scanPackage_ignore by reflexivity.
        apply (scanPackage_seen ["// +build ignore"; ""]). exact Hpkg.
      - simpl in Hpre. apply andb_true_iff in Hpre as [Hl Hpre].
        unfold headerLine in Hl. apply andb_true_iff in Hl as [Hi Hp].
        apply negb_true_iff in Hi, Hp.
        unfold isBuildIgnore in Hi. cbv zeta in Hi. unfold isPackageLine in Hp.
        rewrite <- app_comm_cons. cbn [scanPackage]. cbv zeta. rewrite Hi, Hp.
        apply IH. exact Hpre. }
    destruct (scanPackage _ 0 false) as [seen idx]. simpl in Hs. subst seen. reflexivity.
Qed.

Lemma addBuildIgnore_then_remove_witness :
  addBuildIgnore twoSources "/w/a.gox.go" (Join (["// doc"] ++ "package p" :: ["var x = 1"]) nl)
  = Ok (WriteFile twoSources "/w/a.gox.go"
          (Join (["// doc"] ++ ["//go:build ignore"; "// +build ignore"; ""]
                 ++ "package p" :: ["var x = 1"]) nl))
  /\ removeBuildIgnore
       (Join (["// doc"] ++ ["//go:build ignore"; "// +build ignore"; ""]
              ++ "package p" :: ["var x = 1"]) nl)
     = Join (["// doc"] ++ "" :: "package p" :: ["var x = 1"]) nl
  /\ addBuildIgnore twoSources "/w/a.gox.go"
       (Join (["// doc"] ++ ["//go:build ignore"; "// +build ignore"; ""]
              ++ "package p" :: ["var x = 1"]) nl)
     = Ok twoSources.
Proof.
  apply (addBuildIgnore_then_remove twoSources twoSources "/w/a.gox.go" ["// doc"]
           "package p" ["var x = 1"]); reflexivity.
Defined.

Variable IsAbs : string -> bool.
Variable PathJoin : string -> string -> string.
Variable cwd : string.
Variable translate : string -> string -> option string.

(** X21. The walk over a directory leaves every file whose name does not
    end in [.gox.go] alone: when no path of the walk has that suffix, nothing
    is read, nothing is written and no error is reported. *)
Theorem processFiles_only_gox :
  forall c fs paths incremental,
    forallb notGoxPath paths = true ->
    processFiles IsAbs PathJoin cwd translate c fs paths incremental = Ok fs.
Proof.
  intros c fs. induction paths as [|p paths IH]; intros inc H; simpl; [reflexivity|].
  simpl in H. apply andb_true_iff in H as [Hp Hrest].
  unfold notGoxPath in Hp. apply negb_true_iff in Hp. rewrite Hp. apply IH. exact Hrest.
Qed.

End BuildIgnore.

Lemma processFiles_only_gox_witness :
  Compiler.processFiles unixIsAbs unixJoin "/w" markGenerated toOut twoSources
    ["/w/main.go"; "/w/README.md"] false
  = Compiler.Ok twoSources.
Proof.
  apply (processFiles_only_gox unixIsAbs unixJoin "/w" markGenerated toOut twoSources
           ["/w/main.go"; "/w/README.md"] false).
  reflexivity.
Defined.

(** ** One parameter sigil in host code *)

Lemma Index_absent :
  forall c s, allBytes (fun d => negb (isByte d c)) s = true -> Index s (String c "") = None.
Proof.
  intros c. induction s as [|a r IH]; intros H; [reflexivity|].
  simpl in H. apply andb_true_iff in H as [Ha Hr]. apply negb_true_iff in Ha.
  cbn [Index prefix].
  destruct (ascii_dec c a) as [->|Hne]; [rewrite isByte_refl in Ha; discriminate|].
  rewrite IH by exact Hr. reflexivity.
Qed.



Lemma sweepStandalone_step :
  forall fuel opener call builderName result,
    sweepStandalone (S fuel) opener call builderName result
    = match Index result opener with
      | None => Some result
      | Some start =>
          let '(braceCount, e) :=
            naiveBrace_loop (String.length result) result 1 (start + 2) in
          if braceCount =? 0 then
            sweepStandalone fuel opener call builderName
              (slice result 0 start
               ++ call builderName (TrimSpace (slice result (start + 2) (e - 1)))
               ++ sliceFrom result e)
          else Some result
      end.
Proof. reflexivity. Qed.

Lemma sweepStandalone_absent :
  forall fuel c d call builderName result,
    allBytes (fun x => negb (isByte x c)) result = true ->
    sweepStandalone (S fuel) (String c (String d "")) call builderName result = Some result.
Proof.
  intros fuel c d call b result H. rewrite sweepStandalone_step.
  rewrite (Index_first_byte c (String d "") result (Index_absent c result H)).
  reflexivity.
Qed.


Lemma sigilFree_no :
  forall s,
    sigilFree s = true ->
    allBytes (fun x => negb (isByte x "@")) s = true
    /\ allBytes (fun x => negb (isByte x "#")) s = true
    /\ allBytes (fun x => negb (isByte x "$")) s = true.
Proof.
  intros s H. unfold sigilFree in H. repeat split;
    (eapply allBytes_impl; [|exact H]); intros c Hc;
    apply andb_true_iff in Hc as [Hc H3]; apply andb_true_iff in Hc as [H1 H2]; assumption.
Qed.




(** ** Plain text in a promoted block *)







Section SmartPlain.

Variable ParseExpr : string -> option Expr.
Variable Quote : string -> string.
Variable smart : bool.
Variable E : emitters.


End SmartPlain.




(** ** A block of plain text *)


Section PlainBlock.

Variable ParseExpr : string -> option Expr.
Variable Quote : string -> string.
Variable smart : bool.
Variable E : emitters.


End PlainBlock.



(** ** The statements of a template of text and parameter sigils *)

Lemma exprToString_plain :
  forall format_Node x, plainExpr x = true -> exprToString format_Node x = exprText x.
Proof.
  intros fN. fix IH 1. intros x H. destruct x; simpl in *; try reflexivity; try discriminate.
  rewrite (IH x H). reflexivity.
Qed.

Lemma render_stmt :
  forall format_Node Quote builder o,
    match o with OpText _ => True | OpParam x => plainExpr x = true end ->
    render format_Node Quote builder o = stmt Quote builder o.
Proof.
  intros fN Q b [s|x] H; simpl; [reflexivity|].
  unfold callAddParam, addParamStmt. now rewrite exprToString_plain.
Qed.

Lemma render_textOps :
  forall format_Node Quote builder t,
    map (render format_Node Quote builder) (textOps t)
    = map (stmt Quote builder) (textOps t).
Proof.
  intros. unfold textOps. destruct (negb _); [|reflexivity].
  rewrite !map_map. reflexivity.
Qed.

Lemma render_bodyOps :
  forall format_Node Quote builder sigils t0,
    forallb plainSigil sigils = true ->
    map (render format_Node Quote builder) (bodyOps t0 sigils)
    = map (stmt Quote builder) (bodyOps t0 sigils).
Proof.
  intros fN Q b. induction sigils as [|[[e x] t] rest IH]; intros t0 H; simpl.
  - apply render_textOps.
  - simpl in H. apply andb_true_iff in H as [Hx Hrest].
    rewrite !map_app, render_textOps. cbn [map]. rewrite IH by exact Hrest.
    rewrite render_stmt by exact Hx. reflexivity.
Qed.

Lemma tokenize_body :
  forall ParseExpr smart t0 sigils,
    plainText t0 = true ->
    Forall (goodSigil ParseExpr) sigils ->
    tokenizeSQLContent smart (paramBody t0 sigils) = expectedTokens 0 t0 sigils.
Proof.
  intros P smart t0 sigils Ht0 Hs. rewrite tokenizeSQLContent_finish.
  pose proof (tokenize_paramBody P smart sigils t0 "" []
                (S (String.length (paramBody t0 sigils))) Ht0 Hs ltac:(lia)) as Htok.
  cbn [append String.length app] in Htok. exact Htok.
Qed.

Lemma generateParts_paramBody :
  forall ParseExpr format_Node Quote smart fuel t0 sigils v,
    plainText t0 = true ->
    Forall (goodSigil ParseExpr) sigils ->
    forallb plainSigil sigils = true ->
    generateParts ParseExpr format_Node Quote smart fuel
      (parseSQLBlock ParseExpr smart (paramBody t0 sigils) v)
    = Some (newBuilder v
            :: map (stmt Quote (v ++ "_builder")) (bodyOps t0 sigils)
            ++ [buildIt v]).
Proof.
  intros P fN Q smart fuel t0 sigils v Ht0 Hs Hp.
  unfold generateParts, Parser.generateParts_body, parseSQLBlock, builderOf. simpl.
  rewrite (tokenize_body P smart t0 sigils Ht0 Hs).
  rewrite (nodesParts_expectedTokens P fN Q smart _ _ sigils 0 t0 Hs).
  rewrite render_bodyOps by exact Hp. reflexivity.
Qed.

Lemma run_nil :
  forall env sigils t0 qb,
    existsb (fun s => isNil (env (sigilExpr s))) sigils = true ->
    run env (bodyOps t0 sigils) qb = None.
Proof.
  intros env. induction sigils as [|[[e x] t] rest IH]; intros t0 qb H; [discriminate|].
  cbn [bodyOps].
  destruct (run_textOps env t0 (OpParam x :: bodyOps t rest) qb) as (qb1 & Hr & _).
  rewrite Hr. cbn [run]. cbn [existsb] in H. unfold sigilExpr in H at 1. cbn [fst snd] in H.
  destruct (env x) eqn:Hx; try reflexivity; cbn [isNil orb] in H; cbn [Gox.AddParam];
    apply IH; exact H.
Qed.

(** C6, as the code has it: for a body [t0 #{e1} t1 #{e2} t2 ...], the
    texts free of sigil bytes and each [ei] a name, a literal or a selection,
    the statements written are, between the creation of the builder and
    [Build], the [AddText] calls for [t0], [B.AddParam(e1)], the calls for
    [t1], [B.AddParam(e2)], ... in this order.  Run on a new builder they
    leave in the args of the query, in the textual order, the values of
    [e1], [e2], ..., a slice value giving its elements in its place; when
    one of the values is nil the run panics. *)
Theorem C6_params_in_textual_order :
  forall ParseExpr format_Node Quote smart fuel t0 sigils v env,
    plainText t0 = true ->
    Forall (goodSigil ParseExpr) sigils ->
    forallb plainSigil sigils = true ->
    generateParts ParseExpr format_Node Quote smart fuel
      (parseSQLBlock ParseExpr smart (paramBody t0 sigils) v)
    = Some (newBuilder v
            :: map (stmt Quote (v ++ "_builder")) (bodyOps t0 sigils)
            ++ [buildIt v])
    /\ paramsOf (bodyOps t0 sigils) = map sigilExpr sigils
    /\ option_map (fun qb => Gox.args (Gox.Build qb))
         (run env (bodyOps t0 sigils) Gox.NewQueryBuilder)
       = if existsb (fun s => isNil (env (sigilExpr s))) sigils then None
         else Some (flat_map (fun s => spread (env (sigilExpr s))) sigils).
Proof.
  intros P fN Q smart fuel t0 sigils v env Ht0 Hs Hp.
  split; [now apply (generateParts_paramBody P fN Q) | split; [apply paramsOf_bodyOps|]].
  destruct (existsb _ sigils) eqn:Hn.
  - rewrite run_nil by exact Hn. reflexivity.
  - assert (Henv : Forall (fun s => env (sigilExpr s) <> Gox.VNil) sigils).
    { apply Forall_forall. intros s Hin Hv.
      assert (existsb (fun s => isNil (env (sigilExpr s))) sigils = true).
      { apply existsb_exists. exists s. split; [exact Hin | now rewrite Hv]. }
      congruence. }
    destruct (run_bodyOps env sigils t0 Gox.NewQueryBuilder Henv) as (qb & Hrun & Hargs).
    rewrite Hrun. simpl. rewrite Hargs. reflexivity.
Qed.

Lemma C6_params_in_textual_order_witness :
  generateParts Sample.parseIdent Sample.noFormat Sample.quoteASCII false 0
    (parseSQLBlock Sample.parseIdent false
       (paramBody "SELECT * FROM t WHERE a = " sampleSigils) "q")
  = Some (newBuilder "q"
          :: map (stmt Sample.quoteASCII ("q" ++ "_builder"))
               (bodyOps "SELECT * FROM t WHERE a = " sampleSigils)
          ++ [buildIt "q"])
  /\ paramsOf (bodyOps "SELECT * FROM t WHERE a = " sampleSigils)
     = map sigilExpr sampleSigils
  /\ option_map (fun qb => Gox.args (Gox.Build qb))
       (run sampleEnv (bodyOps "SELECT * FROM t WHERE a = " sampleSigils)
          Gox.NewQueryBuilder)
     = if existsb (fun s => isNil (sampleEnv (sigilExpr s))) sampleSigils then None
       else Some (flat_map (fun s => spread (sampleEnv (sigilExpr s))) sampleSigils).
Proof.
  apply (C6_params_in_textual_order Sample.parseIdent Sample.noFormat Sample.quoteASCII
           false 0 _ sampleSigils "q" sampleEnv).
  - reflexivity.
  - repeat constructor.
  - reflexivity.
Defined.

(** Against C6 as it is stated: the second of the three parameters is a
    slice of two elements; the statements written are in the textual
    order, but the args of the query built are the four values [a], [2],
    [3], [c], not the values of the three expressions. *)
Lemma C6_counterexample :
  generateParts Sample.parseIdent Sample.noFormat Sample.quoteASCII false 0
    (parseSQLBlock Sample.parseIdent false
       "SELECT * FROM t WHERE a = #{a} AND b IN (#{bs}) AND c = #{c}" "q")
  = Some ["q_builder := gox.NewQueryBuilder()";
          "q_builder.AddText(" ++ Sample.quoteASCII "SELECT * FROM t WHERE a = " ++ ")";
          "q_builder.AddParam(a)";
          "q_builder.AddText(" ++ Sample.quoteASCII " AND b IN (" ++ ")";
          "q_builder.AddParam(bs)";
          "q_builder.AddText(" ++ Sample.quoteASCII ") AND c = " ++ ")";
          "q_builder.AddParam(c)";
          "q := q_builder.Build()"]%string
  /\ option_map (fun qb => Gox.args (Gox.Build qb))
       (run sampleEnv
          [OpText "SELECT * FROM t WHERE a = "; OpParam (Ident "a");
           OpText " AND b IN ("; OpParam (Ident "bs");
           OpText ") AND c = "; OpParam (Ident "c")]
          Gox.NewQueryBuilder)
     = Some [Gox.VString "a"; Gox.VOther "2"; Gox.VOther "3"; Gox.VString "c"]
  /\ [Gox.VString "a"; Gox.VOther "2"; Gox.VOther "3"; Gox.VString "c"]
     <> map sampleEnv [Ident "a"; Ident "bs"; Ident "c"].
Proof.
  split; [vm_compute; reflexivity|].
  split; [vm_compute; reflexivity|].
  vm_compute. discriminate.
Qed.

(** ** Text preservation (C3) *)

Lemma textsOf_app : forall l1 l2, textsOf (l1 ++ l2) = textsOf l1 ++ textsOf l2.
Proof.
  induction l1 as [|[s|x] l1 IH]; intros l2; simpl; [reflexivity | now rewrite IH | apply IH].
Qed.

Lemma textsOf_texts : forall frags, textsOf (map OpText frags) = frags.
Proof. induction frags as [|s frags IH]; simpl; [reflexivity | now rewrite IH]. Qed.

Lemma textsOf_textOps :
  forall t,
    endsInCode t = true ->
    String.concat "" (textsOf (textOps t)) = keptText t.
Proof.
  intros t H. unfold textOps, keptText, endsInCode, isBlankText in *.
  destruct (String.eqb (TrimSpace t) ""); simpl in *; [reflexivity|].
  rewrite textsOf_texts. apply textFrags_concat. now apply negb_true_iff in H.
Qed.

Lemma textsOf_bodyOps :
  forall sigils t0,
    forallb endsInCode (t0 :: map sigilText sigils) = true ->
    String.concat "" (textsOf (bodyOps t0 sigils))
    = String.concat "" (map keptText (t0 :: map sigilText sigils)).
Proof.
  induction sigils as [|[[e x] t] rest IH]; intros t0 H.
  - simpl in H. rewrite andb_true_r in H. cbn [bodyOps map].
    rewrite textsOf_textOps by exact H. cbn [String.concat]. reflexivity.
  - cbn [forallb map] in H. apply andb_true_iff in H as [H0 Hrest].
    cbn [bodyOps]. rewrite textsOf_app. cbn [textsOf].
    rewrite concat_empty_app, textsOf_textOps by exact H0.
    change (map keptText (t0 :: map sigilText ((e, x, t) :: rest)))
      with (keptText t0 :: map keptText (t :: map sigilText rest)).
    rewrite concat_empty_cons. f_equal. apply IH. exact Hrest.
Qed.

Lemma textOfTokens_app :
  forall l1 l2, textOfTokens (l1 ++ l2) = (textOfTokens l1 ++ textOfTokens l2)%string.
Proof.
  intros. unfold textOfTokens. rewrite filter_app, map_app. apply concat_empty_app.
Qed.

Lemma textOfTokens_textToken :
  forall pos t, textOfTokens (textToken pos t) = if isBlankText t then "" else t.
Proof.
  intros. unfold textToken, isBlankText. destruct (String.eqb (TrimSpace t) ""); reflexivity.
Qed.

Lemma textOfTokens_skip :
  forall tok l, isTextToken tok = false -> textOfTokens (tok :: l) = textOfTokens l.
Proof. intros tok l H. unfold textOfTokens. cbn [filter]. now rewrite H. Qed.

Lemma textOfTokens_expected :
  forall sigils pos t0,
    textOfTokens (expectedTokens pos t0 sigils)
    = String.concat ""
        (filter (fun t => negb (isBlankText t)) (t0 :: map sigilText sigils)).
Proof.
  induction sigils as [|[[e x] t] rest IH]; intros pos t0.
  - cbn [expectedTokens map filter]. rewrite textOfTokens_textToken.
    destruct (isBlankText t0); reflexivity.
  - cbn [expectedTokens]. rewrite textOfTokens_app, textOfTokens_textToken.
    rewrite textOfTokens_skip by reflexivity. rewrite IH.
    change (map sigilText ((e, x, t) :: rest)) with (t :: map sigilText rest).
    cbn [filter]. destruct (isBlankText t0); cbn [negb]; [reflexivity|].
    now rewrite concat_empty_cons.
Qed.

(** C3, as the code has it, for a body [t0 #{e1} t1 #{e2} t2 ...] whose
    texts hold no sigil byte.  A text that is all white space, between two
    sigils or at an end of the body, gives no Text token and no statement;
    every other text is one Text token, verbatim.  The statements written
    are the [AddText] calls of the texts and the [AddParam] calls of the
    sigils, in the order of the body; when no text ends in a comment line,
    the texts handed to [AddText], joined in order, are the texts of the
    body that are not all white space, each without its comment lines. *)
Theorem C3_texts_between_sigils :
  forall ParseExpr format_Node Quote smart fuel t0 sigils v,
    plainText t0 = true ->
    Forall (goodSigil ParseExpr) sigils ->
    forallb plainSigil sigils = true ->
    textOfTokens (tokenizeSQLContent smart (paramBody t0 sigils))
    = String.concat ""
        (filter (fun t => negb (isBlankText t)) (t0 :: map sigilText sigils))
    /\ generateParts ParseExpr format_Node Quote smart fuel
         (parseSQLBlock ParseExpr smart (paramBody t0 sigils) v)
       = Some (newBuilder v
               :: map (stmt Quote (v ++ "_builder")) (bodyOps t0 sigils)
               ++ [buildIt v])
    /\ (forallb endsInCode (t0 :: map sigilText sigils) = true ->
        String.concat "" (textsOf (bodyOps t0 sigils))
        = String.concat "" (map keptText (t0 :: map sigilText sigils))).
Proof.
  intros P fN Q smart fuel t0 sigils v Ht0 Hs Hp.
  split; [|split].
  - rewrite (tokenize_body P smart t0 sigils Ht0 Hs). apply textOfTokens_expected.
  - now apply (generateParts_paramBody P fN Q).
  - apply textsOf_bodyOps.
Qed.

Lemma C3_texts_between_sigils_witness :
  textOfTokens
    (tokenizeSQLContent false
       (paramBody ("SELECT x" ++ nl ++ "-- drop me" ++ nl ++ "FROM t WHERE a IN (")
          [("a", Ident "a", " "); ("b", Ident "b", ")")]))
  = String.concat ""
      (filter (fun t => negb (isBlankText t))
         (("SELECT x" ++ nl ++ "-- drop me" ++ nl ++ "FROM t WHERE a IN (")%string
          :: map sigilText [("a", Ident "a", " "); ("b", Ident "b", ")")]))
  /\ generateParts Sample.parseIdent Sample.noFormat Sample.quoteASCII false 0
       (parseSQLBlock Sample.parseIdent false
          (paramBody ("SELECT x" ++ nl ++ "-- drop me" ++ nl ++ "FROM t WHERE a IN (")
             [("a", Ident "a", " "); ("b", Ident "b", ")")]) "q")
     = Some (newBuilder "q"
             :: map (stmt Sample.quoteASCII ("q" ++ "_builder"))
                  (bodyOps ("SELECT x" ++ nl ++ "-- drop me" ++ nl ++ "FROM t WHERE a IN (")
                     [("a", Ident "a", " "); ("b", Ident "b", ")")])
             ++ [buildIt "q"])
  /\ String.concat ""
       (textsOf
          (bodyOps ("SELECT x" ++ nl ++ "-- drop me" ++ nl ++ "FROM t WHERE a IN (")
             [("a", Ident "a", " "); ("b", Ident "b", ")")]))
     = ("SELECT x" ++ nl ++ "FROM t WHERE a IN (" ++ ")")%string.
Proof.
  destruct (C3_texts_between_sigils Sample.parseIdent Sample.noFormat Sample.quoteASCII
              false 0 ("SELECT x" ++ nl ++ "-- drop me" ++ nl ++ "FROM t WHERE a IN (")
              [("a", Ident "a", " "); ("b", Ident "b", ")")] "q"
              eq_refl ltac:(repeat constructor) eq_refl) as (H1 & H2 & H3).
  split; [exact H1 | split; [exact H2 | exact (H3 eq_refl)]].
Defined.

(** ** The calls of a file (C1) *)










(** The finder takes every double quote outside a literal for the start of
    one, also the double quote of a rune literal: the call that follows it
    is not reported. *)
Lemma quote_in_rune_literal_hides_call :
  findSQLBlocks quoteInRune = [].
Proof. vm_compute. reflexivity. Qed.

(** ** The closing bracket of a well-bracketed text *)

Lemma findMatching_loop_balanced :
  forall op cl inner pre post d fuel,
    isByte cl op = false ->
    allBytes notQuote inner = true ->
    depthAfter op cl d inner = Some 0 ->
    String.length inner < fuel ->
    findMatching_loop op cl fuel (pre ++ inner ++ String cl post) (S d) (String.length pre)
    = (0, String.length pre + String.length inner + 1).
Proof.
  intros op cl. induction inner as [|c r IH]; intros pre post d fuel Hne Hq Hd Hf.
  - simpl in Hd. injection Hd as ->. destruct fuel as [|fuel]; [simpl in Hf; lia|].
    cbn [append findMatching_loop String.length]. rewrite byteAt_at_length.
    rewrite length_append. cbn [String.length].
    destruct (Nat.ltb_spec (String.length pre) (String.length pre + S (String.length post)))
      as [_|]; [|lia].
    cbn [Nat.ltb Nat.leb andb]. rewrite Hne, isByte_refl.
    cbn [Nat.sub]. rewrite findMatching_loop_closed. f_equal. lia.
  - cbn [String.length] in Hf. destruct fuel as [|fuel]; [lia|].
    cbn [allBytes] in Hq. apply andb_true_iff in Hq as [Hc Hq].
    unfold notQuote in Hc. apply negb_true_iff in Hc.
    cbn [append findMatching_loop]. rewrite byteAt_at_length.
    rewrite length_append. cbn [String.length].
    destruct (Nat.ltb_spec (String.length pre)
                (String.length pre + S (String.length (r ++ String cl post)))) as [_|]; [|lia].
    cbn [Nat.ltb Nat.leb andb].
    specialize (IH (pre ++ String c "")%string post).
    replace ((pre ++ String c "") ++ r ++ String cl post)%string
      with (pre ++ String c (r ++ String cl post))%string in IH by norm_append.
    replace (String.length (pre ++ String c "")) with (String.length pre + 1) in IH
      by (rewrite length_append; reflexivity).
    cbn [depthAfter] in Hd.
    destruct (isByte c op).
    + replace (S d + 1) with (S (S d)) by lia.
      rewrite IH; [f_equal; lia | exact Hne | exact Hq | exact Hd | lia].
    + destruct (isByte c cl).
      * destruct d as [|d]; [discriminate|].
        replace (S (S d) - 1) with (S d) by lia.
        rewrite IH; [f_equal; lia | exact Hne | exact Hq | exact Hd | lia].
      * rewrite Hc.
        rewrite IH; [f_equal; lia | exact Hne | exact Hq | exact Hd | lia].
Qed.

(** In a text whose brackets are balanced and that holds no quote, the
    closing bracket after it is the one found. *)
Lemma findMatching_found :
  forall op cl pre inner post,
    isByte cl op = false ->
    allBytes notQuote inner = true ->
    depthAfter op cl 0 inner = Some 0 ->
    findMatching op cl (pre ++ inner ++ String cl post) (String.length pre)
    = Some (inner, String.length pre + String.length inner).
Proof.
  intros op cl pre inner post Hne Hq Hd. unfold findMatching.
  rewrite findMatching_loop_balanced; try assumption.
  - cbn [Nat.eqb]. rewrite Nat.add_sub. rewrite slice_middle. reflexivity.
  - rewrite !length_append. lia.
Qed.

Lemma depthAfter_app :
  forall op cl a b d,
    depthAfter op cl d (a ++ b)
    = match depthAfter op cl d a with
      | Some d' => depthAfter op cl d' b
      | None => None
      end.
Proof.
  intros op cl. induction a as [|c a IH]; intros b d; [reflexivity|].
  cbn [append depthAfter]. destruct (isByte c op); [apply IH|].
  destruct (isByte c cl); [destruct d; [reflexivity | apply IH] | apply IH].
Qed.

Lemma depthAfter_none :
  forall op cl t d,
    allBytes (fun c => negb (isByte c op) && negb (isByte c cl)) t = true ->
    depthAfter op cl d t = Some d.
Proof.
  intros op cl. induction t as [|c t IH]; intros d H; [reflexivity|].
  cbn [allBytes] in H. apply andb_true_iff in H as [Hc Ht].
  apply andb_true_iff in Hc as [Ho Hc]. apply negb_true_iff in Ho, Hc.
  cbn [depthAfter]. rewrite Ho, Hc. apply IH, Ht.
Qed.

Lemma calmText_braces :
  forall t, calmText t = true ->
    allBytes (fun c => negb (isByte c "{") && negb (isByte c "}")) t = true.
Proof.
  intros t H. eapply allBytes_impl; [|exact H]. intros c Hc.
  apply andb_true_iff in Hc as [_ Hc]. unfold noBraceNoQuote in Hc.
  apply andb_true_iff in Hc as [Hc _]. exact Hc.
Qed.

Lemma simpleExpr_braces :
  forall e, simpleExpr e = true ->
    allBytes (fun c => negb (isByte c "{") && negb (isByte c "}")) e = true.
Proof.
  intros e H. eapply allBytes_impl; [|exact H]. intros c Hc.
  unfold noBraceNoQuote in Hc. apply andb_true_iff in Hc as [Hc _]. exact Hc.
Qed.

Lemma calmText_notQuote : forall t, calmText t = true -> allBytes notQuote t = true.
Proof.
  intros t H. eapply allBytes_impl; [|exact H]. intros c Hc.
  apply andb_true_iff in Hc as [_ Hc]. unfold noBraceNoQuote in Hc.
  apply andb_true_iff in Hc as [_ Hc]. exact Hc.
Qed.

Lemma simpleExpr_notQuote : forall e, simpleExpr e = true -> allBytes notQuote e = true.
Proof.
  intros e H. eapply allBytes_impl; [|exact H]. intros c Hc.
  unfold noBraceNoQuote in Hc. apply andb_true_iff in Hc as [_ Hc]. exact Hc.
Qed.

Lemma calmText_plain : forall t, calmText t = true -> plainText t = true.
Proof.
  intros t H. eapply allBytes_impl; [|exact H]. intros c Hc.
  now apply andb_true_iff in Hc as [Hc _].
Qed.

Lemma paramBody_balanced :
  forall ParseExpr sigils t0 d,
    calmText t0 = true ->
    Forall (goodSigil ParseExpr) sigils ->
    forallb calmSigil sigils = true ->
    depthAfter "{" "}" d (paramBody t0 sigils) = Some d
    /\ allBytes notQuote (paramBody t0 sigils) = true.
Proof.
  intros P. induction sigils as [|[[e x] t] rest IH]; intros t0 d Ht0 Hs Hc.
  - cbn [paramBody]. split; [apply depthAfter_none, calmText_braces, Ht0|].
    apply calmText_notQuote, Ht0.
  - inversion Hs as [|? ? Hg Hrest]; subst. destruct Hg as (He & _ & _).
    cbn [forallb] in Hc. apply andb_true_iff in Hc as [Hct Hc].
    unfold calmSigil in Hct. apply andb_true_iff in Hct as [_ Hct].
    unfold sigilText in Hct. cbn [snd] in Hct.
    destruct (IH t d Hct Hrest Hc) as [IHd IHq].
    cbn [paramBody]. split.
    + rewrite depthAfter_app, depthAfter_none by (apply calmText_braces, Ht0).
      change ("#{" ++ e ++ "}" ++ paramBody t rest)%string
        with (String "#" (String "{" (e ++ String "}" (paramBody t rest)))).
      cbn [depthAfter]. change (isByte "#" "{") with false. change (isByte "#" "}") with false.
      change (isByte "{" "{") with true. cbv iota.
      rewrite depthAfter_app, depthAfter_none by (apply simpleExpr_braces, He).
      cbn [depthAfter]. change (isByte "}" "{") with false. change (isByte "}" "}") with true.
      cbv iota. exact IHd.
    + rewrite allBytes_append, (calmText_notQuote t0 Ht0).
      change ("#{" ++ e ++ "}" ++ paramBody t rest)%string
        with (String "#" (String "{" (e ++ String "}" (paramBody t rest)))).
      cbn [allBytes andb]. change (notQuote "#") with true. change (notQuote "{") with true.
      cbn [andb]. rewrite allBytes_append, (simpleExpr_notQuote e He).
      cbn [allBytes andb]. change (notQuote "}") with true. exact IHq.
Qed.

(** ** Code that holds no sigil byte *)

Lemma prefix_append : forall p rest, String.prefix p (p ++ rest) = true.
Proof.
  induction p as [|c p IH]; intros rest; cbn [append prefix]; [destruct rest; reflexivity|].
  destruct (ascii_dec c c); [apply IH | contradiction].
Qed.

(** The first place of a text that begins with [c], after bytes that are
    not [c]. *)
Lemma Index_found :
  forall c p pre rest,
    allBytes (fun x => negb (isByte x c)) pre = true ->
    Index (pre ++ String c p ++ rest) (String c p) = Some (String.length pre).
Proof.
  intros c p. induction pre as [|a pre IH]; intros rest H.
  - cbn [append String.length]. 
    change (String c (p ++ rest)) with (String c p ++ rest)%string.
    destruct (String c p ++ rest)%string eqn:He; [discriminate|].
    cbn [Index]. rewrite <- He, prefix_append. reflexivity.
  - cbn [allBytes] in H. apply andb_true_iff in H as [Ha Hp]. apply negb_true_iff in Ha.
    change (String a pre ++ String c p ++ rest)%string
      with (String a (pre ++ String c p ++ rest)).
    cbn [Index prefix].
    destruct (ascii_dec c a) as [->|Hne]; [rewrite isByte_refl in Ha; discriminate|].
    rewrite IH by exact Hp. reflexivity.
Qed.

Lemma sigilFree_append :
  forall a b, sigilFree (a ++ b) = sigilFree a && sigilFree b.
Proof. intros. unfold sigilFree. apply allBytes_append. Qed.

Lemma sigilFree_Join :
  forall sep parts,
    sigilFree sep = true -> forallb sigilFree parts = true ->
    sigilFree (Join parts sep) = true.
Proof.
  intros sep. induction parts as [|x [|y rest] IH]; intros Hsep H.
  - reflexivity.
  - cbn [forallb] in H. now apply andb_true_iff in H as [H _].
  - cbn [forallb] in H. apply andb_true_iff in H as [Hx Hr].
    rewrite Join_cons, !sigilFree_append, Hx, Hsep. apply IH; assumption.
Qed.

Lemma sigilFree_uint :
  forall u, sigilFree (NilEmpty.string_of_uint u) = true.
Proof. induction u; cbn [NilEmpty.string_of_uint]; try reflexivity; exact IHu. Qed.

Lemma sigilFree_itoa : forall n, sigilFree (itoa n) = true.
Proof. intros. apply sigilFree_uint. Qed.

Lemma plainText_sigilFree : forall t, plainText t = true -> sigilFree t = true.
Proof.
  intros t H. eapply allBytes_impl; [|exact H]. intros c Hc.
  apply negb_true_iff in Hc. unfold isSpecial in Hc.
  apply orb_false_iff in Hc as [Hc Ha]. apply orb_false_iff in Hc as [Hc Hd].
  apply orb_false_iff in Hc as [_ Hh]. now rewrite Ha, Hh, Hd.
Qed.

Lemma sigilFree_SplitByte :
  forall s, sigilFree s = true -> forallb sigilFree (SplitByte LF s) = true.
Proof.
  induction s as [|c s IH]; intros H; [reflexivity|].
  unfold sigilFree in H. cbn [allBytes] in H. apply andb_true_iff in H as [Hc Hs].
  specialize (IH Hs). cbn [SplitByte].
  destruct (isByte c LF); [exact IH|].
  destruct (SplitByte LF s) as [|l ls].
  - cbn [forallb]. unfold sigilFree. cbn [allBytes]. now rewrite Hc.
  - cbn [forallb] in *. apply andb_true_iff in IH as [Hl Hls].
    unfold sigilFree in *. cbn [allBytes]. now rewrite Hc, Hl, Hls.
Qed.

Lemma sigilFree_linesFrags :
  forall lines n i,
    forallb sigilFree lines = true -> forallb sigilFree (linesFrags n i lines) = true.
Proof.
  induction lines as [|l rest IH]; intros n i H; [reflexivity|].
  cbn [forallb] in H. apply andb_true_iff in H as [Hl Hr].
  cbn [linesFrags]. rewrite forallb_app, IH by exact Hr. rewrite andb_true_r.
  unfold lineFrags. cbv zeta. destruct (_ || _); [reflexivity|].
  destruct (_ || _); [|reflexivity].
  destruct (i <? n - 1); cbn [app forallb]; rewrite Hl; reflexivity.
Qed.

Lemma sigilFree_textFrags :
  forall t, sigilFree t = true -> forallb sigilFree (textFrags t) = true.
Proof.
  intros t H. unfold textFrags. destruct (String.eqb t ""); [reflexivity|].
  apply sigilFree_linesFrags, sigilFree_SplitByte, H.
Qed.

Section NestedQuery.

Variable ParseExpr : string -> option Expr.
Variable format_Node : Expr -> option string.
Variable Quote : string -> string.
Variable smart : bool.

(** [strconv.Quote] brings in none of [@], [#] and [$]. *)
Hypothesis Quote_sigilFree : forall s, sigilFree s = true -> sigilFree (Quote s) = true.

Lemma sigilFree_stmts :
  forall b,
    sigilFree b = true ->
    forall sigils t0,
    calmText t0 = true ->
    forallb calmSigil sigils = true ->
    forallb sigilFree (map (stmt Quote b) (bodyOps t0 sigils)) = true.
Proof.
  intros b Hb.
  assert (Htext : forall t, calmText t = true ->
                    forallb sigilFree (map (stmt Quote b) (textOps t)) = true).
  { intros t Ht. unfold textOps. destruct (negb _); [|reflexivity].
    pose proof (sigilFree_textFrags t (plainText_sigilFree t (calmText_plain t Ht))) as Hf.
    induction (textFrags t) as [|s frags IHf]; [reflexivity|].
    cbn [forallb] in Hf. apply andb_true_iff in Hf as [Hs Hfr].
    cbn [map forallb stmt]. rewrite IHf by exact Hfr. rewrite andb_true_r.
    unfold addTextStmt. rewrite !sigilFree_append, Hb, Quote_sigilFree by exact Hs.
    reflexivity. }
  induction sigils as [|[[e x] t] rest IH]; intros t0 Ht0 Hc.
  - apply Htext, Ht0.
  - cbn [forallb] in Hc. apply andb_true_iff in Hc as [Hs Hc].
    unfold calmSigil, sigilExpr, sigilText in Hs. cbn [fst snd] in Hs.
    apply andb_true_iff in Hs as [Hs Ht]. apply andb_true_iff in Hs as [_ Hx].
    cbn [bodyOps]. rewrite map_app, forallb_app, Htext by exact Ht0.
    cbn [map forallb stmt andb]. rewrite IH by assumption. rewrite andb_true_r.
    unfold addParamStmt. rewrite !sigilFree_append, Hb, Hx. reflexivity.
Qed.

Lemma sigilFree_queryFunc :
  forall v parts,
    sigilFree v = true -> forallb sigilFree parts = true ->
    sigilFree (queryFunc v parts) = true.
Proof.
  intros v parts Hv Hp. unfold queryFunc.
  rewrite !sigilFree_append, Hv, (sigilFree_Join indent2 parts eq_refl Hp). reflexivity.
Qed.

(** The sweeps on code that holds none of [@], [#], [$]. *)
Lemma sweeps_unchanged :
  forall E fuel code builderName,
    sigilFree code = true ->
    processCodeBlockExpressions_body ParseExpr Quote smart E (S fuel) code builderName
    = Some code.
Proof.
  intros E fuel code b H. destruct (sigilFree_no code H) as (Ha & Hp & Ht).
  pose proof (Index_absent "@" code Ha) as Hat.
  unfold processCodeBlockExpressions_body.
  cbn [sweepDoubleAt]. rewrite (Index_first_byte "@" "@{" code Hat).
  cbn [sweepAtBlock]. rewrite (Index_first_byte "@" "{" code Hat).
  cbn [sweepAtLine]. rewrite sliceFrom_zero, Hat.
  rewrite !sweepStandalone_absent by assumption. reflexivity.
Qed.

Lemma nested_query_replaced :
  forall fuel pre t0 sigils post builderName,
    sigilFree pre = true ->
    sigilFree post = true ->
    calmText t0 = true ->
    Forall (goodSigil ParseExpr) sigils ->
    forallb calmSigil sigils = true ->
    let v := ("__double_at_query_" ++ itoa (String.length pre))%string in
    processCodeBlockExpressions ParseExpr format_Node Quote smart (S fuel)
      (pre ++ "@@{" ++ paramBody t0 sigils ++ "}" ++ post) builderName
    = Some (pre
            ++ queryFunc v
                 (newBuilder v
                  :: map (stmt Quote (v ++ "_builder")) (bodyOps t0 sigils)
                  ++ [buildIt v])
            ++ post)%string.
Proof.
  intros fuel pre t0 sigils post b Hpre Hpost Ht0 Hs Hc v.
  set (body := paramBody t0 sigils).
  set (code := (pre ++ "@@{" ++ body ++ "}" ++ post)%string).
  assert (Hplain : forallb plainSigil sigils = true).
  { clear -Hc. induction sigils as [|s rest IH]; [reflexivity|].
    cbn [forallb] in *. apply andb_true_iff in Hc as [Hs Hc]. rewrite IH by exact Hc.
    unfold calmSigil in Hs. apply andb_true_iff in Hs as [Hs _].
    apply andb_true_iff in Hs as [Hs _]. unfold plainSigil. now rewrite Hs. }
  destruct (sigilFree_no pre Hpre) as (Hpa & _ & _).
  assert (Hidx : Index code "@@{" = Some (String.length pre)).
  { unfold code. apply (Index_found "@" "@{" pre (body ++ "}" ++ post) Hpa). }
  destruct (paramBody_balanced ParseExpr sigils t0 0 Ht0 Hs Hc) as [Hd Hq].
  assert (Hm : findMatchingBrace code (String.length pre + 3)
               = Some (body, String.length pre + 3 + String.length body)).
  { unfold code.
    replace (pre ++ "@@{" ++ body ++ "}" ++ post)%string
      with ((pre ++ "@@{") ++ body ++ String "}" post)%string by norm_append.
    replace (String.length pre + 3) with (String.length (pre ++ "@@{"))
      by (rewrite length_append; reflexivity).
    apply findMatching_found; [reflexivity | exact Hq | exact Hd]. }
  assert (Hv : sigilFree v = true).
  { unfold v. rewrite sigilFree_append, sigilFree_itoa. reflexivity. }
  assert (Hvb : sigilFree (v ++ "_builder") = true).
  { rewrite sigilFree_append, Hv. reflexivity. }
  set (parts := newBuilder v
                :: map (stmt Quote (v ++ "_builder")) (bodyOps t0 sigils) ++ [buildIt v]).
  assert (Hparts : forallb sigilFree parts = true).
  { unfold parts. cbn [forallb].
    rewrite forallb_app, (sigilFree_stmts _ Hvb sigils t0 Ht0 Hc).
    unfold newBuilder, buildIt. cbn [forallb].
    rewrite !sigilFree_append, Hv. reflexivity. }
  assert (Hgen : generateGoCodeForSQL_body format_Node Quote smart
                   (emit ParseExpr format_Node Quote smart fuel)
                   (parseSQLBlock ParseExpr smart body v)
                 = Some (queryFunc v parts)).
  { unfold generateGoCodeForSQL_body.
    pose proof (generateParts_paramBody ParseExpr format_Node Quote smart fuel t0 sigils v
                  (calmText_plain t0 Ht0) Hs Hplain) as Hg.
    unfold generateParts in Hg. fold body in Hg. rewrite Hg. reflexivity. }
  assert (Hres : sigilFree (pre ++ queryFunc v parts ++ post) = true).
  { rewrite !sigilFree_append, Hpre, Hpost, sigilFree_queryFunc by assumption.
    reflexivity. }
  unfold processCodeBlockExpressions. cbn [emit pce_].
  unfold processCodeBlockExpressions_body at 1.
  cbn [sweepDoubleAt]. fold code. rewrite Hidx, Hm. cbn [gen_].
  fold v. rewrite Hgen.
  assert (Hsplice : (slice code 0 (String.length pre) ++ queryFunc v parts
                     ++ sliceFrom code (String.length pre + 3 + String.length body + 1))%string
                    = (pre ++ queryFunc v parts ++ post)%string).
  { f_equal.
    - unfold code. rewrite slice_append_l by lia. unfold slice.
      rewrite Nat.sub_0_r. apply substring_all.
    - f_equal. unfold code.
      replace (pre ++ "@@{" ++ body ++ "}" ++ post)%string
        with ((pre ++ "@@{" ++ body ++ "}") ++ post)%string by norm_append.
      replace (String.length pre + 3 + String.length body + 1)
        with (String.length (pre ++ "@@{" ++ body ++ "}")) by norm_length.
      apply sliceFrom_append. }
  rewrite Hsplice.
  pose proof (sweeps_unchanged (emit ParseExpr format_Node Quote smart (S fuel)) (S fuel)
                (pre ++ queryFunc v parts ++ post) b Hres) as Hsw.
  unfold processCodeBlockExpressions_body in Hsw.
  destruct (sigilFree_no _ Hres) as (Ha & _ & _).
  pose proof (Index_first_byte "@" "@{" _ (Index_absent "@" _ Ha)) as Hno.
  cbn [sweepDoubleAt] in Hsw. rewrite Hno in Hsw.
  cbn [sweepDoubleAt]. rewrite Hno. exact Hsw.
Qed.

End NestedQuery.

Lemma escape_sigilFree : forall s, sigilFree s = true -> sigilFree (Sample.escape s) = true.
Proof.
  induction s as [|c s IH]; intros H; [reflexivity|].
  unfold sigilFree in H. cbn [allBytes] in H. apply andb_true_iff in H as [Hc Hs].
  specialize (IH Hs). cbn [Sample.escape].
  unfold sigilFree in *.
  destruct (isByte c DQUOTE); [cbn [allBytes]; rewrite IH; reflexivity|].
  destruct (isByte c "\"); [cbn [allBytes]; rewrite IH; reflexivity|].
  destruct (isByte c LF); [cbn [allBytes]; rewrite IH; reflexivity|].
  destruct (isByte c TAB); [cbn [allBytes]; rewrite IH; reflexivity|].
  destruct (isByte c CR); [cbn [allBytes]; rewrite IH; reflexivity|].
  cbn [allBytes]. now rewrite Hc, IH.
Qed.

Lemma quoteASCII_sigilFree :
  forall s, sigilFree s = true -> sigilFree (Sample.quoteASCII s) = true.
Proof.
  intros s H. unfold Sample.quoteASCII.
  change (String DQUOTE (Sample.escape s ++ String DQUOTE ""))
    with (String DQUOTE "" ++ Sample.escape s ++ String DQUOTE "")%string.
  rewrite !sigilFree_append, escape_sigilFree by exact H. reflexivity.
Qed.

(** C2, as the code has it.  Among the top-level SQL text a [@@{...}] is
    skipped by the emitter, which writes nothing for it: the scenario gives
    the two [AddText] calls of the text around it and no call for the nested
    query, and so does every template (the node adds no statement).  In host
    code that holds no other sigil, [@@{ body }], the body made of text and
    parameter sigils, is replaced in place by a function, called at once,
    that creates the builder [__double_at_query_N_builder], [N] being the
    place of the sigil in the code, hands it the calls of the body, builds
    the query and returns it; the builder of the surrounding template does
    not occur in what is written.  The later sweeps run over the function
    too: [strconv.Quote] is taken to write none of [@], [#], [$] into a
    text that holds none. *)
Theorem C2_double_at_skipped_at_top_level :
  (forall ParseExpr format_Node Quote fuel,
     generateParts ParseExpr format_Node Quote false fuel
       (parseSQLBlock ParseExpr false nestedScenario "__gox_sql_0")
     = Some [newBuilder "__gox_sql_0";
             addTextStmt "__gox_sql_0_builder" (Quote "SELECT (");
             addTextStmt "__gox_sql_0_builder" (Quote ") FROM t");
             buildIt "__gox_sql_0"])
  /\ (forall ParseExpr format_Node Quote smart fuel before content expr after v,
        generateParts ParseExpr format_Node Quote smart fuel
          (mkSQLBlock (before ++ SQLExpression SQLExprDoubleAtQuery content expr :: after) v)
        = generateParts ParseExpr format_Node Quote smart fuel
            (mkSQLBlock (before ++ after) v))
  /\ (forall ParseExpr format_Node Quote smart fuel pre t0 sigils post builderName,
        (forall s, sigilFree s = true -> sigilFree (Quote s) = true) ->
        sigilFree pre = true ->
        sigilFree post = true ->
        calmText t0 = true ->
        Forall (goodSigil ParseExpr) sigils ->
        forallb calmSigil sigils = true ->
        let v := ("__double_at_query_" ++ itoa (String.length pre))%string in
        processCodeBlockExpressions ParseExpr format_Node Quote smart (S fuel)
          (pre ++ "@@{" ++ paramBody t0 sigils ++ "}" ++ post) builderName
        = Some (pre
                ++ queryFunc v
                     (newBuilder v
                      :: map (stmt Quote (v ++ "_builder")) (bodyOps t0 sigils)
                      ++ [buildIt v])
                ++ post)%string).
Proof.
  split; [|split].
  - intros. vm_compute. reflexivity.
  - intros. unfold generateParts, generateParts_body. simpl.
    rewrite nodesParts_skips_double_at. reflexivity.
  - intros PE fN Q smart fuel pre t0 sigils post b HQ Hpre Hpost Ht0 Hs Hc.
    now apply nested_query_replaced.
Qed.

Lemma C2_double_at_skipped_at_top_level_witness :
  processCodeBlockExpressions Sample.parseIdent Sample.noFormat Sample.quoteASCII false 1
    ("q := " ++ "@@{" ++ paramBody " WHERE id = " [("x", Ident "x", " ")] ++ "}" ++ ";")
    "b"
  = Some ("q := "
          ++ queryFunc "__double_at_query_5"
               ["__double_at_query_5_builder := gox.NewQueryBuilder()";
                "__double_at_query_5_builder.AddText("
                ++ Sample.quoteASCII " WHERE id = " ++ ")";
                "__double_at_query_5_builder.AddParam(x)";
                "__double_at_query_5 := __double_at_query_5_builder.Build()"]
          ++ ";")%string.
Proof.
  apply (proj2 (proj2 C2_double_at_skipped_at_top_level)
           Sample.parseIdent Sample.noFormat Sample.quoteASCII false 0
           "q := " " WHERE id = " [("x", Ident "x", " ")] ";" "b").
  - exact quoteASCII_sigilFree.
  - reflexivity.
  - reflexivity.
  - reflexivity.
  - repeat constructor.
  - reflexivity.
Defined.

(** Inside an [@{...}] block the nested query does reach the surrounding
    builder: the sigil is replaced first, and the sweep of the [@{...}]
    block then hands the text of the function to [AddText]. *)
Lemma nested_query_inside_at_block :
  exists rest,
    processCodeBlockExpressions Sample.parseIdent Sample.noFormat Sample.quoteASCII false 3
      "x := @{ a @@{ b } }" "B"
    = Some ("x := B.AddText(" ++ Sample.quoteASCII " a func()(__result gox.Query) " ++ ")"
            ++ rest)%string.
Proof. eexists. vm_compute. reflexivity. Qed.

(** ** The tokens of an [@] line (C8) *)

(** The step of the tokenizer at an [@] line whose tail holds no [{]. *)
Lemma atLine_step :
  forall smart content i ts toks,
    atLineStart content i = true ->
    allBytes notBrace (lineTail content i) = true ->
    tokenizeStep smart content i ts toks
    = match (if smart then smartScopeEnd content i else None) with
      | Some e =>
          Continue e e (flushText content ts i toks ++ promotedTokens content i e)
      | None =>
          Continue (lineEndFrom content (i + 1)) (lineEndFrom content (i + 1))
            (flushText content ts i toks ++ atLineTokens content i)
      end.
Proof.
  intros smart content i ts toks Hstart Hb.
  unfold atLineStart in Hstart.
  apply andb_true_iff in Hstart as [Hstart Hdd].
  apply andb_true_iff in Hstart as [Hstart Hnb].
  apply andb_true_iff in Hstart as [Hat Hlt].
  apply negb_true_iff in Hnb, Hdd. apply Nat.ltb_lt in Hlt.
  assert (Hh : isByte (byteAt content i) "#" = false).
  { apply isByte_eq in Hat. rewrite Hat. reflexivity. }
  assert (Hd : isByte (byteAt content i) "$" = false).
  { apply isByte_eq in Hat. rewrite Hat. reflexivity. }
  unfold tokenizeStep. cbv zeta.
  destruct (Nat.ltb_spec (i + 1) (String.length content)) as [_|]; [|lia].
  rewrite Hh, Hd, Hat. cbn [andb orElse].
  rewrite Hdd.
  destruct (Nat.ltb_spec (i + 1) (String.length content)) as [_|]; [|lia].
  rewrite Hnb. cbn [andb]. unfold atLine.
  rewrite atLineScan_tail by (lia || exact Hb).
  fold (lineTail content i).
  destruct smart.
  - rewrite trySmartScopeProcessing_tail.
    destruct (smartScopeEnd content i) as [e|]; cbn [ShouldHandle LineEndPos BlockContent orElse].
    + unfold promotedTokens. reflexivity.
    + cbn [noSmartScope ShouldHandle]. unfold atLineTokens.
      destruct (negb (String.eqb (TrimSpace (lineTail content i)) ""));
        rewrite <- ?app_assoc; reflexivity.
  - unfold trySmartScopeProcessing. cbn [negb orb noSmartScope ShouldHandle orElse].
    unfold atLineTokens.
    destruct (negb (String.eqb (TrimSpace (lineTail content i)) ""));
      rewrite <- ?app_assoc; reflexivity.
Qed.

(** *** The end of a line *)

Lemma lineEnd_loop_run :
  forall line pre rest fuel,
    allBytes lineByte line = true ->
    startsLine rest = true ->
    String.length line <= fuel ->
    lineEnd_loop fuel (pre ++ line ++ rest) (String.length pre)
    = String.length pre + String.length line.
Proof.
  induction line as [|c line IH]; intros pre rest fuel Hl Hr Hf.
  - cbn [append String.length]. rewrite Nat.add_0_r.
    destruct fuel as [|fuel]; [reflexivity|]. cbn [lineEnd_loop].
    destruct rest as [|d rest].
    + rewrite append_nil_r, Nat.ltb_irrefl. reflexivity.
    + rewrite byteAt_at_length. cbn [startsLine] in Hr.
      destruct (isByte d LF); [now rewrite andb_false_r|].
      cbn [orb] in Hr. rewrite Hr. now rewrite andb_false_r.
  - cbn [allBytes] in Hl. apply andb_true_iff in Hl as [Hc Hl].
    unfold lineByte in Hc. apply andb_true_iff in Hc as [Hc1 Hc2].
    cbn [String.length] in Hf.
    destruct fuel as [|fuel]; [lia|].
    cbn [lineEnd_loop append]. rewrite byteAt_at_length, Hc1, Hc2, length_append.
    cbn [String.length].
    destruct (Nat.ltb_spec (String.length pre)
                (String.length pre + S (String.length (line ++ rest)))) as [_|]; [|lia].
    cbn [andb].
    specialize (IH (pre ++ String c "")%string rest fuel Hl Hr ltac:(lia)).
    replace ((pre ++ String c "") ++ line ++ rest)%string
      with (pre ++ String c (line ++ rest))%string in IH by norm_append.
    replace (String.length (pre ++ String c "")) with (String.length pre + 1) in IH
      by (rewrite length_append; reflexivity).
    rewrite IH. cbn [String.length]. lia.
Qed.

Lemma lineEndFrom_line :
  forall pre line rest,
    allBytes lineByte line = true ->
    startsLine rest = true ->
    lineEndFrom (pre ++ line ++ rest) (String.length pre)
    = String.length pre + String.length line.
Proof.
  intros. unfold lineEndFrom. apply lineEnd_loop_run; try assumption.
  rewrite !length_append. lia.
Qed.

Lemma lineTail_line :
  forall pre tail rest,
    allBytes lineByte tail = true ->
    startsLine rest = true ->
    lineTail (pre ++ "@" ++ tail ++ rest) (String.length pre) = tail
    /\ lineEndFrom (pre ++ "@" ++ tail ++ rest) (String.length pre + 1)
       = String.length pre + 1 + String.length tail.
Proof.
  intros pre tail rest Hl Hr.
  assert (He : lineEndFrom (pre ++ "@" ++ tail ++ rest) (String.length pre + 1)
               = String.length pre + 1 + String.length tail).
  { replace (pre ++ "@" ++ tail ++ rest)%string
      with ((pre ++ "@") ++ tail ++ rest)%string by norm_append.
    replace (String.length pre + 1) with (String.length (pre ++ "@"))
      by (rewrite length_append; reflexivity).
    now apply lineEndFrom_line. }
  split; [|exact He].
  unfold lineTail. rewrite He.
  replace (pre ++ "@" ++ tail ++ rest)%string
    with ((pre ++ "@") ++ tail ++ rest)%string by norm_append.
  replace (String.length pre + 1) with (String.length (pre ++ "@"))
    by (rewrite length_append; reflexivity).
  apply slice_middle.
Qed.

(** *** The whole body: text, an [@] line, text *)

Lemma tokenize_around_at :
  forall smart pre region r2 toks,
    plainText pre = true ->
    plainText r2 = true ->
    tokenizeStep smart (pre ++ "@" ++ region ++ r2) (String.length pre) 0 []
    = Continue (String.length pre + 1 + String.length region)
        (String.length pre + 1 + String.length region)
        (flushText (pre ++ "@" ++ region ++ r2) 0 (String.length pre) [] ++ toks) ->
    tokenizeSQLContent smart (pre ++ "@" ++ region ++ r2)
    = textToken 0 pre ++ toks
      ++ textToken (String.length pre + 1 + String.length region) r2.
Proof.
  intros smart pre region r2 toks Hpre Hr2 Hstep.
  set (content := (pre ++ "@" ++ region ++ r2)%string) in *.
  assert (Hlen : String.length content
                 = String.length pre + 1 + String.length region + String.length r2).
  { unfold content. norm_length. }
  rewrite tokenizeSQLContent_finish.
  replace (S (String.length content))
    with (String.length pre + S (String.length r2 + (1 + String.length region))) by lia.
  rewrite tokenize_loop_plain_run.
  - cbn [Nat.add tokenize_loop].
    destruct (Nat.ltb_spec (String.length pre) (String.length content)) as [_|]; [|lia].
    rewrite Hstep.
    assert (Hflush : flushText content 0 (String.length pre) [] = textToken 0 pre).
    { unfold content.
      pose proof (flushText_text "" pre ("@" ++ region ++ r2) []) as Hf.
      cbn [append String.length Nat.add app] in Hf. exact Hf. }
    rewrite Hflush.
    rewrite tokenize_loop_plain_run.
    + rewrite tokenize_loop_end by lia.
      replace content with ((pre ++ "@" ++ region) ++ r2)%string
        by (unfold content; norm_append).
      replace (String.length pre + 1 + String.length region)
        with (String.length (pre ++ "@" ++ region)) by norm_length.
      rewrite finish_text. now rewrite app_assoc.
    + intros k Hk.
      replace content with ((pre ++ "@" ++ region) ++ r2 ++ "")%string
        by (unfold content; rewrite append_nil_r; norm_append).
      replace (String.length pre + 1 + String.length region)
        with (String.length (pre ++ "@" ++ region)) by norm_length.
      apply plainText_run; assumption.
  - intros k Hk. rewrite Nat.add_0_l.
    pose proof (plainText_run "" pre ("@" ++ region ++ r2) k Hpre Hk) as H.
    cbn [append String.length Nat.add] in H. exact H.
Qed.

Lemma atLineStart_shape :
  forall pre tail rest,
    allBytes notBrace tail = true ->
    startsLine rest = true ->
    (tail ++ rest)%string <> "" ->
    atLineStart (pre ++ "@" ++ tail ++ rest) (String.length pre) = true.
Proof.
  intros pre tail rest Hb Hr Hne.
  set (X := (tail ++ rest)%string) in *.
  assert (H0 : forall c X', X = String c X' ->
                 isByte c "{" = false
                 /\ forall d X2, X' = String d X2 ->
                      isByte c "@" = true -> isByte d "{" = false).
  { intros c X' HX. unfold X in HX.
    assert (Hterm : forall a, isByte a LF || isByte a CR = true ->
                      isByte a "{" = false /\ isByte a "@" = false).
    { intros a Ha. apply orb_true_iff in Ha as [Ha|Ha]; apply isByte_eq in Ha; subst a;
        split; reflexivity. }
    destruct tail as [|a [|b tail]].
    - cbn [append] in HX. subst rest. cbn [startsLine] in Hr.
      destruct (Hterm c Hr) as [H1 H2]. split; [exact H1|].
      intros d X2 _ Hc. congruence.
    - cbn [append] in HX. injection HX as -> <-.
      cbn [allBytes] in Hb. apply andb_true_iff in Hb as [Hc _].
      unfold notBrace in Hc. apply negb_true_iff in Hc. split; [exact Hc|].
      intros d X2 -> _. cbn [startsLine] in Hr. now destruct (Hterm d Hr).
    - cbn [append] in HX. injection HX as -> <-.
      cbn [allBytes] in Hb. apply andb_true_iff in Hb as [Hc Hb].
      apply andb_true_iff in Hb as [Hd _].
      unfold notBrace in Hc, Hd. apply negb_true_iff in Hc, Hd. split; [exact Hc|].
      intros d X2 HX2 _. injection HX2 as <- _. exact Hd. }
  destruct X as [|c X'] eqn:HX; [contradiction|].
  destruct (H0 c X' eq_refl) as [Hc Hd].
  unfold atLineStart.
  replace (pre ++ "@" ++ String c X')%string with (pre ++ String "@" (String c X'))%string
    by reflexivity.
  rewrite byteAt_at_length.
  replace (byteAt (pre ++ String "@" (String c X')) (String.length pre + 1)) with c.
  2:{ replace (pre ++ String "@" (String c X'))%string
        with ((pre ++ "@") ++ String c X')%string by norm_append.
      replace (String.length pre + 1) with (String.length (pre ++ "@"))
        by (rewrite length_append; reflexivity).
      now rewrite byteAt_at_length. }
  rewrite Hc, length_append. cbn [String.length].
  destruct (Nat.ltb_spec (String.length pre + 1) (String.length pre + S (S (String.length X'))))
    as [_|]; [|lia].
  change (isByte "@" "@") with true. cbn [andb negb].
  destruct (isByte c "@") eqn:Hca; [|now rewrite andb_false_r].
  destruct X' as [|d X2].
  - cbn [String.length].
    destruct (Nat.ltb_spec (String.length pre + 2) (String.length pre + 2)); [lia|].
    reflexivity.
  - replace (byteAt (pre ++ String "@" (String c (String d X2))) (String.length pre + 2))
      with d.
    + rewrite (Hd d X2 eq_refl eq_refl). now rewrite andb_false_r.
    + replace (pre ++ String "@" (String c (String d X2)))%string
        with ((pre ++ String "@" (String c "")) ++ String d X2)%string by norm_append.
      replace (String.length pre + 2) with (String.length (pre ++ String "@" (String c "")))
        by (rewrite length_append; reflexivity).
      now rewrite byteAt_at_length.
Qed.

(** *** The parenthesis picked on the tail *)

Lemma fcsp_run_control :
  forall head done rest prev last fuel,
    allBytes notQuote head = true ->
    controlOnly prev head = true ->
    (forall X, isFollowingIdentifier (done ++ X) (String.length done) = isIdentByte prev) ->
    exists last',
      findControlStructureParen_loop (String.length head + fuel) (done ++ head ++ rest)
        last (String.length done)
      = findControlStructureParen_loop fuel (done ++ head ++ rest) last'
          (String.length done + String.length head)
      /\ (forall c, isByte c "(" = true -> isIdentByte c = false ->
          forall head', head = (head' ++ String c "")%string ->
          last' = Some (String.length done + String.length head')).
Proof.
  induction head as [|c head IH]; intros done rest prev last fuel Hq Hc Hprev.
  - exists last. cbn [String.length append]. rewrite !Nat.add_0_r. split; [reflexivity|].
    intros c _ _ head' H. destruct head'; discriminate.
  - cbn [allBytes] in Hq. apply andb_true_iff in Hq as [Hqc Hq].
    unfold notQuote in Hqc. apply negb_true_iff in Hqc.
    cbn [controlOnly] in Hc. apply andb_true_iff in Hc as [Hcc Hc].
    assert (Hnext : forall X, isFollowingIdentifier ((done ++ String c "") ++ X)
                                (String.length (done ++ String c "")) = isIdentByte c).
    { intros X. unfold isFollowingIdentifier. rewrite length_append. cbn [String.length].
      destruct (Nat.eqb_spec (String.length done + 1) 0); [lia|].
      replace (String.length done + 1 - 1) with (String.length done) by lia.
      rewrite append_assoc. cbn [append]. now rewrite byteAt_at_length. }
    cbn [String.length Nat.add findControlStructureParen_loop append].
    rewrite byteAt_at_length, length_append. cbn [String.length].
    destruct (Nat.ltb_spec (String.length done)
                (String.length done + S (String.length (head ++ rest)))) as [_|]; [|lia].
    change (done ++ String c (head ++ rest))%string
      with (done ++ (String c (head ++ rest)))%string.
    rewrite Hprev.
    assert (Hcont : forall last0,
              exists last',
                findControlStructureParen_loop (String.length head + fuel)
                  (done ++ String c (head ++ rest)) last0 (String.length done + 1)
                = findControlStructureParen_loop fuel (done ++ String c (head ++ rest)) last'
                    (String.length done + S (String.length head))
                /\ (forall c0, isByte c0 "(" = true -> isIdentByte c0 = false ->
                    forall head', head = (head' ++ String c0 "")%string ->
                    last' = Some (String.length done + S (String.length head')))).
    { intros last0.
      destruct (IH (done ++ String c "")%string rest c last0 fuel Hq Hc Hnext)
        as (last' & Hrun & Hlast).
      exists last'.
      replace ((done ++ String c "") ++ head ++ rest)%string
        with (done ++ String c (head ++ rest))%string in Hrun by norm_append.
      replace (String.length (done ++ String c "")) with (String.length done + 1) in Hrun, Hlast
        by (rewrite length_append; reflexivity).
      split.
      - rewrite Hrun. f_equal; lia.
      - intros c0 H1 H2 head' Hh. rewrite (Hlast c0 H1 H2 head' Hh). f_equal; lia. }
    destruct (isByte c "(") eqn:Hp.
    + cbn [negb orb] in Hcc. apply negb_true_iff in Hcc. rewrite Hcc.
      destruct (Hcont (Some (String.length done))) as (last' & Hrun & Hlast).
      exists (match head with "" => Some (String.length done) | _ => last' end).
      destruct head as [|d head].
      * cbn [String.length Nat.add] in *. split; [reflexivity|].
        intros c0 _ _ head' Hh. destruct head' as [|x [|y z]]; try discriminate.
        cbn [String.length]. f_equal; lia.
      * split; [exact Hrun|].
        intros c0 H1 H2 head' Hh. destruct head' as [|x head']; [discriminate|].
        cbn [append] in Hh. injection Hh as <- Hh.
        rewrite (Hlast c0 H1 H2 head' Hh). cbn [String.length]. f_equal; lia.
    + rewrite Hqc.
      destruct (Hcont last) as (last' & Hrun & Hlast).
      exists last'. split; [exact Hrun|].
      intros c0 H1 H2 head' Hh. destruct head' as [|x head'].
      * cbn [append] in Hh. injection Hh as <- _. congruence.
      * cbn [append] in Hh. injection Hh as <- Hh.
        rewrite (Hlast c0 H1 H2 head' Hh). cbn [String.length]. f_equal; lia.
Qed.

Lemma fcsp_run_plain :
  forall text done rest last fuel,
    allBytes (fun c => notOpenParen c && notQuote c) text = true ->
    findControlStructureParen_loop (String.length text + fuel) (done ++ text ++ rest)
      last (String.length done)
    = findControlStructureParen_loop fuel (done ++ text ++ rest) last
        (String.length done + String.length text).
Proof.
  induction text as [|c text IH]; intros done rest last fuel H.
  - cbn [String.length Nat.add]. now rewrite Nat.add_0_r.
  - cbn [allBytes] in H. apply andb_true_iff in H as [Hc H].
    apply andb_true_iff in Hc as [Hp Hq].
    unfold notOpenParen in Hp. unfold notQuote in Hq. apply negb_true_iff in Hp, Hq.
    cbn [String.length Nat.add findControlStructureParen_loop append].
    rewrite byteAt_at_length, length_append. cbn [String.length].
    destruct (Nat.ltb_spec (String.length done)
                (String.length done + S (String.length (text ++ rest)))) as [_|]; [|lia].
    rewrite Hp, Hq.
    specialize (IH (done ++ String c "")%string rest last fuel H).
    replace ((done ++ String c "") ++ text ++ rest)%string
      with (done ++ String c (text ++ rest))%string in IH by norm_append.
    replace (String.length (done ++ String c "")) with (String.length done + 1) in IH
      by (rewrite length_append; reflexivity).
    rewrite IH. f_equal; lia.
Qed.

(** The parenthesis picked on a tail without quotes is its last [(], when
    no [(] before it follows an identifier byte. *)
Lemma fcsp_last :
  forall head after,
    allBytes notQuote head = true ->
    controlOnly "@" (head ++ "(") = true ->
    allBytes (fun c => notOpenParen c && notQuote c) after = true ->
    findControlStructureParen (head ++ "(" ++ after) = Some (String.length head).
Proof.
  intros head after Hq Hc Ha. unfold findControlStructureParen.
  assert (Hq' : allBytes notQuote (head ++ "(") = true).
  { rewrite allBytes_append, Hq. reflexivity. }
  destruct (fcsp_run_control (head ++ "(") "" after "@" None
              (S (String.length after)) Hq' Hc)
    as (last' & Hrun & Hlast).
  { intros X. reflexivity. }
  cbn [append String.length Nat.add] in Hrun.
  replace ((head ++ "(") ++ after)%string with (head ++ "(" ++ after)%string in Hrun
    by norm_append.
  replace (S (String.length (head ++ "(" ++ after)))
    with (String.length (head ++ "(") + S (String.length after)) by norm_length.
  rewrite Hrun.
  rewrite (Hlast "("%char eq_refl eq_refl head eq_refl).
  cbn [String.length Nat.add].
  pose proof (fcsp_run_plain after (head ++ "(") "" (Some (String.length head)) 1 Ha) as Hp.
  rewrite append_nil_r in Hp.
  replace ((head ++ "(") ++ after)%string with (head ++ "(" ++ after)%string in Hp
    by norm_append.
  replace (S (String.length after)) with (String.length after + 1) by lia.
  rewrite Hp. cbn [findControlStructureParen_loop].
  rewrite <- length_append.
  replace ((head ++ "(") ++ after)%string with (head ++ "(" ++ after)%string by norm_append.
  rewrite Nat.ltb_irrefl. reflexivity.
Qed.

Lemma callsOnly_following :
  forall s prev p,
    callsOnly prev s = true ->
    p < String.length s -> byteAt s p = "("%char ->
    isIdentByte (match p with 0 => prev | S p' => byteAt s p' end) = true.
Proof.
  induction s as [|c s IH]; intros prev p H Hp Hb; [simpl in Hp; lia|].
  cbn [callsOnly] in H. apply andb_true_iff in H as [Hc H].
  destruct p as [|p].
  - rewrite byteAt_cons_0 in Hb. subst c. exact Hc.
  - rewrite byteAt_cons_S in Hb. cbn [String.length] in Hp.
    specialize (IH c p H ltac:(lia) Hb).
    destruct p as [|p]; [exact IH|]. rewrite byteAt_cons_S. exact IH.
Qed.

(** On a tail in which every [(] follows an identifier byte no parenthesis
    is picked. *)
Lemma fcsp_calls_only :
  forall tail, callsOnly "@" tail = true -> findControlStructureParen tail = None.
Proof.
  intros tail H. destruct (findControlStructureParen tail) as [p|] eqn:Hf; [|reflexivity].
  apply findControlStructureParen_spec in Hf as (Hlt & Hb & Hn).
  pose proof (callsOnly_following tail "@" p H Hlt Hb) as Hi.
  unfold isFollowingIdentifier in Hn. destruct p as [|p]; [discriminate Hi|].
  cbn [Nat.eqb] in Hn. replace (S p - 1) with p in Hn by lia. congruence.
Qed.

(** *** A text that is not all white space *)

Lemma isSpaceRune_beyond :
  forall s, isSpaceRune s = true -> allBytes (fun c => negb (isASCII c)) s = true.
Proof.
  intros s H.
  assert (Hhi : forall c n, nat_of_ascii c = n -> 128 <= n -> negb (isASCII c) = true).
  { intros c n <- Hn. unfold isASCII. destruct (Nat.ltb_spec (nat_of_ascii c) 128); [lia|].
    reflexivity. }
  destruct s as [|c [|d [|e [|f s]]]]; try discriminate.
  - cbn [isSpaceRune] in H. unfold isSpace2 in H. cbv zeta in H.
    apply andb_true_iff in H as [Hc Hd]. apply Nat.eqb_eq in Hc.
    cbn [allBytes]. rewrite (Hhi c _ Hc) by lia.
    apply orb_true_iff in Hd as [Hd|Hd]; apply Nat.eqb_eq in Hd;
      rewrite (Hhi d _ Hd) by lia; reflexivity.
  - cbn [isSpaceRune] in H. unfold isSpace3 in H. cbv zeta in H.
    cbn [allBytes].
    assert (128 <= nat_of_ascii c /\ 128 <= nat_of_ascii d /\ 128 <= nat_of_ascii e)
      as (Hc & Hd & He).
    { repeat match type of H with
             | (_ || _) = true => apply orb_true_iff in H as [H|H]
             end;
        repeat match goal with
               | H : (_ && _) = true |- _ => apply andb_true_iff in H as [? ?]
               | H : (_ || _) = true |- _ => apply orb_true_iff in H as [H|H]
               | H : (_ =? _) = true |- _ => apply Nat.eqb_eq in H
               | H : (_ <=? _) = true |- _ => apply Nat.leb_le in H
               end; lia. }
    rewrite (Hhi c _ eq_refl Hc), (Hhi d _ eq_refl Hd), (Hhi e _ eq_refl He). reflexivity.
Qed.

(** The white space cut from the left does not go beyond a byte of ASCII
    that is no white space. *)
Lemma trimLeft_stops :
  forall n a c b,
    String.length a <= n ->
    isASCII c = true -> isSpace c = false ->
    exists a', trimLeft (a ++ String c b) = (a' ++ String c b)%string.
Proof.
  induction n as [|n IH]; intros a c b Hn Ha Hs.
  - destruct a; [|simpl in Hn; lia]. exists "". cbn [append].
    now apply trimLeft_cons.
  - destruct a as [|x a]; [exists ""; cbn [append]; now apply trimLeft_cons|].
    cbn [String.length] in Hn.
    assert (Hlo : forall y z, isSpace2 y c = false /\ isSpace3 y c z = false
                              /\ isSpace3 y z c = false).
    { intros y z.
      assert (Hc : nat_of_ascii c < 128)
        by (unfold isASCII in Ha; now apply Nat.ltb_lt in Ha).
      unfold isSpace2, isSpace3. cbv zeta.
      repeat match goal with
             | |- context [Nat.eqb (nat_of_ascii c) ?k] =>
                 destruct (Nat.eqb_spec (nat_of_ascii c) k); [lia|]
             | |- context [Nat.leb 128 (nat_of_ascii c)] =>
                 destruct (Nat.leb_spec 128 (nat_of_ascii c)); [lia|]
             end.
      rewrite ?andb_false_r, ?andb_false_l, ?orb_false_r. cbn [orb andb].
      rewrite ?andb_false_r. auto. }
    cbn [append trimLeft]. destruct (isSpace x).
    { destruct (IH a c b ltac:(lia) Ha Hs) as [a' H]. exists a'. exact H. }
    destruct a as [|y a].
    { cbn [append]. destruct (Hlo x c) as (H2 & _ & _). rewrite H2.
      destruct b as [|z b]; [exists (String x ""); reflexivity|].
      destruct (Hlo x z) as (_ & H3 & _). rewrite H3. exists (String x ""). reflexivity. }
    cbn [append]. destruct (isSpace2 x y).
    { cbn [String.length] in Hn. destruct (IH a c b ltac:(lia) Ha Hs) as [a' H].
      exists a'. exact H. }
    destruct a as [|z a].
    { cbn [append]. destruct (Hlo x y) as (_ & _ & H3). rewrite H3.
      exists (String x (String y "")). reflexivity. }
    cbn [append]. destruct (isSpace3 x y z).
    { cbn [String.length] in Hn. destruct (IH a c b ltac:(lia) Ha Hs) as [a' H].
      exists a'. exact H. }
    exists (String x (String y (String z a))). reflexivity.
Qed.

Lemma trimRight_keeps :
  forall a c b,
    isASCII c = true -> isSpace c = false ->
    exists b', trimRight (a ++ String c b) = (a ++ String c b')%string.
Proof.
  induction a as [|x a IH]; intros c b Ha Hs.
  - exists (trimRight b). cbn [append]. now apply trimRight_cons.
  - destruct (IH c b Ha Hs) as [b' H]. exists b'.
    cbn [append trimRight]. rewrite H.
    destruct (a ++ String c b')%string as [|y r] eqn:He; [destruct a; discriminate|].
    destruct (isSpaceRune (String x (String y r))) eqn:Hr; [|reflexivity].
    exfalso. apply isSpaceRune_beyond in Hr.
    change (String x (String y r)) with (String x "" ++ String y r)%string in Hr.
    rewrite <- He in Hr. rewrite !allBytes_append in Hr.
    cbn [allBytes] in Hr. rewrite Ha in Hr. cbn [negb andb] in Hr.
    rewrite !andb_false_r in Hr. discriminate.
Qed.

(** A text that holds a byte of ASCII that is no white space is not cut
    down to nothing. *)
Lemma TrimSpace_nonblank :
  forall a c b,
    isASCII c = true -> isSpace c = false ->
    TrimSpace (a ++ String c b) <> "".
Proof.
  intros a c b Ha Hs. unfold TrimSpace.
  destruct (trimLeft_stops (String.length a) a c b (le_n _) Ha Hs) as [a' ->].
  destruct (trimRight_keeps a' c b Ha Hs) as [b' ->].
  destruct a'; discriminate.
Qed.

(** *** The rule on the tail *)

Lemma tailByte_parts :
  forall t, allBytes tailByte t = true ->
    allBytes lineByte t = true /\ allBytes notQuote t = true /\ allBytes notBrace t = true.
Proof.
  intros t H. repeat split; (eapply allBytes_impl; [|exact H]); intros c Hc;
    unfold tailByte in Hc; apply andb_true_iff in Hc as [Hc Hb];
    apply andb_true_iff in Hc as [Hl Hq]; assumption.
Qed.

Lemma lineByte_false :
  forall t, lineByte t = false -> t = LF \/ t = CR.
Proof.
  intros t H. unfold lineByte in H.
  destruct (isByte t LF) eqn:H1; [left; now apply isByte_eq|].
  destruct (isByte t CR) eqn:H2; [right; now apply isByte_eq|]. discriminate H.
Qed.

Lemma noParen_calm :
  forall s, allBytes noParen s = true -> allBytes notQuote s = true ->
    allBytes (fun c => notOpenParen c && notQuote c) s = true.
Proof.
  induction s as [|c s IH]; intros Hnp Hq; [reflexivity|].
  cbn [allBytes] in *. apply andb_true_iff in Hnp as [Hc Hnp].
  apply andb_true_iff in Hq as [Hqc Hq]. rewrite IH by assumption.
  unfold noParen in Hc. apply andb_true_iff in Hc as [Hc _].
  unfold notOpenParen. now rewrite Hc, Hqc.
Qed.

Lemma smartScopeEnd_promoted :
  forall pre head in1 t in2 r1 r2,
    allBytes tailByte head = true ->
    allBytes tailByte in1 = true ->
    controlOnly "@" (head ++ "(") = true ->
    allBytes noParen in1 = true ->
    lineByte t = false ->
    allBytes notQuote in2 = true ->
    depthAfter "(" ")" 0 in2 = Some 0 ->
    allBytes lineByte r1 = true ->
    startsLine r2 = true ->
    let block := (head ++ "(" ++ in1 ++ String t in2 ++ ")" ++ r1)%string in
    smartScopeEnd (pre ++ "@" ++ block ++ r2) (String.length pre)
    = Some (String.length pre + 1 + String.length block)
    /\ lineTail (pre ++ "@" ++ block ++ r2) (String.length pre) = (head ++ "(" ++ in1)%string
    /\ slice (pre ++ "@" ++ block ++ r2) (String.length pre + 1)
         (String.length pre + 1 + String.length block) = block.
Proof.
  intros pre head in1 t in2 r1 r2 Hh Hi1 Hc Hnp Ht Hq2 Hd Hr1 Hr2 block.
  destruct (tailByte_parts head Hh) as (Hhl & Hhq & Hhb).
  destruct (tailByte_parts in1 Hi1) as (Hil & Hiq & Hib).
  set (tail := (head ++ "(" ++ in1)%string).
  set (rest := (String t in2 ++ ")" ++ r1 ++ r2)%string).
  set (content := (pre ++ "@" ++ block ++ r2)%string).
  assert (Hcontent : content = (pre ++ "@" ++ tail ++ rest)%string)
    by (unfold content, block, tail, rest; norm_append).
  assert (Htl : allBytes lineByte tail = true).
  { unfold tail. rewrite !allBytes_append, Hhl, Hil. reflexivity. }
  assert (Hrest : startsLine rest = true).
  { unfold rest. cbn [append startsLine]. unfold lineByte in Ht.
    destruct (isByte t LF), (isByte t CR); try reflexivity. discriminate Ht. }
  destruct (lineTail_line pre tail rest Htl Hrest) as [Htail Hend].
  rewrite <- Hcontent in Htail, Hend.
  assert (Hslice : slice content (String.length pre + 1)
                     (String.length pre + 1 + String.length block) = block).
  { unfold content.
    replace (pre ++ "@" ++ block ++ r2)%string with ((pre ++ "@") ++ block ++ r2)%string
      by norm_append.
    replace (String.length pre + 1) with (String.length (pre ++ "@"))
      by (rewrite length_append; reflexivity).
    apply slice_middle. }
  split; [|split; [exact Htail | exact Hslice]].
  unfold smartScopeEnd. rewrite Htail. unfold tail.
  rewrite fcsp_last; [| exact Hhq | exact Hc | now apply noParen_calm].
  assert (Hfrom : sliceFrom content (String.length pre + 1)
                  = ((head ++ "(") ++ (in1 ++ String t in2) ++ String ")" (r1 ++ r2))%string).
  { unfold content.
    replace (pre ++ "@" ++ block ++ r2)%string with ((pre ++ "@") ++ block ++ r2)%string
      by norm_append.
    replace (String.length pre + 1) with (String.length (pre ++ "@"))
      by (rewrite length_append; reflexivity).
    rewrite sliceFrom_append. unfold block. norm_append. }
  rewrite Hfrom.
  replace (String.length head + 1) with (String.length (head ++ "("))
    by (rewrite length_append; reflexivity).
  unfold findMatchingParen. rewrite findMatching_found.
  - fold tail.
    assert (Hq : String.length tail
                 <= String.length (head ++ "(") + String.length (in1 ++ String t in2)).
    { unfold tail. norm_length. }
    destruct (Nat.leb_spec (String.length tail)
                (String.length (head ++ "(") + String.length (in1 ++ String t in2))); [|lia].
    f_equal.
    replace content
      with ((pre ++ "@" ++ head ++ "(" ++ in1 ++ String t in2 ++ ")") ++ r1 ++ r2)%string
      by (unfold content, block; norm_append).
    replace (String.length pre + 1
             + (String.length (head ++ "(") + String.length (in1 ++ String t in2)) + 1)
      with (String.length (pre ++ "@" ++ head ++ "(" ++ in1 ++ String t in2 ++ ")"))
      by norm_length.
    rewrite lineEndFrom_line by assumption. unfold block. norm_length.
  - reflexivity.
  - rewrite !allBytes_append, Hiq. cbn [allBytes]. rewrite Hq2.
    destruct (lineByte_false t Ht) as [-> | ->]; reflexivity.
  - rewrite depthAfter_app, depthAfter_none by exact Hnp.
    cbn [depthAfter]. destruct (lineByte_false t Ht) as [-> | ->]; exact Hd.
Qed.

Lemma smartScopeEnd_closed :
  forall pre head in1 r1 r2,
    allBytes tailByte head = true ->
    allBytes tailByte in1 = true ->
    allBytes tailByte r1 = true ->
    controlOnly "@" (head ++ "(") = true ->
    allBytes noParen in1 = true ->
    allBytes notOpenParen r1 = true ->
    startsLine r2 = true ->
    smartScopeEnd (pre ++ "@" ++ (head ++ "(" ++ in1 ++ ")" ++ r1) ++ r2) (String.length pre)
    = None.
Proof.
  intros pre head in1 r1 r2 Hh Hi1 Hr1 Hc Hnp Hno Hr2.
  destruct (tailByte_parts head Hh) as (Hhl & Hhq & Hhb).
  destruct (tailByte_parts in1 Hi1) as (Hil & Hiq & Hib).
  destruct (tailByte_parts r1 Hr1) as (Hrl & Hrq & Hrb).
  set (tail := (head ++ "(" ++ in1 ++ ")" ++ r1)%string).
  set (content := (pre ++ "@" ++ tail ++ r2)%string).
  assert (Htl : allBytes lineByte tail = true).
  { unfold tail. rewrite !allBytes_append, Hhl, Hil, Hrl. reflexivity. }
  destruct (lineTail_line pre tail r2 Htl Hr2) as [Htail Hend].
  fold content in Htail, Hend.
  unfold smartScopeEnd. rewrite Htail. unfold tail.
  rewrite fcsp_last; [| exact Hhq | exact Hc |].
  2:{ rewrite !allBytes_append. cbn [allBytes].
      change (notOpenParen ")" && notQuote ")") with true. cbn [andb].
      apply andb_true_iff. split; [now apply noParen_calm|].
      - clear -Hno Hrq. induction r1 as [|c r1 IH]; [reflexivity|].
        cbn [allBytes] in *. apply andb_true_iff in Hno as [Hc Hno].
        apply andb_true_iff in Hrq as [Hq Hrq]. rewrite IH by assumption.
        now rewrite Hc, Hq. }
  assert (Hfrom : sliceFrom content (String.length pre + 1)
                  = ((head ++ "(") ++ in1 ++ String ")" (r1 ++ r2))%string).
  { unfold content.
    replace (pre ++ "@" ++ tail ++ r2)%string with ((pre ++ "@") ++ tail ++ r2)%string
      by norm_append.
    replace (String.length pre + 1) with (String.length (pre ++ "@"))
      by (rewrite length_append; reflexivity).
    rewrite sliceFrom_append. unfold tail. norm_append. }
  rewrite Hfrom.
  replace (String.length head + 1) with (String.length (head ++ "("))
    by (rewrite length_append; reflexivity).
  unfold findMatchingParen.
  rewrite findMatching_found; [| reflexivity | exact Hiq | now apply depthAfter_none].
  fold tail.
  destruct (Nat.leb_spec (String.length tail) (String.length (head ++ "(") + String.length in1))
    as [H|]; [|reflexivity].
  unfold tail in H. revert H. norm_length.
Qed.

Lemma smartScopeEnd_calls_only :
  forall pre tail r2,
    allBytes lineByte tail = true ->
    startsLine r2 = true ->
    callsOnly "@" tail = true ->
    smartScopeEnd (pre ++ "@" ++ tail ++ r2) (String.length pre) = None.
Proof.
  intros pre tail r2 Hl Hr Hc.
  destruct (lineTail_line pre tail r2 Hl Hr) as [Htail _].
  unfold smartScopeEnd. rewrite Htail, fcsp_calls_only by exact Hc. reflexivity.
Qed.

(** The tokens of a body made of text, an [@] line that is not promoted,
    and text. *)
Lemma tokenize_at_line :
  forall (smart : bool) pre tail r2,
    plainText pre = true ->
    allBytes lineByte tail = true ->
    allBytes notBrace tail = true ->
    startsLine r2 = true ->
    plainText r2 = true ->
    (tail ++ r2)%string <> "" ->
    (if smart then smartScopeEnd (pre ++ "@" ++ tail ++ r2) (String.length pre) else None)
    = None ->
    let lineEnd := String.length pre + 1 + String.length tail in
    tokenizeSQLContent smart (pre ++ "@" ++ tail ++ r2)
    = textToken 0 pre
      ++ ((if negb (String.eqb (TrimSpace tail) "")
           then [mkToken SQLTokenAtLine (TrimSpace tail) (String.length pre) lineEnd]
           else [])
          ++ [mkToken SQLTokenText nl lineEnd lineEnd])
      ++ textToken lineEnd r2.
Proof.
  intros smart pre tail r2 Hpre Hl Hb Hr Hr2 Hne Hsm lineEnd.
  destruct (lineTail_line pre tail r2 Hl Hr) as [Htail Hend].
  apply tokenize_around_at; try assumption.
  rewrite atLine_step.
  - rewrite Hsm, Hend. unfold atLineTokens. rewrite Htail, Hend. reflexivity.
  - now apply atLineStart_shape.
  - rewrite Htail. exact Hb.
Qed.

(** C8, as the code has it, for an [@] line after text [pre] whose tail
    holds no quote and no [{], the text [r2] after the line holding no
    sigil.

    - Promotion.  With smart scope on, no [(] of the tail follows an
      identifier byte, the last [(] of the tail is followed on the tail by
      [in1], which holds no parenthesis, and the [)] that balances it comes
      after a line terminator [t] and a text [in2] with balanced
      parentheses: the tokenizer emits one AtBlock token from the [@] to the
      end of the line of that [)], its content being the text after the
      [@] up to there, trimmed, and after it a Text token ["\n"].
    - The parenthesis closes on the line.  No [(] of the tail follows an
      identifier byte and the last [(] is balanced by a [)] of the tail:
      the tokenizer emits the AtLine token of the trimmed tail and the Text
      token ["\n"], smart scope on or off.
    - Calls only, or smart scope off.  Every [(] of the tail follows an
      identifier byte, or smart scope is off: the tokenizer emits the
      AtLine token of the trimmed tail, if that is not empty, and the Text
      token ["\n"]. *)
Theorem C8_promotion_of_an_at_line :
  (forall pre head in1 t in2 r1 r2,
     plainText pre = true ->
     allBytes tailByte head = true ->
     allBytes tailByte in1 = true ->
     controlOnly "@" (head ++ "(") = true ->
     allBytes noParen in1 = true ->
     lineByte t = false ->
     allBytes notQuote in2 = true ->
     depthAfter "(" ")" 0 in2 = Some 0 ->
     allBytes lineByte r1 = true ->
     startsLine r2 = true ->
     plainText r2 = true ->
     let block := (head ++ "(" ++ in1 ++ String t in2 ++ ")" ++ r1)%string in
     let e := String.length pre + 1 + String.length block in
     tokenizeSQLContent true (pre ++ "@" ++ block ++ r2)
     = textToken 0 pre
       ++ [mkToken SQLTokenAtBlock (TrimSpace block) (String.length pre) e;
           mkToken SQLTokenText nl e e]
       ++ textToken e r2)
  /\ (forall smart pre head in1 r1 r2,
        plainText pre = true ->
        allBytes tailByte head = true ->
        allBytes tailByte in1 = true ->
        allBytes tailByte r1 = true ->
        controlOnly "@" (head ++ "(") = true ->
        allBytes noParen in1 = true ->
        allBytes notOpenParen r1 = true ->
        startsLine r2 = true ->
        plainText r2 = true ->
        let tail := (head ++ "(" ++ in1 ++ ")" ++ r1)%string in
        let lineEnd := String.length pre + 1 + String.length tail in
        TrimSpace tail <> ""
        /\ tokenizeSQLContent smart (pre ++ "@" ++ tail ++ r2)
           = textToken 0 pre
             ++ [mkToken SQLTokenAtLine (TrimSpace tail) (String.length pre) lineEnd;
                 mkToken SQLTokenText nl lineEnd lineEnd]
             ++ textToken lineEnd r2)
  /\ (forall smart pre tail r2,
        plainText pre = true ->
        allBytes tailByte tail = true ->
        smart = false \/ callsOnly "@" tail = true ->
        startsLine r2 = true ->
        plainText r2 = true ->
        (tail ++ r2)%string <> "" ->
        let lineEnd := String.length pre + 1 + String.length tail in
        tokenizeSQLContent smart (pre ++ "@" ++ tail ++ r2)
        = textToken 0 pre
          ++ ((if negb (String.eqb (TrimSpace tail) "")
               then [mkToken SQLTokenAtLine (TrimSpace tail) (String.length pre) lineEnd]
               else [])
              ++ [mkToken SQLTokenText nl lineEnd lineEnd])
          ++ textToken lineEnd r2).
Proof.
  split; [|split].
  - intros pre head in1 t in2 r1 r2 Hpre Hh Hi1 Hc Hnp Ht Hq2 Hd Hr1 Hr2 Hp2 block e.
    destruct (smartScopeEnd_promoted pre head in1 t in2 r1 r2 Hh Hi1 Hc Hnp Ht Hq2 Hd Hr1 Hr2)
      as (Hend & Htail & Hslice).
    fold block in Hend, Htail, Hslice. fold e in Hend, Hslice.
    destruct (tailByte_parts head Hh) as (Hhl & Hhq & Hhb).
    destruct (tailByte_parts in1 Hi1) as (Hil & Hiq & Hib).
    apply tokenize_around_at; try assumption.
    rewrite atLine_step.
    + rewrite Hend. unfold promotedTokens. fold e. rewrite Hslice. reflexivity.
    + replace (pre ++ "@" ++ block ++ r2)%string
        with (pre ++ "@" ++ (head ++ "(" ++ in1)
                  ++ (String t in2 ++ ")" ++ r1 ++ r2))%string
        by (unfold block; norm_append).
      apply atLineStart_shape.
      * rewrite !allBytes_append, Hhb, Hib. reflexivity.
      * cbn [append startsLine]. unfold lineByte in Ht.
        destruct (isByte t LF), (isByte t CR); try reflexivity. discriminate Ht.
      * intros H. destruct head; discriminate H.
    + rewrite Htail, !allBytes_append, Hhb, Hib. reflexivity.
  - intros smart pre head in1 r1 r2 Hpre Hh Hi1 Hr1 Hc Hnp Hno Hr2 Hp2 tail lineEnd.
    destruct (tailByte_parts head Hh) as (Hhl & Hhq & Hhb).
    destruct (tailByte_parts in1 Hi1) as (Hil & Hiq & Hib).
    destruct (tailByte_parts r1 Hr1) as (Hrl & Hrq & Hrb).
    assert (Hne : TrimSpace tail <> "").
    { unfold tail. change (head ++ "(" ++ in1 ++ ")" ++ r1)%string
        with (head ++ String "(" (in1 ++ ")" ++ r1))%string.
      apply TrimSpace_nonblank; reflexivity. }
    split; [exact Hne|].
    rewrite (tokenize_at_line smart pre tail r2); try assumption.
    + fold lineEnd. destruct (String.eqb_spec (TrimSpace tail) ""); [contradiction|].
      reflexivity.
    + unfold tail. rewrite !allBytes_append, Hhl, Hil, Hrl. reflexivity.
    + unfold tail. rewrite !allBytes_append, Hhb, Hib, Hrb. reflexivity.
    + intros H. unfold tail in H. destruct head; discriminate H.
    + destruct smart; [|reflexivity]. now apply smartScopeEnd_closed.
  - intros smart pre tail r2 Hpre Ht Hs Hr2 Hp2 Hne lineEnd.
    destruct (tailByte_parts tail Ht) as (Hl & Hq & Hb).
    apply tokenize_at_line; try assumption.
    destruct smart; [|reflexivity].
    destruct Hs as [Hs|Hs]; [discriminate Hs|].
    now apply smartScopeEnd_calls_only.
Qed.

Lemma C8_promotion_of_an_at_line_witness :
  tokenizeSQLContent true ("x @if (a) && (b ||" ++ nl ++ "  (c)) go" ++ nl ++ "y")
  = [mkToken SQLTokenText "x " 0 2;
     mkToken SQLTokenAtBlock ("if (a) && (b ||" ++ nl ++ "  (c)) go") 2 28;
     mkToken SQLTokenText nl 28 28;
     mkToken SQLTokenText (nl ++ "y") 28 30].
Proof.
  exact (proj1 C8_promotion_of_an_at_line "x " "if (a) && " "b ||" LF "  (c)" " go"
           (nl ++ "y")%string
           eq_refl eq_refl eq_refl eq_refl eq_refl eq_refl eq_refl eq_refl eq_refl
           eq_refl eq_refl).
Defined.

(** ** The scanning loops leave *)

Lemma iter_shift :
  forall (A : Type) (f : A -> A) n s, Nat.iter n f (f s) = Nat.iter (S n) f s.
Proof. intros. now rewrite Nat.iter_succ_r. Qed.

(** A loop [for i < len] whose turns move the position forward leaves
    after at most [len - i] turns. *)
Lemma loop_exits :
  forall (A : Type) (turn : A -> A) (pos : A -> nat) len,
    (forall s, pos s < len -> pos s < pos (turn s)) ->
    forall m start, len - pos start <= m ->
      exists n, n <= len - pos start /\ exitsAfter turn pos len start n.
Proof.
  intros A turn pos len Hmove. induction m as [|m IH]; intros start Hm.
  - exists 0. split; [lia|]. split; [constructor | simpl; lia].
  - destruct (Nat.lt_ge_cases (pos start) len) as [Hlt|Hge].
    + pose proof (Hmove start Hlt) as Hs.
      destruct (IH (turn start) ltac:(lia)) as (n & Hn & Hall & Hend).
      exists (S n). split; [lia|]. split.
      * cbn [seq]. constructor; [exact Hlt|].
        rewrite <- seq_shift. apply Forall_map.
        eapply Forall_impl; [|exact Hall]. intros k Hk. cbn beta in Hk |- *.
        rewrite iter_shift in Hk. exact Hk.
      * rewrite <- iter_shift. exact Hend.
    + exists 0. split; [lia|]. split; [constructor | simpl; lia].
Qed.

Lemma tokenizeTurn_moves :
  forall smart content st, fst (fst st) < fst (fst (tokenizeTurn smart content st)).
Proof.
  intros smart content [[i ts] toks]. unfold tokenizeTurn.
  pose proof (tokenizeStep_moves smart content i ts toks) as Hm.
  destruct (tokenizeStep smart content i ts toks); simpl in *; [exact Hm | lia].
Qed.

Lemma findTurn_moves :
  forall content st,
    fst st < String.length content -> fst st < fst (findTurn content st).
Proof.
  intros content [i blocks] Hlt. cbn [fst] in Hlt. unfold findTurn.
  destruct (isByte (byteAt content i) DQUOTE) eqn:Hq.
  - cbn [fst]. now apply skipStringLiteral_gt.
  - destruct (callPrefixAt content i) as [funcLen|]; [|simpl; lia].
    pose proof (callAt_moves content i funcLen) as Hm.
    destruct (callAt content i funcLen); exact Hm.
Qed.

(** The loop of the model, given fuel for them, makes the turns up to the
    one it leaves after. *)
Lemma tokenize_loop_turns :
  forall smart content n st fuel,
    exitsAfter (tokenizeTurn smart content) (fun s => fst (fst s))
      (String.length content) st n ->
    n < fuel ->
    tokenize_loop fuel smart content (fst (fst st)) (snd (fst st)) (snd st)
    = (snd (fst (Nat.iter n (tokenizeTurn smart content) st)),
       snd (Nat.iter n (tokenizeTurn smart content) st)).
Proof.
  intros smart content. induction n as [|n IH]; intros [[i ts] toks] fuel [Hall Hend] Hf;
    (destruct fuel as [|fuel]; [lia|]); cbn [fst snd tokenize_loop].
  - cbn [Nat.iter nat_rect fst] in Hend |- *.
    destruct (Nat.ltb_spec i (String.length content)); [lia | reflexivity].
  - cbn [seq] in Hall. inversion Hall as [|k ks Hk Hks]; subst.
    cbn [Nat.iter nat_rect fst] in Hk.
    destruct (Nat.ltb_spec i (String.length content)) as [_|]; [|lia].
    rewrite <- seq_shift in Hks. apply Forall_map in Hks.
    assert (Hex : exitsAfter (tokenizeTurn smart content) (fun s => fst (fst s))
                    (String.length content) (tokenizeTurn smart content (i, ts, toks)) n).
    { split.
      - eapply Forall_impl; [|exact Hks]. intros k Hk'. cbn beta in Hk' |- *.
        rewrite iter_shift. exact Hk'.
      - rewrite iter_shift. exact Hend. }
    specialize (IH _ fuel Hex ltac:(lia)).
    rewrite iter_shift in IH. rewrite <- IH. unfold tokenizeTurn.
    destruct (tokenizeStep smart content i ts toks); reflexivity.
Qed.

Lemma findSQLBlocks_loop_turns :
  forall content n st fuel,
    exitsAfter (findTurn content) fst (String.length content) st n ->
    n < fuel ->
    findSQLBlocks_loop fuel content (fst st) (snd st)
    = snd (Nat.iter n (findTurn content) st).
Proof.
  intros content. induction n as [|n IH]; intros [i blocks] fuel [Hall Hend] Hf;
    (destruct fuel as [|fuel]; [lia|]); cbn [fst snd findSQLBlocks_loop].
  - cbn [Nat.iter nat_rect fst] in Hend |- *.
    destruct (Nat.ltb_spec i (String.length content)); [lia | reflexivity].
  - cbn [seq] in Hall. inversion Hall as [|k ks Hk Hks]; subst.
    cbn [Nat.iter nat_rect fst] in Hk.
    destruct (Nat.ltb_spec i (String.length content)) as [_|]; [|lia].
    rewrite <- seq_shift in Hks. apply Forall_map in Hks.
    assert (Hex : exitsAfter (findTurn content) fst (String.length content)
                    (findTurn content (i, blocks)) n).
    { split.
      - eapply Forall_impl; [|exact Hks]. intros k Hk'. cbn beta in Hk' |- *.
        rewrite iter_shift. exact Hk'.
      - rewrite iter_shift. exact Hend. }
    specialize (IH _ fuel Hex ltac:(lia)).
    rewrite iter_shift in IH. rewrite <- IH. unfold findTurn.
    destruct (isByte (byteAt content i) DQUOTE); [reflexivity|].
    destruct (callPrefixAt content i) as [funcLen|]; [|reflexivity].
    destruct (callAt content i funcLen); reflexivity.
Qed.

(** X25. The loop of [tokenizeSQLContent] leaves: every turn moves the
    position forward, so after some [n] turns, at most [len(content)], the
    position is no longer below the length, and the tokens returned are
    those of the state the loop leaves with, with the text that is left. *)
Theorem tokenizeSQLContent_terminates :
  forall smart content,
    (forall st, fst (fst st) < fst (fst (tokenizeTurn smart content st)))
    /\ exists n,
         n <= String.length content
         /\ exitsAfter (tokenizeTurn smart content) (fun s => fst (fst s))
              (String.length content) (0, 0, []) n
         /\ tokenizeSQLContent smart content
            = finish content
                (snd (fst (Nat.iter n (tokenizeTurn smart content) (0, 0, []))),
                 snd (Nat.iter n (tokenizeTurn smart content) (0, 0, []))).
Proof.
  intros smart content. split; [apply tokenizeTurn_moves|].
  destruct (loop_exits _ (tokenizeTurn smart content) (fun s => fst (fst s))
              (String.length content)
              (fun s _ => tokenizeTurn_moves smart content s)
              (String.length content) (0, 0, []) ltac:(simpl; lia))
    as (n & Hn & Hex).
  cbn [fst] in Hn. exists n. split; [lia|]. split; [exact Hex|].
  rewrite tokenizeSQLContent_finish. f_equal.
  apply (tokenize_loop_turns smart content n (0, 0, [])); [exact Hex | lia].
Qed.

(** X26. The loop of [findSQLBlocks] leaves: every turn at a position
    below the length moves the position forward, so after some [n] turns,
    at most [len(content)], the position is no longer below the length, and
    the blocks returned are those of the state the loop leaves with. *)
Theorem findSQLBlocks_terminates :
  forall content,
    (forall st, String.length content <= fst st \/ fst st < fst (findTurn content st))
    /\ exists n,
         n <= String.length content
         /\ exitsAfter (findTurn content) fst (String.length content) (0, []) n
         /\ findSQLBlocks content = snd (Nat.iter n (findTurn content) (0, [])).
Proof.
  intros content. split.
  { intros st. destruct (Nat.lt_ge_cases (fst st) (String.length content)) as [H|H];
      [right; now apply findTurn_moves | left; exact H]. }
  destruct (loop_exits _ (findTurn content) fst (String.length content)
              (findTurn_moves content) (String.length content) (0, []) ltac:(simpl; lia))
    as (n & Hn & Hex).
  cbn [fst] in Hn. exists n. split; [lia|]. split; [exact Hex|].
  apply (findSQLBlocks_loop_turns content n (0, [])); [exact Hex | lia].
Qed.

End Props.

